(** * Seller-financing installment plans: the solver and the conversation engine

    A shallow embedding of the present-value solver (npv-calculator) and of
    the turn function of the chatbot (lib/chatbot.ts), with the properties of
    the specification stated over them; and of the catalog filter
    (lib/csv-loader.ts) and the values of the result card
    (components/NPVResultCard.tsx), with further properties of the code.

    Conventions of the embedding.
    - A JavaScript [number] that holds money, a rate or a discount factor is
      a rational ([Q]) and arithmetic on it is exact: rounding and overflow
      of binary floating point are not part of the model.  Division is
      [Qdiv]; where JavaScript would produce a non-finite value (a zero
      denominator) the theorems below carry the condition that rules it out,
      or speak only about whether the call returns or throws.
      The one test of the code for overflow, [isFinite] in [parseAmount], is
      modelled: a number read from digits is finite when its exact value is
      below the least value that rounds to [Infinity].
    - A [number] that holds a year, a month or a count is an integer ([Z]),
      hence finite.  A count of [Infinity] ([parseInt] of a run of digits
      of that size) is not a value of the model: the loops of the solver do
      not end on it, and no theorem below speaks of such a call.
    - A [Date] built as [new Date(y, m, 1)] is the month it falls in, counted
      as [12 * y + m]; the legacy reading of the years 0..99 by the Date
      constructor is not part of the model.
    - The text [YYYY-MM] of a schedule entry is the pair (year, month) it is
      printed from and parsed back to.
    - An optional field is an [option]; [undefined] is [None].
    - A string is its UTF-8 text; each regular expression is written out as
      the matcher it denotes.
    - The text of a reply is the template it is built from ([Reply]);
      formatting of money and dates is left out.
    - The clock ([getCurrentDate]) is an argument of the turn function;
      [Math.pow(x, 1/12)] and [Array.prototype.sort] are parameters of the
      engine.
    - A [while] loop runs on fuel, with a lemma that the fuel given is
      enough ([skipLoop_terminates], [downSearchLoop_terminates]). *)

From Stdlib Require Import ZArith QArith Qpower Qabs Qround Lia Lqa.
From Stdlib Require Import List Bool String Ascii Permutation Sorted.
Import ListNotations.

Local Open Scope Z_scope.

(** ** The solver (npv-calculator) *)

Module NpvCalculator.

Record NPVInputs : Type := mkNPVInputs {
  targetPv : option Q;
  targetNominal : option Q;
  monthlyRate : Q;
  downAmount : Q;
  downYear : Z;
  downMonth : Z;
  nInstallments : Z;
  startYear : Z;
  startMonth : Z
}.

Inductive EntryType : Type := installment | down_payment.

(** The text [YYYY-MM]. *)
Record YearMonth : Type := mkYearMonth { ymYear : Z; ymMonth : Z }.

Record ScheduleEntry : Type := mkScheduleEntry {
  date : YearMonth;
  amount : Q;
  type : EntryType
}.

Record ModelResult : Type := mkModelResult {
  monthlyInstallment : Q;
  nominalTotal : Q;
  modelPresentValue : Q;
  schedule : list ScheduleEntry
}.

Record NPVResult : Type := mkNPVResult {
  modelA : ModelResult;
  modelB : ModelResult;
  downPaymentPV : Q;
  downPaymentDate : YearMonth
}.

(** What a call does: it returns a value or throws an [Error]. *)
Inductive Outcome (A : Type) : Type :=
| Returned (a : A)
| Thrown (msg : string).
Arguments Returned {A} a.
Arguments Thrown {A} msg.

(** *** Dates *)

(** [new Date(year, month, 1)], with [month] counted from 0 and free to
    overflow into the neighbouring years. *)
Definition newDate (year month0 : Z) : Z := 12 * year + month0.
Definition getFullYear (d : Z) : Z := d / 12.
Definition getMonth (d : Z) : Z := d mod 12.
(** [date.setMonth(m)] on a date whose day is 1. *)
Definition setMonth (d : Z) (month0 : Z) : Z := newDate (getFullYear d) month0.

(** [`${date.getFullYear()}-${String(date.getMonth() + 1).padStart(2, '0')}`] *)
Definition dateStr (d : Z) : YearMonth := mkYearMonth (getFullYear d) (getMonth d + 1).

(** *** Discounting primitives *)

Definition monthsBetween (startYear startMonth endYear endMonth : Z) : Z :=
  (endYear - startYear) * 12 + (endMonth - startMonth).

Definition presentValue (amount : Q) (monthsAhead : Z) (r : Q) : Q :=
  (amount / (1 + r) ^ monthsAhead)%Q.

(** The body of the [for] loop of [geometricSumDiscount]: [iters] iterations
    are left, [k] is [startMonth + i]. *)
Fixpoint geometricSumLoop (iters : nat) (k : Z) (r : Q) (skipIndex : option Z)
    (sum : Q) : Q :=
  match iters with
  | O => sum
  | S iters' =>
      let skip := match skipIndex with Some s => k =? s | None => false end in
      geometricSumLoop iters' (k + 1) r skipIndex
        (if skip then sum else (sum + 1 / (1 + r) ^ k)%Q)
  end.

Definition geometricSumDiscount (n : Z) (r : Q) (startMonth : Z)
    (skipIndex : option Z) : Q :=
  geometricSumLoop (Z.to_nat n) startMonth r skipIndex 0%Q.

(** *** Schedule builders *)

Definition startDate (inp : NPVInputs) : Z :=
  newDate (startYear inp) (startMonth inp - 1).

(** The [for] loop of [scheduleConcurrent], [k] running up to [nInstallments]. *)
Fixpoint concurrentLoop (iters : nat) (k : Z) (start : Z) (T : Q)
    (schedule : list ScheduleEntry) : list ScheduleEntry :=
  match iters with
  | O => schedule
  | S iters' =>
      let date := setMonth start (getMonth start + k) in
      concurrentLoop iters' (k + 1) start T
        (schedule ++ [mkScheduleEntry (dateStr date) T installment])
  end.

Definition scheduleConcurrent (inp : NPVInputs) (T : Q) : list ScheduleEntry :=
  concurrentLoop (Z.to_nat (nInstallments inp)) 1 (startDate inp) T [].

(** The variables of the [while] loop of [scheduleSkip]. *)
Record SkipState : Type := mkSkipState {
  paid : Z;
  k : Z;
  sched : list ScheduleEntry
}.

(** One turn of the loop body. *)
Definition skipBody (t start : Z) (T : Q) (st : SkipState) : SkipState :=
  let dateK := setMonth start (getMonth start + k st) in
  if k st =? t then mkSkipState (paid st) (k st + 1) (sched st)
  else mkSkipState (paid st + 1) (k st + 1)
         (sched st ++ [mkScheduleEntry (dateStr dateK) T installment]).

(** [while (paid < n) body], run for at most [fuel] turns; [None] when the
    fuel runs out before the loop condition fails. *)
Fixpoint skipLoop (fuel : nat) (n t start : Z) (T : Q) (st : SkipState)
    : option SkipState :=
  if paid st <? n then
    match fuel with
    | O => None
    | S fuel' => skipLoop fuel' n t start T (skipBody t start T st)
    end
  else Some st.

(** Enough turns for every input: each turn but at most one pays. *)
Definition skipFuel (n : Z) : nat := S (Z.to_nat n).

Definition scheduleSkip (inp : NPVInputs) (T : Q) : list ScheduleEntry :=
  let t := monthsBetween (startYear inp) (startMonth inp) (downYear inp) (downMonth inp) in
  match skipLoop (skipFuel (nInstallments inp)) (nInstallments inp) t
          (startDate inp) T (mkSkipState 0 1 []) with
  | Some st => sched st
  | None => []
  end.

(** *** Present value of a schedule *)

Definition entryMonths (start : Z) (entry : ScheduleEntry) : Z :=
  let year := ymYear (date entry) in
  let month := ymMonth (date entry) in
  let dt := newDate year (month - 1) in
  (getFullYear dt - getFullYear start) * 12 + (getMonth dt - getMonth start).

Definition pvOfSchedule (schedule : list ScheduleEntry) (inp : NPVInputs) : Q :=
  let start := startDate inp in
  fold_left
    (fun pv entry =>
       (pv + presentValue (amount entry) (entryMonths start entry) (monthlyRate inp))%Q)
    schedule 0%Q.

(** *** The solver *)

Definition calculateNPV (inputs : NPVInputs) : Outcome NPVResult :=
  let t := monthsBetween (startYear inputs) (startMonth inputs)
             (downYear inputs) (downMonth inputs) in
  let pvDown := presentValue (downAmount inputs) t (monthlyRate inputs) in
  let downDate := mkYearMonth (downYear inputs) (downMonth inputs) in
  let n := inject_Z (nInstallments inputs) in
  match targetPv inputs, targetNominal inputs with
  | Some targetPv, _ =>
      let remainingPv := (targetPv - pvDown)%Q in
      let sCon := geometricSumDiscount (nInstallments inputs) (monthlyRate inputs) 1 None in
      let tCon := (remainingPv / sCon)%Q in
      let schedCon := scheduleConcurrent inputs tCon in
      let pvCon := (pvDown + pvOfSchedule schedCon inputs)%Q in
      let nominalCon := (downAmount inputs + tCon * n)%Q in
      let skipIdx :=
        if (1 <=? t) && (t <=? nInstallments inputs + 1) then Some t else None in
      let sSkip := geometricSumDiscount (nInstallments inputs + 1) (monthlyRate inputs) 1 skipIdx in
      let tSkip := (remainingPv / sSkip)%Q in
      let schedSkip := scheduleSkip inputs tSkip in
      let pvSkip := (pvDown + pvOfSchedule schedSkip inputs)%Q in
      let nominalSkip := (downAmount inputs + tSkip * n)%Q in
      Returned (mkNPVResult
                  (mkModelResult tCon nominalCon pvCon schedCon)
                  (mkModelResult tSkip nominalSkip pvSkip schedSkip)
                  pvDown downDate)
  | None, Some targetNominal =>
      let tCommon := ((targetNominal - downAmount inputs) / n)%Q in
      let schedCon := scheduleConcurrent inputs tCommon in
      let pvCon := (pvDown + pvOfSchedule schedCon inputs)%Q in
      let schedSkip := scheduleSkip inputs tCommon in
      let pvSkip := (pvDown + pvOfSchedule schedSkip inputs)%Q in
      Returned (mkNPVResult
                  (mkModelResult tCommon targetNominal pvCon schedCon)
                  (mkModelResult tCommon targetNominal pvSkip schedSkip)
                  pvDown downDate)
  | None, None => Thrown "Either targetPv or targetNominal must be provided"
  end.

End NpvCalculator.

(** ** JavaScript strings

    A string is its UTF-8 text.  The helpers below are the string methods and
    the regular expressions the engine uses, each written out as the matcher
    it denotes. *)

Module JsString.

Local Open Scope string_scope.

Definition code (c : ascii) : N := N_of_ascii c.

Definition inRange (lo hi : N) (c : ascii) : bool :=
  ((lo <=? code c) && (code c <=? hi))%N.

(** [\d] *)
Definition isDigit (c : ascii) : bool := inRange 48 57 c.
Definition isUpper (c : ascii) : bool := inRange 65 90 c.
Definition isLower (c : ascii) : bool := inRange 97 122 c.
(** [[A-Z]] under the flag [i] *)
Definition isLetter (c : ascii) : bool := isUpper c || isLower c.
(** [[A-Z0-9]] under the flag [i] *)
Definition isAlnum (c : ascii) : bool := isLetter c || isDigit c.
(** [[\d.,]] *)
Definition isNumChar (c : ascii) : bool :=
  isDigit c || Ascii.eqb c "." || Ascii.eqb c ",".

Definition digitValue (c : ascii) : Z := Z.of_N (code c) - 48.

(** White space of one byte: TAB, LF, VT, FF, CR, SP. *)
Definition isSpace1 (c : ascii) : bool := inRange 9 13 c || (code c =? 32)%N.
(** U+00A0. *)
Definition isSpace2 (c1 c2 : ascii) : bool :=
  ((code c1 =? 194) && (code c2 =? 160))%N.
(** U+1680, U+2000..U+200A, U+2028, U+2029, U+202F, U+205F, U+3000, U+FEFF. *)
Definition isSpace3 (c1 c2 c3 : ascii) : bool :=
  ((code c1 =? 225) && (code c2 =? 154) && (code c3 =? 128)
   || (code c1 =? 226) && (code c2 =? 128)
      && (inRange 128 138 c3 || (code c3 =? 168) || (code c3 =? 169) || (code c3 =? 175))
   || (code c1 =? 226) && (code c2 =? 129) && (code c3 =? 159)
   || (code c1 =? 227) && (code c2 =? 128) && (code c3 =? 128)
   || (code c1 =? 239) && (code c2 =? 187) && (code c3 =? 191))%N.

(** [\s*] at the head of a string: what is left after it. *)
Fixpoint dropSpaces (s : string) : string :=
  match s with
  | String c1 s1 =>
      if isSpace1 c1 then dropSpaces s1
      else match s1 with
           | String c2 s2 =>
               if isSpace2 c1 c2 then dropSpaces s2
               else match s2 with
                    | String c3 s3 =>
                        if isSpace3 c1 c2 c3 then dropSpaces s3 else s
                    | EmptyString => s
                    end
           | EmptyString => s
           end
  | EmptyString => s
  end.

Definition allSpaces (s : string) : bool :=
  match dropSpaces s with EmptyString => true | _ => false end.

Definition trimStart (s : string) : string := dropSpaces s.

Fixpoint trimEnd (s : string) : string :=
  match s with
  | EmptyString => EmptyString
  | String c s' => if allSpaces s then EmptyString else String c (trimEnd s')
  end.

Definition trim (s : string) : string := trimEnd (trimStart s).

(** The white space [\s*] takes at the head of [s]. *)
Definition takeSpaces (s : string) : string :=
  substring 0 (String.length s - String.length (dropSpaces s)) s.

Fixpoint takeWhile (p : ascii -> bool) (s : string) : string :=
  match s with
  | String c s' => if p c then String c (takeWhile p s') else EmptyString
  | EmptyString => EmptyString
  end.

Fixpoint dropWhile (p : ascii -> bool) (s : string) : string :=
  match s with
  | String c s' => if p c then dropWhile p s' else s
  | EmptyString => EmptyString
  end.

Fixpoint filterChars (p : ascii -> bool) (s : string) : string :=
  match s with
  | String c s' => if p c then String c (filterChars p s') else filterChars p s'
  | EmptyString => EmptyString
  end.

(** [s.includes(needle)] *)
Fixpoint includes (s needle : string) : bool :=
  prefix needle s
  || match s with
     | String _ s' => includes s' needle
     | EmptyString => false
     end.

Definition byte (n : N) : ascii := ascii_of_N n.

(** [s.toLowerCase()].  The mapping is written out for the letters A-Z, for
    the Latin-1 capitals, for the Turkish capitals and for the two
    letter-like signs that lower to Latin letters; any other character is
    left as it is (no keyword of the engine contains the lower-case form of
    one). *)
Fixpoint toLowerCase (s : string) : string :=
  match s with
  | String c1 s1 =>
      if isUpper c1 then String (byte (code c1 + 32)) (toLowerCase s1)
      else
        match s1 with
        | String c2 s2 =>
            if (code c1 =? 195)%N && inRange 128 158 c2 && negb (code c2 =? 151)%N
            then String c1 (String (byte (code c2 + 32)) (toLowerCase s2))
            else if ((code c1 =? 196) || (code c1 =? 197))%N && (code c2 =? 158)%N
            then String c1 (String (byte 159) (toLowerCase s2))
            else if ((code c1 =? 196) && (code c2 =? 176))%N
            then String "i" (String (byte 204) (String (byte 135) (toLowerCase s2)))
            else
              match s2 with
              | String c3 s3 =>
                  if ((code c1 =? 226) && (code c2 =? 132) && (code c3 =? 170))%N
                  then String "k" (toLowerCase s3)
                  else if ((code c1 =? 226) && (code c2 =? 132) && (code c3 =? 171))%N
                  then String (byte 195) (String (byte 165) (toLowerCase s3))
                  else String c1 (toLowerCase s1)
              | EmptyString => String c1 (toLowerCase s1)
              end
        | EmptyString => String c1 EmptyString
        end
  | EmptyString => EmptyString
  end.

(** [s.toUpperCase()] on text made of ASCII letters, digits and hyphens. *)
Fixpoint toUpperCase (s : string) : string :=
  match s with
  | String c s' =>
      String (if isLower c then byte (code c - 32) else c) (toUpperCase s')
  | EmptyString => EmptyString
  end.

(** The value of a run of digits, read on from [acc]. *)
Fixpoint digitsValue (s : string) (acc : Z) : Z :=
  match s with
  | String c s' => if isDigit c then digitsValue s' (10 * acc + digitValue c) else acc
  | EmptyString => acc
  end.

(** [parseInt(s)] on a capture of [\d+]. *)
Definition parseInt (s : string) : Z := digitsValue s 0.

(** [parseFloat(s)] on text that begins with a digit and holds only digits,
    dots and commas: the digits, and the digits after a first dot if one
    follows them directly. *)
Definition parseFloat (s : string) : Q :=
  let intDigits := takeWhile isDigit s in
  match dropWhile isDigit s with
  | String "." rest =>
      let fracDigits := takeWhile isDigit rest in
      (inject_Z (parseInt intDigits)
       + inject_Z (parseInt fracDigits) / inject_Z (10 ^ Z.of_nat (String.length fracDigits)))%Q
  | _ => inject_Z (parseInt intDigits)
  end.

(** [s.replace(',', '.')]: the first comma only. *)
Fixpoint replaceFirstComma (s : string) : string :=
  match s with
  | String c s' => if Ascii.eqb c "," then String "." s' else String c (replaceFirstComma s')
  | EmptyString => EmptyString
  end.

(** The least magnitude that a number read from text rounds to [Infinity]:
    half way between the largest double, [2^1024 - 2^971], and [2^1024]
    (the tie goes to the even neighbour, which is [2^1024]). *)
Definition overflowBound : Z := 2 ^ 1024 - 2 ^ 970.

(** [isFinite(x)] of the number read from the text whose exact value is [x]. *)
Definition isFinite (x : Q) : bool :=
  if Qlt_le_dec (Qabs x) (inject_Z overflowBound) then true else false.

End JsString.

(** ** The conversation engine (lib/chatbot.ts) *)

Module Chatbot.

Import JsString.
Local Open Scope string_scope.
Local Open Scope Z_scope.

(** *** The regular expressions of the parsers *)

(** [/(\d{4})/]: the first four digits in a row. *)
Fixpoint matchFourDigits (s : string) : option string :=
  match s with
  | String _ s' =>
      if (4 <=? String.length (takeWhile isDigit s))%nat then Some (substring 0 4 s)
      else matchFourDigits s'
  | EmptyString => None
  end.

(** [/(\d{1,2})/]: the first digit, with the digit after it if there is one. *)
Fixpoint matchOneOrTwoDigits (s : string) : option string :=
  match s with
  | String c s' =>
      if isDigit c then Some (substring 0 2 (takeWhile isDigit s))
      else matchOneOrTwoDigits s'
  | EmptyString => None
  end.

(** [/(\d+)/] at the head of longer patterns: the first run of digits. *)
Fixpoint matchDigits (s : string) : option string :=
  match s with
  | String c s' => if isDigit c then Some (takeWhile isDigit s) else matchDigits s'
  | EmptyString => None
  end.

(** The group [\d+[\d.,]*] searched in [s]: from the first digit, the run of
    digits, dots and commas. *)
Fixpoint matchNumber (s : string) : option string :=
  match s with
  | String c s' => if isDigit c then Some (takeWhile isNumChar s) else matchNumber s'
  | EmptyString => None
  end.

(** [[A-Z]+-[A-Z0-9]+-\d+] under the flag [i], matched at the head of [s]:
    the text matched and what follows it. *)
Definition matchEvIdHere (s : string) : option (string * string) :=
  let letters := takeWhile isLetter s in
  match letters, dropWhile isLetter s with
  | String _ _, String "-" s1 =>
      let alnums := takeWhile isAlnum s1 in
      match alnums, dropWhile isAlnum s1 with
      | String _ _, String "-" s2 =>
          let digits := takeWhile isDigit s2 in
          match digits with
          | String _ _ =>
              Some (letters ++ "-" ++ alnums ++ "-" ++ digits, dropWhile isDigit s2)
          | EmptyString => None
          end
      | _, _ => None
      end
  | _, _ => None
  end.

(** [/^[A-Z]+-[A-Z0-9]+-\d+$/i.test(s)] *)
Definition evIdPattern (s : string) : bool :=
  match matchEvIdHere s with
  | Some (_, EmptyString) => true
  | _ => false
  end.

(** [/([A-Z]+-[A-Z0-9]+-\d+)/i]: the leftmost match. *)
Fixpoint matchEvId (s : string) : option string :=
  match matchEvIdHere s with
  | Some (m, _) => Some m
  | None =>
      match s with
      | String _ s' => matchEvId s'
      | EmptyString => None
      end
  end.

(** [%?\s*\d+[\d.,]*\s*%] matched at the head of [s]: the text of [%?\s*]
    and the text of [\d+[\d.,]*]. *)
Definition matchPercentHere (s : string) : option (string * string) :=
  let (sign, s1) :=
    match s with
    | String "%" r => ("%", r)
    | _ => ("", s)
    end in
  let s2 := dropSpaces s1 in
  match s2 with
  | String c _ =>
      if isDigit c then
        match dropSpaces (dropWhile isNumChar s2) with
        | String "%" _ => Some (sign ++ takeSpaces s1, takeWhile isNumChar s2)
        | _ => None
        end
      else None
  | EmptyString => None
  end.

(** The same pattern searched in [s]: the leftmost match, as its two groups. *)
Fixpoint matchPercent (s : string) : option (string * string) :=
  match matchPercentHere s with
  | Some groups => Some groups
  | None =>
      match s with
      | String _ s' => matchPercent s'
      | EmptyString => None
      end
  end.

(** [(\d+)\s*ay] under the flag [i], matched at the head of [s]. *)
Definition matchDigitsAyHere (s : string) : option string :=
  match takeWhile isDigit s with
  | EmptyString => None
  | digits =>
      match dropSpaces (dropWhile isDigit s) with
      | String a (String y _) =>
          if (Ascii.eqb a "a" || Ascii.eqb a "A") && (Ascii.eqb y "y" || Ascii.eqb y "Y")
          then Some digits else None
      | _ => None
      end
  end.

(** [/(\d+)\s*ay/i]: the leftmost match. *)
Fixpoint matchDigitsAy (s : string) : option string :=
  match matchDigitsAyHere s with
  | Some digits => Some digits
  | None =>
      match s with
      | String _ s' => matchDigitsAy s'
      | EmptyString => None
      end
  end.

(** [/^(\d+)\.?$/] *)
Definition matchListNumber (s : string) : option string :=
  match takeWhile isDigit s with
  | EmptyString => None
  | digits =>
      match dropWhile isDigit s with
      | EmptyString | String "." EmptyString => Some digits
      | _ => None
      end
  end.

(** *** Parsers *)

Definition parseYear (input : string) : option Z :=
  let trimmed := trim input in
  match matchFourDigits trimmed with
  | Some yearMatch =>
      let year := parseInt yearMatch in
      if (2000 <? year) && (year <? 2100) then Some year else None
  | None => None
  end.

Definition monthNames : list (string * Z) :=
  [("ocak", 1); ("şubat", 2); ("mart", 3); ("nisan", 4); ("mayıs", 5);
   ("haziran", 6); ("temmuz", 7); ("ağustos", 8); ("eylül", 9); ("ekim", 10);
   ("kasım", 11); ("aralık", 12)].

Definition parseMonth (input : string) : option Z :=
  let trimmed := toLowerCase (trim input) in
  let byName :=
    option_map snd (find (fun entry => includes trimmed (fst entry)) monthNames) in
  match matchOneOrTwoDigits trimmed with
  | Some numMatch =>
      let month := parseInt numMatch in
      if (1 <=? month) && (month <=? 12) then Some month else byName
  | None => byName
  end.

(** The digits of the input, read as one number, unless the whole input is
    a property identifier.  The number read from digits is never [NaN], so
    of [!isNaN(amount) && isFinite(amount) && amount > 0] the last two tests
    remain. *)
Definition parseAmount (input : string) : option Q :=
  let trimmed := trim input in
  if evIdPattern trimmed then None
  else
    let numbersOnly := filterChars isDigit trimmed in
    match numbersOnly with
    | EmptyString => None
    | _ =>
        let amount := parseFloat numbersOnly in
        if isFinite amount && (if Qlt_le_dec 0 amount then true else false)
        then Some amount else None
    end.

Definition parseInstallments (input : string) : option Z :=
  match matchDigits input with
  | Some digits =>
      let count := parseInt digits in
      if 0 <? count then Some count else None
  | None => None
  end.

Record RateInfo : Type := mkRateInfo { rate : Q; isAnnual : bool }.

Definition positiveRate (rate : Q) (isAnnual : bool) : option RateInfo :=
  if Qlt_le_dec 0 rate then Some (mkRateInfo rate isAnnual) else None.

(** [s.replace(/[%,]/g, '')] *)
Definition removePercentAndCommas (s : string) : string :=
  filterChars (fun c => negb (Ascii.eqb c "%" || Ascii.eqb c ",")) s.

Definition parseMonthlyRate (input : string) : option RateInfo :=
  match matchPercent input with
  | Some (_, number) =>
      positiveRate (parseFloat (replaceFirstComma number) / 100) false
  | None =>
      match matchNumber input with
      | Some number => positiveRate (parseFloat (replaceFirstComma number)) false
      | None => None
      end
  end.

Definition parseInterestRate (input : string) : option RateInfo :=
  let lower := toLowerCase input in
  let isAnnual :=
    includes lower "yıllık" || includes lower "yillik" || includes lower "annual"
    || includes lower "yıl" || includes lower "yil" in
  if isAnnual then
    match matchPercent input with
    | Some (lead, number) =>
        positiveRate
          (parseFloat (replaceFirstComma (trim (removePercentAndCommas (lead ++ number)))))
          true
    | None =>
        match matchNumber input with
        | Some number => positiveRate (parseFloat (replaceFirstComma number)) true
        | None => parseMonthlyRate input
        end
    end
  else parseMonthlyRate input.

Definition parseApartmentId (input : string) : option string :=
  option_map toUpperCase (matchEvId input).

Definition parseDeliveryTime (teslimSuresi : string) : Z :=
  match matchDigitsAy teslimSuresi with
  | Some digits => parseInt digits
  | None => 0
  end.

(** *** Data *)

Record Apartment : Type := mkApartment {
  ev_id : string;
  proje_adi : string;
  sehir : string;
  ilce : string;
  mahalle : string;
  blok : string;
  kat : Z;
  oda_sayisi : string;
  m2 : Q;
  teslim_suresi : string;
  bitis_tarihi : string;
  bugunku_pesin_fiyat : Q
}.

Inductive ConversationStep : Type :=
| waiting_for_apartment
| waiting_for_interest_rate
| waiting_for_down_payment
| waiting_for_down_payment_year
| waiting_for_down_payment_month
| waiting_for_installments
| completed
| waiting_for_lower_installment
| showing_alternatives.

Definition ConversationStep_eqb (a b : ConversationStep) : bool :=
  match a, b with
  | waiting_for_apartment, waiting_for_apartment
  | waiting_for_interest_rate, waiting_for_interest_rate
  | waiting_for_down_payment, waiting_for_down_payment
  | waiting_for_down_payment_year, waiting_for_down_payment_year
  | waiting_for_down_payment_month, waiting_for_down_payment_month
  | waiting_for_installments, waiting_for_installments
  | completed, completed
  | waiting_for_lower_installment, waiting_for_lower_installment
  | showing_alternatives, showing_alternatives => true
  | _, _ => false
  end.

Record ConversationState : Type := mkConversationState {
  step : option ConversationStep;
  apartmentId : option string;
  downAmount : option Q;
  monthlyRate : option Q;
  nInstallments : option Z;
  startYear : option Z;
  startMonth : option Z;
  downYear : option Z;
  downMonth : option Z;
  isAnnualRateSelected : option bool;
  desiredInstallment : option Q;
  calculatedPv : option Q;
  lastNpvResult : option NpvCalculator.NPVResult;
  alternativeApartments : option (list Apartment);
  suggestedDownAmount : option Q
}.

(** [newState.field = value] *)
Definition set_step v (s : ConversationState) :=
  mkConversationState v (apartmentId s) (downAmount s) (monthlyRate s)
    (nInstallments s) (startYear s) (startMonth s) (downYear s) (downMonth s)
    (isAnnualRateSelected s) (desiredInstallment s) (calculatedPv s)
    (lastNpvResult s) (alternativeApartments s) (suggestedDownAmount s).
Definition set_apartmentId v (s : ConversationState) :=
  mkConversationState (step s) v (downAmount s) (monthlyRate s)
    (nInstallments s) (startYear s) (startMonth s) (downYear s) (downMonth s)
    (isAnnualRateSelected s) (desiredInstallment s) (calculatedPv s)
    (lastNpvResult s) (alternativeApartments s) (suggestedDownAmount s).
Definition set_downAmount v (s : ConversationState) :=
  mkConversationState (step s) (apartmentId s) v (monthlyRate s)
    (nInstallments s) (startYear s) (startMonth s) (downYear s) (downMonth s)
    (isAnnualRateSelected s) (desiredInstallment s) (calculatedPv s)
    (lastNpvResult s) (alternativeApartments s) (suggestedDownAmount s).
Definition set_monthlyRate v (s : ConversationState) :=
  mkConversationState (step s) (apartmentId s) (downAmount s) v
    (nInstallments s) (startYear s) (startMonth s) (downYear s) (downMonth s)
    (isAnnualRateSelected s) (desiredInstallment s) (calculatedPv s)
    (lastNpvResult s) (alternativeApartments s) (suggestedDownAmount s).
Definition set_nInstallments v (s : ConversationState) :=
  mkConversationState (step s) (apartmentId s) (downAmount s) (monthlyRate s)
    v (startYear s) (startMonth s) (downYear s) (downMonth s)
    (isAnnualRateSelected s) (desiredInstallment s) (calculatedPv s)
    (lastNpvResult s) (alternativeApartments s) (suggestedDownAmount s).
Definition set_startYear v (s : ConversationState) :=
  mkConversationState (step s) (apartmentId s) (downAmount s) (monthlyRate s)
    (nInstallments s) v (startMonth s) (downYear s) (downMonth s)
    (isAnnualRateSelected s) (desiredInstallment s) (calculatedPv s)
    (lastNpvResult s) (alternativeApartments s) (suggestedDownAmount s).
Definition set_startMonth v (s : ConversationState) :=
  mkConversationState (step s) (apartmentId s) (downAmount s) (monthlyRate s)
    (nInstallments s) (startYear s) v (downYear s) (downMonth s)
    (isAnnualRateSelected s) (desiredInstallment s) (calculatedPv s)
    (lastNpvResult s) (alternativeApartments s) (suggestedDownAmount s).
Definition set_downYear v (s : ConversationState) :=
  mkConversationState (step s) (apartmentId s) (downAmount s) (monthlyRate s)
    (nInstallments s) (startYear s) (startMonth s) v (downMonth s)
    (isAnnualRateSelected s) (desiredInstallment s) (calculatedPv s)
    (lastNpvResult s) (alternativeApartments s) (suggestedDownAmount s).
Definition set_downMonth v (s : ConversationState) :=
  mkConversationState (step s) (apartmentId s) (downAmount s) (monthlyRate s)
    (nInstallments s) (startYear s) (startMonth s) (downYear s) v
    (isAnnualRateSelected s) (desiredInstallment s) (calculatedPv s)
    (lastNpvResult s) (alternativeApartments s) (suggestedDownAmount s).
Definition set_isAnnualRateSelected v (s : ConversationState) :=
  mkConversationState (step s) (apartmentId s) (downAmount s) (monthlyRate s)
    (nInstallments s) (startYear s) (startMonth s) (downYear s) (downMonth s)
    v (desiredInstallment s) (calculatedPv s)
    (lastNpvResult s) (alternativeApartments s) (suggestedDownAmount s).
Definition set_desiredInstallment v (s : ConversationState) :=
  mkConversationState (step s) (apartmentId s) (downAmount s) (monthlyRate s)
    (nInstallments s) (startYear s) (startMonth s) (downYear s) (downMonth s)
    (isAnnualRateSelected s) v (calculatedPv s)
    (lastNpvResult s) (alternativeApartments s) (suggestedDownAmount s).
Definition set_calculatedPv v (s : ConversationState) :=
  mkConversationState (step s) (apartmentId s) (downAmount s) (monthlyRate s)
    (nInstallments s) (startYear s) (startMonth s) (downYear s) (downMonth s)
    (isAnnualRateSelected s) (desiredInstallment s) v
    (lastNpvResult s) (alternativeApartments s) (suggestedDownAmount s).
Definition set_lastNpvResult v (s : ConversationState) :=
  mkConversationState (step s) (apartmentId s) (downAmount s) (monthlyRate s)
    (nInstallments s) (startYear s) (startMonth s) (downYear s) (downMonth s)
    (isAnnualRateSelected s) (desiredInstallment s) (calculatedPv s)
    v (alternativeApartments s) (suggestedDownAmount s).
Definition set_alternativeApartments v (s : ConversationState) :=
  mkConversationState (step s) (apartmentId s) (downAmount s) (monthlyRate s)
    (nInstallments s) (startYear s) (startMonth s) (downYear s) (downMonth s)
    (isAnnualRateSelected s) (desiredInstallment s) (calculatedPv s)
    (lastNpvResult s) v (suggestedDownAmount s).
Definition set_suggestedDownAmount v (s : ConversationState) :=
  mkConversationState (step s) (apartmentId s) (downAmount s) (monthlyRate s)
    (nInstallments s) (startYear s) (startMonth s) (downYear s) (downMonth s)
    (isAnnualRateSelected s) (desiredInstallment s) (calculatedPv s)
    (lastNpvResult s) (alternativeApartments s) v.

(** The reading of the clock, [getCurrentDate()]. *)
Record CurrentDate : Type := mkCurrentDate { year : Z; month : Z }.

(** The text of a reply, by the template it is built from. *)
Inductive Reply : Type :=
| MsgWelcome
| MsgHelp (currentStep : ConversationStep)
| MsgApartmentChosen (evId : string)
| MsgApartmentNotFound (evId : string)
| MsgChooseApartmentFirst
| MsgChooseApartment
| MsgRateApartmentAlreadyChosen
| MsgAskAnnualRate
| MsgAskMonthlyRate
| MsgAnnualRateRecorded (rate monthlyRate : Q)
| MsgMonthlyRateRecorded (ratePercent : Q)
| MsgAskRateKind
| MsgAskRateValue (annual : bool)
| MsgRateNeededFirst
| MsgDownApartmentAlreadyChosen
| MsgDownTooSmall
| MsgDownExceedsPrice (price amount : Q)
| MsgDownRecorded (amount : Q) (defaultYear : Z)
| MsgDownNotUnderstood
| MsgYearRecorded (year : Z)
| MsgYearDefaulted (defaultYear : Z)
| MsgYearNotUnderstood (defaultYear : Z)
| MsgDownDateInPast
| MsgMonthRecorded (month : Z)
| MsgMonthNotUnderstood
| MsgNegativeInstallment
| MsgNegativeInterest
| MsgCalculationDone (monthlyInstallment : Q)
| MsgCalculationError
| MsgInstallmentsNotUnderstood
| MsgAskLowerInstallment (currentInstallment : option Q)
| MsgDownAccepted (acceptedDownAmount monthlyInstallment : Q)
| MsgCalculationRetry
| MsgTermFeasible (requestedInstallments : Z) (calculatedInstallment : Q)
| MsgTermNotFeasible (requestedInstallments : Z) (calculatedInstallment : Q)
| MsgDownSuggested (suggestedDownAmount suggestedInstallment : Q)
| MsgDownSearchFailed (maxDownAmount : Q)
| MsgGenericError
| MsgNegativeInstallmentLower
| MsgNegativeInterestLower
| MsgAlternatives (amount : Q) (listed : list (Apartment * option Q))
| MsgNoAlternativesExtended (amount : Q) (extendedInstallments : Z)
    (extendedInstallment : Q) (isExtendedFeasible : bool)
| MsgNoAlternativesAdvice (amount : Q)
| MsgNoAlternatives (amount : Q)
| MsgInvalidInstallmentAmount
| MsgAlternativeChosen (evId : string) (calculatedInstallment : Q)
| MsgChooseFromList
| MsgNewApartmentChosen (evId : string)
| MsgAnythingElse
| MsgNotUnderstood.

(** What [generateBotResponse] returns. *)
Record BotResponse : Type := mkBotResponse {
  message : Reply;
  npvResult : option NpvCalculator.NPVResult;
  newState : option ConversationState
}.

(** *** Values and comparisons *)

Definition Qltb (a b : Q) : bool := if Qlt_le_dec a b then true else false.
Definition Qleb (a b : Q) : bool := Qle_bool a b.

(** A number or a string used as a condition. *)
Definition truthyQ (o : option Q) : bool :=
  match o with Some q => negb (Qeq_bool q 0) | None => false end.
Definition truthyZ (o : option Z) : bool :=
  match o with Some z => negb (z =? 0) | None => false end.
Definition truthyString (o : option string) : bool :=
  match o with Some s => negb (s =? "")%string | None => false end.

(** [value || fallback] *)
Definition orQ (o : option Q) (fallback : Q) : Q :=
  match o with Some q => if Qeq_bool q 0 then fallback else q | None => fallback end.
Definition orZ (o : option Z) (fallback : Z) : Z :=
  match o with Some z => if z =? 0 then fallback else z | None => fallback end.

(** [rate > 1 ? rate / 100 : rate] *)
Definition rateDecimal (rate : Q) : Q :=
  if Qltb 1 rate then (rate / 100)%Q else rate.

(** [(state.monthlyRate || 2) > 1 ? (state.monthlyRate || 2) / 100
     : (state.monthlyRate || 0.02)] *)
Definition stateRateDecimal (state : ConversationState) : Q :=
  if Qltb 1 (orQ (monthlyRate state) 2)
  then (orQ (monthlyRate state) 2 / 100)%Q
  else orQ (monthlyRate state) 0.02%Q.

(** [apartments.find(apt => apt.ev_id === id)] *)
Definition findApartment (apartments : list Apartment) (id : option string)
    : option Apartment :=
  match id with
  | Some evId => find (fun apt => (ev_id apt =? evId)%string) apartments
  | None => None
  end.

Definition anyIncluded (s : string) (keywords : list string) : bool :=
  existsb (includes s) keywords.

(** *** The alternative matcher *)

Record Candidate : Type := mkCandidate {
  apartment : Apartment;
  calculatedInstallment : Q;
  deliveryMonths : Z;
  pv : Q
}.

(** The comparison function handed to [sort]. *)
Definition compareCandidates (desiredInstallment : Q) (a b : Candidate) : Q :=
  let diffA := Qabs (calculatedInstallment a - desiredInstallment) in
  let diffB := Qabs (calculatedInstallment b - desiredInstallment) in
  if Qltb (Qabs (diffA - diffB)) 1000
  then inject_Z (deliveryMonths b - deliveryMonths a)
  else (diffA - diffB)%Q.

Section Platform.

(** [Math.pow(x, 1/12)], which has no rational value, and
    [Array.prototype.sort], whose order under a comparison function that is
    not a total order is left to the platform. *)
Variable twelfthRoot : Q -> Q.
Variable sort : (Candidate -> Candidate -> Q) -> list Candidate -> list Candidate.

(** [annualToMonthlyRate] of npv-calculator. *)
Definition annualToMonthlyRate (annualRate : Q) : Q :=
  (twelfthRoot (1 + annualRate) - 1)%Q.

Definition candidateFor (downAmount : Q) (nInstallments : Z) (monthlyRate : Q)
    (downYear downMonth startYear startMonth : Z) (apt : Apartment)
    : option Candidate :=
  let monthlyRateDecimal := rateDecimal monthlyRate in
  match NpvCalculator.calculateNPV
          (NpvCalculator.mkNPVInputs (Some (bugunku_pesin_fiyat apt)) None
             monthlyRateDecimal downAmount downYear downMonth nInstallments
             startYear startMonth) with
  | NpvCalculator.Returned npvResult =>
      Some (mkCandidate apt
              (NpvCalculator.monthlyInstallment (NpvCalculator.modelA npvResult))
              (parseDeliveryTime (teslim_suresi apt))
              (bugunku_pesin_fiyat apt))
  | NpvCalculator.Thrown _ => None
  end.

Fixpoint dropNull {A : Type} (items : list (option A)) : list A :=
  match items with
  | Some item :: rest => item :: dropNull rest
  | None :: rest => dropNull rest
  | [] => []
  end.

Definition findAlternativeApartments (apartments : list Apartment)
    (desiredInstallment downAmount : Q) (nInstallments : Z) (monthlyRate : Q)
    (downYear downMonth startYear startMonth : Z) (currentApartmentId : string)
    (installmentTolerance : Q) : list Apartment :=
  match find (fun apt => (ev_id apt =? currentApartmentId)%string) apartments with
  | None => []
  | Some currentApartment =>
      let filtered :=
        filter (fun apt => negb (ev_id apt =? currentApartmentId)%string) apartments in
      let candidates :=
        dropNull (map (candidateFor downAmount nInstallments monthlyRate
                         downYear downMonth startYear startMonth) filtered) in
      let minInstallment := (desiredInstallment - installmentTolerance)%Q in
      let maxInstallment := (desiredInstallment + installmentTolerance)%Q in
      let matching :=
        filter (fun item =>
                  Qleb minInstallment (calculatedInstallment item)
                  && Qleb (calculatedInstallment item) maxInstallment
                  && Qltb 0 (calculatedInstallment item))
               candidates in
      let sorted := sort (compareCandidates desiredInstallment) matching in
      map apartment (firstn 5 sorted)
  end.

(** *** The turn function *)

(** Where control is after a block of [generateBotResponse]: the function
    has returned, or control goes on to the next statement with the current
    [newState], or the block has read, through [x!], a field that the
    context lacks (JavaScript goes on with [undefined], which no number of
    this model stands for), or an exception leaves the function. *)
Inductive Flow : Type :=
| Return (response : BotResponse)
| Continue (newState : ConversationState)
| Undefined
| Throw (msg : string).

Definition andThen (flow : Flow) (next : ConversationState -> Flow) : Flow :=
  match flow with
  | Continue newState => next newState
  | _ => flow
  end.

Definition need {A : Type} (field : option A) (use : A -> Flow) : Flow :=
  match field with
  | Some value => use value
  | None => Undefined
  end.

Definition reply (message : Reply) : Flow :=
  Return (mkBotResponse message None None).
Definition replyWithState (message : Reply) (newState : ConversationState) : Flow :=
  Return (mkBotResponse message None (Some newState)).
Definition replyWithResult (message : Reply) (npvResult : NpvCalculator.NPVResult)
    (newState : ConversationState) : Flow :=
  Return (mkBotResponse message (Some npvResult) (Some newState)).

Definition stepIs (state : ConversationState) (wanted : ConversationStep) : bool :=
  match step state with
  | Some current => ConversationStep_eqb current wanted
  | None => false
  end.

Definition betterInstallment (npvResult : NpvCalculator.NPVResult) : Q :=
  if Qltb (NpvCalculator.nominalTotal (NpvCalculator.modelA npvResult))
          (NpvCalculator.nominalTotal (NpvCalculator.modelB npvResult))
  then NpvCalculator.monthlyInstallment (NpvCalculator.modelA npvResult)
  else NpvCalculator.monthlyInstallment (NpvCalculator.modelB npvResult).

(** [calculateNPV({ targetPv: ..., ... })] with the start date of the
    context, or of the clock where the context has none. *)
Definition solveForPrice (currentDate : CurrentDate) (state : ConversationState)
    (price monthlyRateDecimal downAmount : Q) (downYear downMonth nInstallments : Z)
    : NpvCalculator.Outcome NpvCalculator.NPVResult :=
  NpvCalculator.calculateNPV
    (NpvCalculator.mkNPVInputs (Some price) None monthlyRateDecimal downAmount
       downYear downMonth nInstallments
       (orZ (startYear state) (year currentDate))
       (orZ (startMonth state) (month currentDate))).

(** The words of a greeting or restart, and of a call for help. *)
Definition greets (lowerMessage : string) : bool :=
  includes lowerMessage "merhaba" || includes lowerMessage "selam"
  || includes lowerMessage "başla" || includes lowerMessage "yeni".

Definition asksHelp (lowerMessage : string) : bool :=
  includes lowerMessage "yardım" || includes lowerMessage "nasıl"
  || includes lowerMessage "help".

(** The greeting, also the answer to a context without a step. *)
Definition greetingBlock (currentDate : CurrentDate) (lowerMessage : string)
    (state newState : ConversationState) : Flow :=
  if match step state with None => true | Some _ => false end
     || greets lowerMessage
  then
    let newState := set_step (Some waiting_for_apartment) newState in
    let newState := set_startYear (Some (year currentDate)) newState in
    let newState := set_startMonth (Some (month currentDate)) newState in
    replyWithState MsgWelcome newState
  else Continue newState.

Definition helpBlock (lowerMessage : string) (state newState : ConversationState)
    : Flow :=
  if asksHelp lowerMessage
  then
    let currentStep :=
      match step state with Some s => s | None => waiting_for_apartment end in
    reply (MsgHelp currentStep)
  else Continue newState.

(** Step 1: the property. *)
Definition apartmentBlock (userMessage : string) (state : ConversationState)
    (apartments : list Apartment) (newState : ConversationState) : Flow :=
  if stepIs state waiting_for_apartment then
    match parseApartmentId userMessage with
    | Some evId =>
        match findApartment apartments (Some evId) with
        | Some apartment =>
            let newState := set_apartmentId (Some evId) newState in
            let newState := set_step (Some waiting_for_interest_rate) newState in
            replyWithState (MsgApartmentChosen evId) newState
        | None => reply (MsgApartmentNotFound evId)
        end
    | None =>
        let amount := parseAmount userMessage in
        let year := parseYear userMessage in
        let month := parseMonth userMessage in
        let installments := parseInstallments userMessage in
        let rateInfo := parseInterestRate userMessage in
        if truthyQ amount || truthyZ year
           || match month with Some _ => true | None => false end
           || truthyZ installments
           || match rateInfo with Some _ => true | None => false end
        then reply MsgChooseApartmentFirst
        else reply MsgChooseApartment
    end
  else Continue newState.

(** The test that guards the reading of a bare number as a rate. *)
Definition notAnEvId (userMessage : string) : bool :=
  negb (includes userMessage "-") || negb (evIdPattern userMessage).

(** The number read as a rate where no unit is parsed with it: the first
    run of digits, dots and commas, if it lies strictly between 0 and 1000. *)
Definition enteredRate (userMessage : string) : option Q :=
  match matchNumber userMessage with
  | Some matchedNumber =>
      if notAnEvId userMessage then
        let rate := parseFloat (replaceFirstComma matchedNumber) in
        if Qltb 0 rate && Qltb rate 1000 then Some rate else None
      else None
  | None => None
  end.

(** The answers to the question whether the rate is annual or monthly. *)
Definition saysAnnual (lowerMessage : string) : bool :=
  includes lowerMessage "yıllık" || includes lowerMessage "yillik"
  || includes lowerMessage "annual"
  || (lowerMessage =? "e")%string || (lowerMessage =? "evet")%string
  || (lowerMessage =? "y")%string || (lowerMessage =? "yes")%string.

Definition saysMonthly (lowerMessage : string) : bool :=
  includes lowerMessage "aylık" || includes lowerMessage "aylik"
  || includes lowerMessage "monthly"
  || (lowerMessage =? "h")%string || (lowerMessage =? "hayır")%string
  || (lowerMessage =? "n")%string || (lowerMessage =? "no")%string
  || (lowerMessage =? "")%string.

(** Step 2: the rate. *)
Definition interestRateBlock (userMessage lowerMessage : string)
    (state newState : ConversationState) : Flow :=
  if stepIs state waiting_for_interest_rate then
    match parseApartmentId userMessage with
    | Some evId => reply MsgRateApartmentAlreadyChosen
    | None =>
        match isAnnualRateSelected state with
        | None =>
            if saysAnnual lowerMessage then
              let newState := set_isAnnualRateSelected (Some true) newState in
              replyWithState MsgAskAnnualRate newState
            else if saysMonthly lowerMessage then
              let newState := set_isAnnualRateSelected (Some false) newState in
              replyWithState MsgAskMonthlyRate newState
            else
              match parseInterestRate userMessage with
              | Some rateInfo =>
                  if isAnnual rateInfo then
                    let monthlyRate :=
                      (annualToMonthlyRate (rate rateInfo / 100) * 100)%Q in
                    let newState := set_monthlyRate (Some monthlyRate) newState in
                    let newState := set_isAnnualRateSelected (Some true) newState in
                    let newState := set_step (Some waiting_for_down_payment) newState in
                    replyWithState (MsgAnnualRateRecorded (rate rateInfo) monthlyRate)
                      newState
                  else
                    let newState := set_monthlyRate (Some (rate rateInfo)) newState in
                    let newState := set_isAnnualRateSelected (Some false) newState in
                    let newState := set_step (Some waiting_for_down_payment) newState in
                    let ratePercent := (rate rateInfo * 100)%Q in
                    replyWithState (MsgMonthlyRateRecorded ratePercent) newState
              | None =>
                  match enteredRate userMessage with
                  | Some rate =>
                      let newState := set_monthlyRate (Some rate) newState in
                      let newState := set_isAnnualRateSelected (Some false) newState in
                      let newState := set_step (Some waiting_for_down_payment) newState in
                      replyWithState (MsgMonthlyRateRecorded rate) newState
                  | None => reply MsgAskRateKind
                  end
              end
        | Some annualSelected =>
            match enteredRate userMessage with
            | Some rate =>
                if annualSelected then
                  let monthlyRate := (annualToMonthlyRate (rate / 100) * 100)%Q in
                  let newState := set_monthlyRate (Some monthlyRate) newState in
                  let newState := set_step (Some waiting_for_down_payment) newState in
                  replyWithState (MsgAnnualRateRecorded rate monthlyRate) newState
                else
                  let newState := set_monthlyRate (Some rate) newState in
                  let newState := set_step (Some waiting_for_down_payment) newState in
                  replyWithState (MsgMonthlyRateRecorded rate) newState
            | None => reply (MsgAskRateValue annualSelected)
            end
        end
    end
  else Continue newState.

(** Step 3: the down payment. *)
Definition downPaymentBlock (currentDate : CurrentDate) (userMessage : string)
    (state : ConversationState) (apartments : list Apartment)
    (newState : ConversationState) : Flow :=
  if stepIs state waiting_for_down_payment then
    if negb (truthyQ (monthlyRate state)) then
      let newState := set_step (Some waiting_for_interest_rate) newState in
      replyWithState MsgRateNeededFirst newState
    else
      match parseApartmentId userMessage with
      | Some evId => reply MsgDownApartmentAlreadyChosen
      | None =>
          match parseAmount userMessage with
          | Some amount =>
              if Qltb amount 1000 then reply MsgDownTooSmall
              else
                let apartment := findApartment apartments (apartmentId state) in
                let overPrice :=
                  match apartment with
                  | Some apartment =>
                      if Qltb (bugunku_pesin_fiyat apartment) amount
                      then Some (bugunku_pesin_fiyat apartment) else None
                  | None => None
                  end in
                match overPrice with
                | Some price => reply (MsgDownExceedsPrice price amount)
                | None =>
                    let newState := set_downAmount (Some amount) newState in
                    let newState :=
                      set_step (Some waiting_for_down_payment_year) newState in
                    let defaultYear := orZ (startYear newState) (year currentDate) in
                    replyWithState (MsgDownRecorded amount defaultYear) newState
                end
          | None => reply MsgDownNotUnderstood
          end
      end
  else Continue newState.

(** Step 4: the year of the down payment. *)
Definition downYearBlock (currentDate : CurrentDate) (userMessage : string)
    (state newState : ConversationState) : Flow :=
  if stepIs state waiting_for_down_payment_year then
    let defaultYear := orZ (startYear newState) (year currentDate) in
    match parseYear userMessage with
    | Some year =>
        let newState := set_downYear (Some year) newState in
        let newState := set_step (Some waiting_for_down_payment_month) newState in
        replyWithState (MsgYearRecorded year) newState
    | None =>
        if (trim userMessage =? "")%string then
          let newState := set_downYear (Some defaultYear) newState in
          let newState := set_step (Some waiting_for_down_payment_month) newState in
          replyWithState (MsgYearDefaulted defaultYear) newState
        else reply (MsgYearNotUnderstood defaultYear)
    end
  else Continue newState.

(** Step 5: the month of the down payment. *)
Definition downMonthBlock (currentDate : CurrentDate) (userMessage : string)
    (state newState : ConversationState) : Flow :=
  if stepIs state waiting_for_down_payment_month then
    match parseMonth userMessage with
    | Some month' =>
        let today := NpvCalculator.newDate (year currentDate) (month currentDate - 1) in
        let downDate :=
          NpvCalculator.newDate (orZ (downYear newState) (year currentDate))
            (month' - 1) in
        if downDate <? today then reply MsgDownDateInPast
        else
          let newState := set_downMonth (Some month') newState in
          let newState := set_step (Some waiting_for_installments) newState in
          replyWithState (MsgMonthRecorded month') newState
    | None => reply MsgMonthNotUnderstood
    end
  else Continue newState.

(** The computation that closes the collection of the parameters: the
    body of the [try], with [catch] as its last case. *)
Definition reportPlan (currentDate : CurrentDate) (apartment : Apartment)
    (monthlyRate downAmount : Q) (downYear downMonth nInstallments : Z)
    (markCompleted : bool) (newState : ConversationState) : Flow :=
  let monthlyRateDecimal := rateDecimal monthlyRate in
  match solveForPrice currentDate newState (bugunku_pesin_fiyat apartment)
          monthlyRateDecimal downAmount downYear downMonth nInstallments with
  | NpvCalculator.Returned npvResult =>
      let modelAInterest :=
        (NpvCalculator.nominalTotal (NpvCalculator.modelA npvResult)
         - bugunku_pesin_fiyat apartment)%Q in
      let modelBInterest :=
        (NpvCalculator.nominalTotal (NpvCalculator.modelB npvResult)
         - bugunku_pesin_fiyat apartment)%Q in
      if Qltb (NpvCalculator.monthlyInstallment (NpvCalculator.modelA npvResult)) 0
         || Qltb (NpvCalculator.monthlyInstallment (NpvCalculator.modelB npvResult)) 0
      then reply MsgNegativeInstallment
      else if Qltb modelAInterest 0 || Qltb modelBInterest 0
      then reply MsgNegativeInterest
      else
        let newState := set_lastNpvResult (Some npvResult) newState in
        let newState :=
          if markCompleted then set_step (Some completed) newState else newState in
        replyWithResult (MsgCalculationDone (betterInstallment npvResult))
          npvResult newState
  | NpvCalculator.Thrown _ => reply MsgCalculationError
  end.

(** [apartment && newState.monthlyRate && newState.downAmount
     && newState.downYear && newState.downMonth] *)
Definition planParameters (apartments : list Apartment) (newState : ConversationState)
    : option (Apartment * Q * Q * Z * Z) :=
  match findApartment apartments (apartmentId newState),
        monthlyRate newState, downAmount newState,
        downYear newState, downMonth newState with
  | Some apartment, Some rate, Some down, Some downYear, Some downMonth =>
      if truthyQ (Some rate) && truthyQ (Some down)
         && truthyZ (Some downYear) && truthyZ (Some downMonth)
      then Some (apartment, rate, down, downYear, downMonth)
      else None
  | _, _, _, _, _ => None
  end.

(** Step 6: the number of installments. *)
Definition installmentsBlock (currentDate : CurrentDate) (userMessage : string)
    (state : ConversationState) (apartments : list Apartment)
    (newState : ConversationState) : Flow :=
  if stepIs state waiting_for_installments then
    match parseInstallments userMessage with
    | Some installments =>
        let newState := set_nInstallments (Some installments) newState in
        let newState := set_step (Some completed) newState in
        match planParameters apartments newState with
        | Some (apartment, rate, down, downYear, downMonth) =>
            reportPlan currentDate apartment rate down downYear downMonth
              installments false newState
        | None => Continue newState
        end
    | None =>
        if (trim userMessage =? "")%string then
          let newState := set_nInstallments (Some 24) newState in
          let newState := set_step (Some completed) newState in
          match planParameters apartments newState with
          | Some (apartment, rate, down, downYear, downMonth) =>
              reportPlan currentDate apartment rate down downYear downMonth
                24 false newState
          | None => Continue newState
          end
        else reply MsgInstallmentsNotUnderstood
    end
  else Continue newState.

(** The request for a lower installment, in the completed step. *)
Definition lowerRequestBlock (lowerMessage : string)
    (state newState : ConversationState) : Flow :=
  match stepIs state completed, lastNpvResult state with
  | true, Some lastNpvResult =>
      if anyIncluded lowerMessage
           ["daha düşük taksit"; "düşük taksit"; "taksit fazla"; "taksit çok";
            "daha az taksit"; "düşük ödeme"; "azaltmak"]
      then
        let newState := set_step (Some waiting_for_lower_installment) newState in
        replyWithState (MsgAskLowerInstallment (Some (betterInstallment lastNpvResult)))
          newState
      else Continue newState
  | _, _ => Continue newState
  end.

(** [calculatedInstallment >= desired - 5000 && calculatedInstallment <= desired + 5000] *)
Definition withinFiveThousand (calculatedInstallment desiredInstallment : Q) : bool :=
  Qleb (desiredInstallment - 5000) calculatedInstallment
  && Qleb calculatedInstallment (desiredInstallment + 5000).

(** The acceptance of a suggested down payment (the same statements in the
    two negotiation steps). *)
Definition acceptSuggestionBlock (currentDate : CurrentDate) (lowerMessage : string)
    (state : ConversationState) (apartments : list Apartment)
    (newState : ConversationState) : Flow :=
  match suggestedDownAmount state with
  | Some suggested =>
      if truthyQ (Some suggested)
         && (includes lowerMessage "evet" || includes lowerMessage "kabul"
             || includes lowerMessage "tamam" || (lowerMessage =? "e")%string)
      then
        match findApartment apartments (apartmentId state) with
        | Some apartment =>
            if truthyQ (desiredInstallment state) then
              need (downYear state) (fun downYear =>
              need (downMonth state) (fun downMonth =>
                match solveForPrice currentDate state (bugunku_pesin_fiyat apartment)
                        (stateRateDecimal state) suggested downYear downMonth
                        (orZ (nInstallments state) 24) with
                | NpvCalculator.Returned npvResult =>
                    let acceptedDownAmount := suggested in
                    let newState := set_downAmount (Some acceptedDownAmount) newState in
                    let newState := set_step (Some completed) newState in
                    let newState := set_lastNpvResult (Some npvResult) newState in
                    let newState := set_suggestedDownAmount None newState in
                    replyWithResult
                      (MsgDownAccepted acceptedDownAmount
                         (NpvCalculator.monthlyInstallment
                            (NpvCalculator.modelA npvResult)))
                      npvResult newState
                | NpvCalculator.Thrown _ => reply MsgCalculationRetry
                end))
            else Continue newState
        | None => Continue newState
        end
      else Continue newState
  | None => Continue newState
  end.

(** The question about a longer term. *)
Definition longerTermBlock (currentDate : CurrentDate) (userMessage lowerMessage : string)
    (state : ConversationState) (apartments : list Apartment)
    (newState : ConversationState) : Flow :=
  match matchDigitsAy userMessage with
  | Some digits =>
      if includes lowerMessage "taksitle" || includes lowerMessage "taksit"
         || includes lowerMessage "olabilir" || includes lowerMessage "olur"
      then
        let requestedInstallments := parseInt digits in
        if orZ (nInstallments state) 24 <? requestedInstallments then
          match findApartment apartments (apartmentId state),
                desiredInstallment state with
          | Some apartment, Some desired =>
              if truthyQ (Some desired) then
                need (downAmount state) (fun downAmount =>
                need (downYear state) (fun downYear =>
                need (downMonth state) (fun downMonth =>
                  match solveForPrice currentDate state (bugunku_pesin_fiyat apartment)
                          (stateRateDecimal state) downAmount downYear downMonth
                          requestedInstallments with
                  | NpvCalculator.Returned npvResult =>
                      let calculatedInstallment :=
                        NpvCalculator.monthlyInstallment
                          (NpvCalculator.modelA npvResult) in
                      if withinFiveThousand calculatedInstallment desired then
                        let newState :=
                          set_nInstallments (Some requestedInstallments) newState in
                        let newState := set_step (Some completed) newState in
                        let newState := set_lastNpvResult (Some npvResult) newState in
                        replyWithResult
                          (MsgTermFeasible requestedInstallments calculatedInstallment)
                          npvResult newState
                      else
                        reply (MsgTermNotFeasible requestedInstallments
                                 calculatedInstallment)
                  | NpvCalculator.Thrown _ => reply MsgCalculationRetry
                  end)))
              else Continue newState
          | _, _ => Continue newState
          end
        else Continue newState
      else Continue newState
  | None => Continue newState
  end.

(** The variables of the search for a higher down payment. *)
Record DownSearch : Type := mkDownSearch {
  searchDownAmount : Q;
  foundFeasible : bool;
  suggestedInstallment : Q
}.

(** [while (suggestedDownAmount <= maxDownAmount && !foundFeasible) body],
    run for at most [fuel] turns: [None] when the fuel runs out first, an
    exception of [calculateNPV] as [Thrown]. *)
Fixpoint downSearchLoop (fuel : nat)
    (solve : Q -> NpvCalculator.Outcome NpvCalculator.NPVResult)
    (desiredInstallment maxDownAmount step : Q) (vars : DownSearch)
    : option (NpvCalculator.Outcome DownSearch) :=
  if Qleb (searchDownAmount vars) maxDownAmount && negb (foundFeasible vars) then
    match fuel with
    | O => None
    | S fuel' =>
        match solve (searchDownAmount vars) with
        | NpvCalculator.Returned npvResult =>
            let suggestedInstallment :=
              NpvCalculator.monthlyInstallment (NpvCalculator.modelA npvResult) in
            let foundFeasible :=
              withinFiveThousand suggestedInstallment desiredInstallment in
            downSearchLoop fuel' solve desiredInstallment maxDownAmount step
              (mkDownSearch
                 (if foundFeasible then searchDownAmount vars
                  else (searchDownAmount vars + step)%Q)
                 foundFeasible suggestedInstallment)
        | NpvCalculator.Thrown msg => Some (NpvCalculator.Thrown msg)
        end
    end
  else Some (NpvCalculator.Returned vars).

(** Turns enough to walk from the current down payment to the ceiling. *)
Definition downSearchFuel (currentDownAmount maxDownAmount step : Q) : nat :=
  S (Z.to_nat (Qfloor ((maxDownAmount - currentDownAmount) / step))).

(** The question about a higher down payment. *)
Definition higherDownBlock (currentDate : CurrentDate) (lowerMessage : string)
    (state : ConversationState) (apartments : list Apartment)
    (newState : ConversationState) : Flow :=
  if includes lowerMessage "peşinat"
     && (includes lowerMessage "yükselt" || includes lowerMessage "artır"
         || includes lowerMessage "ne kadar")
  then
    match findApartment apartments (apartmentId state), desiredInstallment state with
    | Some apartment, Some desired =>
        if truthyQ (Some desired) then
          let monthlyRateDecimal := stateRateDecimal state in
          let currentDownAmount := orQ (downAmount state) 0 in
          let maxDownAmount := (bugunku_pesin_fiyat apartment * 0.5)%Q in
          let step := 50000%Q in
          let start := mkDownSearch (currentDownAmount + step) false 0 in
          let search (downYear downMonth : Z) :=
            downSearchLoop (downSearchFuel currentDownAmount maxDownAmount step)
              (fun suggestedDownAmount =>
                 solveForPrice currentDate state (bugunku_pesin_fiyat apartment)
                   monthlyRateDecimal suggestedDownAmount downYear downMonth
                   (orZ (nInstallments state) 24))
              desired maxDownAmount step start in
          let conclude (outcome : option (NpvCalculator.Outcome DownSearch)) :=
            match outcome with
            | Some (NpvCalculator.Returned vars) =>
                if foundFeasible vars then
                  replyWithState
                    (MsgDownSuggested (searchDownAmount vars) (suggestedInstallment vars))
                    (set_suggestedDownAmount (Some (searchDownAmount vars)) newState)
                else reply (MsgDownSearchFailed maxDownAmount)
            | Some (NpvCalculator.Thrown _) => reply MsgCalculationRetry
            | None => Undefined (* out of fuel: never, the fuel is enough *)
            end in
          if Qleb (searchDownAmount start) maxDownAmount then
            need (downYear state) (fun downYear =>
            need (downMonth state) (fun downMonth =>
              conclude (search downYear downMonth)))
          else conclude (Some (NpvCalculator.Returned start))
        else Continue newState
    | _, _ => Continue newState
    end
  else Continue newState.

(** The installment of one listed alternative, for the text of the list. *)
Definition listedInstallment (currentDate : CurrentDate) (state : ConversationState)
    (monthlyRateDecimal downAmount : Q) (downYear downMonth nInstallments : Z)
    (alt : Apartment) : Apartment * option Q :=
  match solveForPrice currentDate state (bugunku_pesin_fiyat alt)
          monthlyRateDecimal downAmount downYear downMonth nInstallments with
  | NpvCalculator.Returned altNpvResult =>
      (alt, Some (NpvCalculator.monthlyInstallment (NpvCalculator.modelA altNpvResult)))
  | NpvCalculator.Thrown _ => (alt, None)
  end.

(** The desired installment, in the step that waits for it. *)
Definition desiredInstallmentBlock (currentDate : CurrentDate) (userMessage : string)
    (state : ConversationState) (apartments : list Apartment)
    (newState : ConversationState) : Flow :=
  match parseAmount userMessage with
  | Some amount =>
      if Qltb 0 amount then
        let newState := set_desiredInstallment (Some amount) newState in
        let newState := set_step (Some showing_alternatives) newState in
        match findApartment apartments (apartmentId state) with
        | None => reply MsgGenericError
        | Some apartment =>
            let monthlyRateDecimal := stateRateDecimal state in
            let newNominalTotal :=
              (orQ (downAmount state) 0
               + amount * inject_Z (orZ (nInstallments state) 24))%Q in
            need (downAmount state) (fun downAmount =>
            need (downYear state) (fun downYear =>
            need (downMonth state) (fun downMonth =>
            need (nInstallments state) (fun nInstallments =>
              match NpvCalculator.calculateNPV
                      (NpvCalculator.mkNPVInputs None (Some newNominalTotal)
                         monthlyRateDecimal downAmount downYear downMonth nInstallments
                         (orZ (startYear state) (year currentDate))
                         (orZ (startMonth state) (month currentDate))) with
              | NpvCalculator.Thrown _ => reply MsgCalculationRetry
              | NpvCalculator.Returned newNpvResult =>
                  let modelA := NpvCalculator.modelA newNpvResult in
                  let modelB := NpvCalculator.modelB newNpvResult in
                  let modelAInterest :=
                    (NpvCalculator.nominalTotal modelA
                     - NpvCalculator.modelPresentValue modelA)%Q in
                  let modelBInterest :=
                    (NpvCalculator.nominalTotal modelB
                     - NpvCalculator.modelPresentValue modelB)%Q in
                  if Qltb (NpvCalculator.monthlyInstallment modelA) 0
                     || Qltb (NpvCalculator.monthlyInstallment modelB) 0
                  then reply MsgNegativeInstallmentLower
                  else if Qltb modelAInterest 0 || Qltb modelBInterest 0
                  then reply MsgNegativeInterestLower
                  else
                    let newState :=
                      set_calculatedPv (Some (NpvCalculator.modelPresentValue modelA))
                        newState in
                    need (apartmentId state) (fun currentApartmentId =>
                      let alternatives :=
                        findAlternativeApartments apartments amount downAmount
                          nInstallments (monthlyRateDecimal * 100)%Q downYear downMonth
                          (orZ (startYear state) (year currentDate))
                          (orZ (startMonth state) (month currentDate))
                          currentApartmentId 5000 in
                      match alternatives with
                      | _ :: _ =>
                          let newState :=
                            set_alternativeApartments (Some alternatives) newState in
                          replyWithState
                            (MsgAlternatives amount
                               (map (listedInstallment currentDate state
                                       monthlyRateDecimal downAmount downYear downMonth
                                       nInstallments)
                                    alternatives))
                            newState
                      | [] =>
                          match findApartment apartments (apartmentId state) with
                          | Some currentApartment =>
                              let extendedInstallments :=
                                orZ (Some nInstallments) 24 + 12 in
                              match solveForPrice currentDate state
                                      (bugunku_pesin_fiyat currentApartment)
                                      monthlyRateDecimal downAmount downYear downMonth
                                      extendedInstallments with
                              | NpvCalculator.Returned extendedNpvResult =>
                                  let extendedInstallment :=
                                    NpvCalculator.monthlyInstallment
                                      (NpvCalculator.modelA extendedNpvResult) in
                                  replyWithState
                                    (MsgNoAlternativesExtended amount extendedInstallments
                                       extendedInstallment
                                       (withinFiveThousand extendedInstallment amount))
                                    newState
                              | NpvCalculator.Thrown _ =>
                                  replyWithState (MsgNoAlternativesAdvice amount) newState
                              end
                          | None => replyWithState (MsgNoAlternatives amount) newState
                          end
                      end)
              end))))
        end
      else Continue newState
  | None => Continue newState
  end.

(** The step that waits for the desired installment. *)
Definition lowerInstallmentBlock (currentDate : CurrentDate)
    (userMessage lowerMessage : string) (state : ConversationState)
    (apartments : list Apartment) (newState : ConversationState) : Flow :=
  if stepIs state waiting_for_lower_installment then
    andThen (acceptSuggestionBlock currentDate lowerMessage state apartments newState)
      (fun newState =>
    andThen (longerTermBlock currentDate userMessage lowerMessage state apartments newState)
      (fun newState =>
    andThen (higherDownBlock currentDate lowerMessage state apartments newState)
      (fun newState =>
    andThen (desiredInstallmentBlock currentDate userMessage state apartments newState)
      (fun _ => reply MsgInvalidInstallmentAmount))))
  else Continue newState.

(** The choice among the listed alternatives: by position in the list,
    else by identifier in the catalog. *)
Definition selectApartment (userMessage : string) (state : ConversationState)
    (apartments : list Apartment) : option Apartment :=
  let byNumber :=
    match matchListNumber userMessage, alternativeApartments state with
    | Some digits, Some listed =>
        let index := parseInt digits - 1 in
        if (0 <=? index) && (index <? Z.of_nat (List.length listed))
        then nth_error listed (Z.to_nat index) else None
    | _, _ => None
    end in
  match byNumber with
  | Some selected => Some selected
  | None =>
      match parseApartmentId userMessage with
      | Some evId => findApartment apartments (Some evId)
      | None => None
      end
  end.

Definition chooseAlternativeBlock (currentDate : CurrentDate) (userMessage : string)
    (state : ConversationState) (apartments : list Apartment)
    (newState : ConversationState) : Flow :=
  match selectApartment userMessage state apartments with
  | Some selectedApartment =>
      let newState := set_apartmentId (Some (ev_id selectedApartment)) newState in
      let newState := set_step (Some completed) newState in
      let newState := set_alternativeApartments None newState in
      let monthlyRateDecimal := stateRateDecimal state in
      need (downAmount state) (fun downAmount =>
      need (downYear state) (fun downYear =>
      need (downMonth state) (fun downMonth =>
      need (nInstallments state) (fun nInstallments =>
        match solveForPrice currentDate state (bugunku_pesin_fiyat selectedApartment)
                monthlyRateDecimal downAmount downYear downMonth nInstallments with
        | NpvCalculator.Returned finalNpvResult =>
            let modelA := NpvCalculator.modelA finalNpvResult in
            let modelB := NpvCalculator.modelB finalNpvResult in
            let modelAInterest :=
              (NpvCalculator.nominalTotal modelA
               - NpvCalculator.modelPresentValue modelA)%Q in
            let modelBInterest :=
              (NpvCalculator.nominalTotal modelB
               - NpvCalculator.modelPresentValue modelB)%Q in
            if Qltb (NpvCalculator.monthlyInstallment modelA) 0
               || Qltb (NpvCalculator.monthlyInstallment modelB) 0
            then reply MsgNegativeInstallmentLower
            else if Qltb modelAInterest 0 || Qltb modelBInterest 0
            then reply MsgNegativeInterestLower
            else
              let newState := set_lastNpvResult (Some finalNpvResult) newState in
              replyWithResult
                (MsgAlternativeChosen (ev_id selectedApartment)
                   (NpvCalculator.monthlyInstallment modelA))
                finalNpvResult newState
        | NpvCalculator.Thrown msg => Throw msg
        end))))
  | None => reply MsgChooseFromList
  end.

(** The step that shows the alternatives. *)
Definition alternativesBlock (currentDate : CurrentDate)
    (userMessage lowerMessage : string) (state : ConversationState)
    (apartments : list Apartment) (newState : ConversationState) : Flow :=
  if stepIs state showing_alternatives then
    andThen (acceptSuggestionBlock currentDate lowerMessage state apartments newState)
      (fun newState =>
    andThen (longerTermBlock currentDate userMessage lowerMessage state apartments newState)
      (fun newState =>
    andThen (higherDownBlock currentDate lowerMessage state apartments newState)
      (fun newState =>
    chooseAlternativeBlock currentDate userMessage state apartments newState)))
  else Continue newState.

(** The completed step: a new property, a lower installment, or a hint. *)
Definition completedBlock (userMessage : string) (state : ConversationState)
    (apartments : list Apartment) (newState : ConversationState) : Flow :=
  if stepIs state completed then
    let restart :=
      match parseApartmentId userMessage with
      | Some evId =>
          match findApartment apartments (Some evId) with
          | Some apartment => Some evId
          | None => None
          end
      | None => None
      end in
    match restart with
    | Some evId =>
        let newState := set_apartmentId (Some evId) newState in
        let newState := set_step (Some waiting_for_interest_rate) newState in
        let newState := set_downAmount None newState in
        let newState := set_downYear None newState in
        let newState := set_downMonth None newState in
        let newState := set_nInstallments None newState in
        let newState := set_monthlyRate None newState in
        let newState := set_isAnnualRateSelected None newState in
        let newState := set_desiredInstallment None newState in
        let newState := set_calculatedPv None newState in
        let newState := set_lastNpvResult None newState in
        let newState := set_alternativeApartments None newState in
        replyWithState (MsgNewApartmentChosen evId) newState
    | None =>
        if includes (toLowerCase userMessage) "daha düşük"
           || includes (toLowerCase userMessage) "düşük taksit"
        then
          let newState := set_step (Some waiting_for_lower_installment) newState in
          replyWithState (MsgAskLowerInstallment None) newState
        else reply MsgAnythingElse
    end
  else Continue newState.

(** The last statements: a context that holds every parameter and is not
    completed is solved here. *)
Definition lastBlock (currentDate : CurrentDate) (apartments : list Apartment)
    (newState : ConversationState) : Flow :=
  if negb (stepIs newState completed)
     && truthyString (apartmentId newState) && truthyQ (downAmount newState)
     && truthyZ (downYear newState) && truthyZ (downMonth newState)
     && truthyZ (nInstallments newState) && truthyQ (monthlyRate newState)
  then
    if negb (truthyQ (monthlyRate newState)) then
      let newState := set_step (Some waiting_for_interest_rate) newState in
      replyWithState MsgAskRateKind newState
    else
      match planParameters apartments newState, nInstallments newState with
      | Some (apartment, rate, down, downYear, downMonth), Some nInstallments =>
          reportPlan currentDate apartment rate down downYear downMonth
            nInstallments true newState
      | _, _ => Continue newState
      end
  else Continue newState.

(** [generateBotResponse], with the reading of the clock as an argument.
    [None] stands for the turns this model does not follow: a negotiation
    step that reads an absent field through [x!], or an exception that
    leaves the function. *)
Definition generateBotResponse (currentDate : CurrentDate) (userMessage : string)
    (state : ConversationState) (apartments : list Apartment)
    : option BotResponse :=
  let lowerMessage := trim (toLowerCase userMessage) in
  let newState := state in
  let flow :=
    andThen (greetingBlock currentDate lowerMessage state newState) (fun newState =>
    andThen (helpBlock lowerMessage state newState) (fun newState =>
    andThen (apartmentBlock userMessage state apartments newState) (fun newState =>
    andThen (interestRateBlock userMessage lowerMessage state newState) (fun newState =>
    andThen (downPaymentBlock currentDate userMessage state apartments newState)
      (fun newState =>
    andThen (downYearBlock currentDate userMessage state newState) (fun newState =>
    andThen (downMonthBlock currentDate userMessage state newState) (fun newState =>
    andThen (installmentsBlock currentDate userMessage state apartments newState)
      (fun newState =>
    andThen (lowerRequestBlock lowerMessage state newState) (fun newState =>
    andThen (lowerInstallmentBlock currentDate userMessage lowerMessage state
               apartments newState) (fun newState =>
    andThen (alternativesBlock currentDate userMessage lowerMessage state
               apartments newState) (fun newState =>
    andThen (completedBlock userMessage state apartments newState) (fun newState =>
    andThen (lastBlock currentDate apartments newState) (fun newState =>
    reply MsgNotUnderstood))))))))))))) in
  match flow with
  | Return response => Some response
  | Continue _ | Undefined | Throw _ => None
  end.

(** The context the caller keeps after a turn: the one returned, or the
    one it had when none is returned. *)
Definition nextState (state : ConversationState) (response : BotResponse)
    : ConversationState :=
  match newState response with
  | Some updated => updated
  | None => state
  end.

End Platform.

End Chatbot.

(** ** The catalog filter (lib/csv-loader.ts)

    [loadApartmentsFromCSV] fetches and parses a file and is not modelled. *)

Module CsvLoader.

Import JsString Chatbot.
Local Open Scope string_scope.

(** The argument [filters]; an absent field is [None]. *)
Record Filters : Type := mkFilters {
  searchText : option string;
  minPrice : option Q;
  maxPrice : option Q;
  odaSayisi : option (list string)
}.

(** [rooms.includes(value)] on an array of strings. *)
Definition arrayIncludes (rooms : list string) (value : string) : bool :=
  existsb (fun room => (room =? value)%string) rooms.

Definition filterApartments (apartments : list Apartment) (filters : Filters)
    : list Apartment :=
  let filtered := apartments in
  let filtered :=
    match searchText filters with
    | Some text =>
        if truthyString (Some text) then
          let search := toLowerCase text in
          filter (fun apt =>
                    includes (toLowerCase (ev_id apt)) search
                    || includes (toLowerCase (mahalle apt)) search
                    || includes (toLowerCase (ilce apt)) search
                    || includes (toLowerCase (sehir apt)) search)
                 filtered
        else filtered
    | None => filtered
    end in
  let filtered :=
    match minPrice filters with
    | Some lowest => filter (fun apt => Qleb lowest (bugunku_pesin_fiyat apt)) filtered
    | None => filtered
    end in
  let filtered :=
    match maxPrice filters with
    | Some highest => filter (fun apt => Qleb (bugunku_pesin_fiyat apt) highest) filtered
    | None => filtered
    end in
  let filtered :=
    match odaSayisi filters with
    | Some rooms =>
        if (0 <? List.length rooms)%nat
        then filter (fun apt => arrayIncludes rooms (oda_sayisi apt)) filtered
        else filtered
    | None => filtered
    end in
  filtered.

End CsvLoader.

(** ** The result card (components/NPVResultCard.tsx)

    The values the card computes from its two properties; the markup that
    shows them is not modelled. *)

Module NPVResultCard.

Import NpvCalculator.

Inductive Model : Type := A | B.

Definition modelAInterest (result : NPVResult) (apartmentPrice : Q) : Q :=
  nominalTotal (modelA result) - apartmentPrice.
Definition modelBInterest (result : NPVResult) (apartmentPrice : Q) : Q :=
  nominalTotal (modelB result) - apartmentPrice.

Definition betterModel (result : NPVResult) (apartmentPrice : Q) : Model :=
  if Chatbot.Qltb (modelAInterest result apartmentPrice)
                  (modelBInterest result apartmentPrice)
  then A else B.

(** The model the card marks as recommended. *)
Definition recommended (result : NPVResult) (apartmentPrice : Q) : ModelResult :=
  match betterModel result apartmentPrice with
  | A => modelA result
  | B => modelB result
  end.

(** [Math.abs(modelAInterest - modelBInterest)], the advantage shown. *)
Definition advantage (result : NPVResult) (apartmentPrice : Q) : Q :=
  Qabs (modelAInterest result apartmentPrice - modelBInterest result apartmentPrice).

(** [schedule.slice(0, 6)] of the recommended model. *)
Definition shownSchedule (result : NPVResult) (apartmentPrice : Q)
    : list ScheduleEntry :=
  firstn 6 (schedule (recommended result apartmentPrice)).

End NPVResultCard.

(** ** Vocabulary of the statements about the solver *)

Module NpvTerms.

Import NpvCalculator.
Local Open Scope Z_scope.

(** The installment that falls [j] months after the start. *)
Definition entryAt (start : Z) (T : Q) (j : Z) : ScheduleEntry :=
  mkScheduleEntry (dateStr (start + j)) T installment.

Fixpoint zseq (from : Z) (len : nat) : list Z :=
  match len with
  | O => []
  | S len' => from :: zseq (from + 1) len'
  end.

Definition keeps (skipIndex : option Z) (j : Z) : bool :=
  match skipIndex with Some s => negb (j =? s) | None => true end.

(** Offsets paid by the skip schedule: [rem] payments from offset [j] on,
    stepping over [t]. *)
Fixpoint skipOffsets (rem : nat) (j t : Z) : list Z :=
  match rem with
  | O => []
  | S rem' =>
      if j =? t then (j + 1) :: skipOffsets rem' (j + 2) t
      else j :: skipOffsets rem' (j + 1) t
  end.

Definition discountSum (r : Q) (js : list Z) : Q :=
  fold_right (fun j acc => (1 / (1 + r) ^ j + acc)%Q) 0%Q js.

Definition downOffset (inp : NPVInputs) : Z :=
  monthsBetween (startYear inp) (startMonth inp) (downYear inp) (downMonth inp).

Definition inWindow (inp : NPVInputs) : Prop :=
  (1 <= downOffset inp <= nInstallments inp + 1)%Z.

(** A plan whose down payment is due in the start month (offset 0):
    price 1,000,000, 2% a month, 300,000 down, 12 installments. *)
Definition downPaymentNow : NPVInputs :=
  mkNPVInputs (Some 1000000%Q) None (2 # 100)%Q 300000%Q 2025 1 12 2025 1.

(** A request with a target and no installments. *)
Definition noInstallments : NPVInputs :=
  mkNPVInputs (Some 100%Q) None (2 # 100)%Q 0%Q 2025 1 0 2025 1.

(** Down payment due two months after the start, four installments. *)
Definition downInTwoMonths : NPVInputs :=
  mkNPVInputs (Some 1000000%Q) None (2 # 100)%Q 300000%Q 2025 3 4 2025 1.

End NpvTerms.

(** ** Vocabulary of the statements about the engine *)

Module ChatbotTerms.

Import JsString Chatbot.
Local Open Scope string_scope.
Local Open Scope Z_scope.

(** Text made of white space only. *)
Inductive Blank : string -> Prop :=
| Blank_empty : Blank ""
| Blank_1 c s : isSpace1 c = true -> Blank s -> Blank (String c s)
| Blank_2 c1 c2 s :
    isSpace1 c1 = false -> isSpace2 c1 c2 = true -> Blank s ->
    Blank (String c1 (String c2 s))
| Blank_3 c1 c2 c3 s :
    isSpace1 c1 = false -> isSpace2 c1 c2 = false -> isSpace3 c1 c2 c3 = true ->
    Blank s -> Blank (String c1 (String c2 (String c3 s))).

(** What the engine works on: [userMessage.toLowerCase().trim()]. *)
Definition lowerOf (userMessage : string) : string := trim (toLowerCase userMessage).

(** The place of a step in the flow of the conversation. *)
Definition stepRank (s : option ConversationStep) : nat :=
  match s with
  | None | Some waiting_for_apartment => 0
  | Some waiting_for_interest_rate => 1
  | Some waiting_for_down_payment => 2
  | Some waiting_for_down_payment_year => 3
  | Some waiting_for_down_payment_month => 4
  | Some waiting_for_installments => 5
  | Some completed => 6
  | Some waiting_for_lower_installment => 7
  | Some showing_alternatives => 8
  end.

(** A platform to run the engine on: the twelfth root by bisection, and a
    stable insertion sort. *)
Fixpoint bisectRoot (rounds : nat) (x lo hi : Q) : Q :=
  match rounds with
  | O => lo
  | S rounds' =>
      let mid := Qred ((lo + hi) / 2) in
      if Qleb (mid ^ 12) x then bisectRoot rounds' x mid hi
      else bisectRoot rounds' x lo mid
  end.

Definition twelfthRoot (x : Q) : Q :=
  bisectRoot 60 x 0 (if Qleb x 1 then 1 else x)%Q.

Fixpoint insertBy (cmp : Candidate -> Candidate -> Q) (x : Candidate)
    (sorted : list Candidate) : list Candidate :=
  match sorted with
  | [] => [x]
  | y :: rest => if Qleb (cmp x y) 0 then x :: sorted else y :: insertBy cmp x rest
  end.

Definition insertionSort (cmp : Candidate -> Candidate -> Q) (items : list Candidate)
    : list Candidate :=
  fold_right (insertBy cmp) [] items.

Definition respond := generateBotResponse twelfthRoot insertionSort.

(** The caller's loop: each utterance is answered in the context the
    previous answer left.  The answers, latest first, and the last context. *)
Fixpoint converse (currentDate : CurrentDate) (apartments : list Apartment)
    (utterances : list string) (state : ConversationState)
    : list (option BotResponse) * ConversationState :=
  match utterances with
  | [] => ([], state)
  | userMessage :: rest =>
      match respond currentDate userMessage state apartments with
      | Some response =>
          let (answers, final) :=
            converse currentDate apartments rest (nextState state response) in
          ((answers ++ [Some response])%list, final)
      | None => ([None], state)
      end
  end.

(** A catalog of two properties, a clock and the context of a new session. *)
Definition flatA : Apartment :=
  mkApartment "GZP-H04-001" "Gazipark Konutları" "Gaziantep" "Şahinbey"
    "Yukarıbayındır" "H" 4 "1+1" 70 "9 Ay" "2026-08-12" 761670.
Definition flatB : Apartment :=
  mkApartment "GZP-H04-002" "Gazipark Konutları" "Gaziantep" "Şahinbey"
    "Yukarıbayındır" "H" 4 "2+1" 95 "12 Ay" "2026-11-12" 770000.
Definition catalog : list Apartment := [flatA; flatB].

Definition june2025 : CurrentDate := mkCurrentDate 2025 6.

Definition newSession : ConversationState :=
  mkConversationState None None None None None None None None None None
    None None None None None.

(** Contexts on the way through the collection steps, for [flatA]. *)
Definition atRate (selected : option bool) : ConversationState :=
  mkConversationState (Some waiting_for_interest_rate) (Some "GZP-H04-001")
    None None None (Some 2025) (Some 6) None None selected None None None None None.
Definition atDownPayment : ConversationState :=
  mkConversationState (Some waiting_for_down_payment) (Some "GZP-H04-001")
    None (Some 2%Q) None (Some 2025) (Some 6) None None (Some false)
    None None None None None.
Definition atDownYear : ConversationState :=
  mkConversationState (Some waiting_for_down_payment_year) (Some "GZP-H04-001")
    (Some 300000%Q) (Some 2%Q) None (Some 2025) (Some 6) None None (Some false)
    None None None None None.
Definition atDownMonth : ConversationState :=
  mkConversationState (Some waiting_for_down_payment_month) (Some "GZP-H04-001")
    (Some 300000%Q) (Some 2%Q) None (Some 2025) (Some 6) (Some 2025) None (Some false)
    None None None None None.
Definition atInstallments : ConversationState :=
  mkConversationState (Some waiting_for_installments) (Some "GZP-H04-001")
    (Some 300000%Q) (Some 2%Q) None (Some 2025) (Some 6) (Some 2025) (Some 7)
    (Some false) None None None None None.

(** The scripted conversation of the specification, for [flatA] and a down
    payment of 300,000; and its first six utterances followed by a month. *)
Definition script : list string :=
  ["hello"; "GZP-H04-001"; "monthly"; "2"; "300000"; ""; ""; "24"].
Definition scriptWithMonth : list string :=
  ["hello"; "GZP-H04-001"; "monthly"; "2"; "300000"; ""; "7"].

End ChatbotTerms.

(** ** Further vocabulary: the solver *)

Module NpvMoreTerms.

Import NpvCalculator.
Local Open Scope Z_scope.

(** The month an entry is dated in, counted like a [Date]. *)
Definition monthCount (entry : ScheduleEntry) : Z :=
  newDate (ymYear (date entry)) (ymMonth (date entry) - 1).

(** What a schedule pays in all, not discounted. *)
Definition paymentsTotal (entries : list ScheduleEntry) : Q :=
  fold_right (fun entry acc => (amount entry + acc)%Q) 0%Q entries.

(** Price 1,000,000 at 2% a month, 300,000 down three months after the
    start, six installments; and a total of 1,200,000 asked for the same
    plan. *)
Definition sixInstallments : NPVInputs :=
  mkNPVInputs (Some 1000000%Q) None (2 # 100)%Q 300000%Q 2025 4 6 2025 1.
Definition sixInstallmentsNominal : NPVInputs :=
  mkNPVInputs None (Some 1200000%Q) (2 # 100)%Q 300000%Q 2025 4 6 2025 1.

End NpvMoreTerms.

(** ** Further vocabulary: the engine *)

Module ChatbotMoreTerms.

Import JsString Chatbot.
Local Open Scope string_scope.
Local Open Scope Z_scope.

(** A property of the response a flow returns, if it returns one. *)
Definition returns (P : BotResponse -> Prop) (flow : Flow) : Prop :=
  match flow with
  | Return response => P response
  | Continue _ | Undefined | Throw _ => True
  end.

(** A result handed to the caller is kept in the context handed back, and
    that context is in the completed step; and a context handed back in the
    completed step comes with the result it keeps. *)
Definition remembered (response : BotResponse) : Prop :=
  match npvResult response, newState response with
  | Some result, Some updated =>
      lastNpvResult updated = Some result /\ step updated = Some completed
  | Some _, None => False
  | None, Some updated => step updated <> Some completed
  | None, None => True
  end.

(** A flow that goes on does so with the context it was given. *)
Definition continuesWith (given : ConversationState) (flow : Flow) : Prop :=
  match flow with
  | Continue newState => newState = given
  | Return _ | Undefined | Throw _ => True
  end.

Section Handlers.

Variable twelfthRoot : Q -> Q.
Variable sort : (Candidate -> Candidate -> Q) -> list Candidate -> list Candidate.

(** The handlers of a turn in the order of the source, each one given the
    context of the caller; the statements that close the function are left
    out. *)
Definition turnBlocks (currentDate : CurrentDate) (userMessage : string)
    (state : ConversationState) (apartments : list Apartment) : list Flow :=
  let lowerMessage := trim (toLowerCase userMessage) in
  [greetingBlock currentDate lowerMessage state state;
   helpBlock lowerMessage state state;
   apartmentBlock userMessage state apartments state;
   interestRateBlock twelfthRoot userMessage lowerMessage state state;
   downPaymentBlock currentDate userMessage state apartments state;
   downYearBlock currentDate userMessage state state;
   downMonthBlock currentDate userMessage state state;
   installmentsBlock currentDate userMessage state apartments state;
   lowerRequestBlock lowerMessage state state;
   lowerInstallmentBlock sort currentDate userMessage lowerMessage state apartments state;
   alternativesBlock currentDate userMessage lowerMessage state apartments state;
   completedBlock userMessage state apartments state;
   reply MsgNotUnderstood].

End Handlers.

(** The response of the first handler that does not go on; none if a
    handler stops without a response first. *)
Fixpoint firstReturn (flows : list Flow) : option BotResponse :=
  match flows with
  | Return response :: _ => Some response
  | Continue _ :: rest => firstReturn rest
  | Undefined :: _ | Throw _ :: _ | [] => None
  end.

(** The moves between the steps of a conversation. *)
Definition mayFollow (current next : ConversationStep) : bool :=
  match current, next with
  | _, waiting_for_apartment
  | waiting_for_apartment, waiting_for_interest_rate
  | waiting_for_interest_rate, waiting_for_interest_rate
  | waiting_for_interest_rate, waiting_for_down_payment
  | waiting_for_down_payment, waiting_for_interest_rate
  | waiting_for_down_payment, waiting_for_down_payment_year
  | waiting_for_down_payment_year, waiting_for_down_payment_month
  | waiting_for_down_payment_month, waiting_for_installments
  | waiting_for_installments, completed
  | completed, waiting_for_interest_rate
  | completed, waiting_for_lower_installment
  | waiting_for_lower_installment, waiting_for_lower_installment
  | waiting_for_lower_installment, showing_alternatives
  | waiting_for_lower_installment, completed
  | showing_alternatives, showing_alternatives
  | showing_alternatives, completed => true
  | _, _ => false
  end.

(** The context handed back, if any, is in a step that may follow. *)
Definition follows (current : ConversationStep) (response : BotResponse) : Prop :=
  match newState response with
  | Some updated =>
      match step updated with
      | Some next => mayFollow current next = true
      | None => False
      end
  | None => True
  end.

(** The context after the choice of a new property in the completed step:
    the property, the rate step, the start date and the suggested down
    payment of the context before, and nothing else. *)
Definition restartedWith (evId : string) (state : ConversationState)
    : ConversationState :=
  mkConversationState (Some waiting_for_interest_rate) (Some evId) None None None
    (startYear state) (startMonth state) None None None None None None None
    (suggestedDownAmount state).

(** A flat of the catalog at 761,670 whose plan is done, for a comparison. *)
Definition planDone : ConversationState :=
  mkConversationState (Some completed) (Some "GZP-H04-001") (Some 300000%Q) (Some 2%Q)
    (Some 2) (Some 2025) (Some 6) (Some 2025) (Some 7) (Some false) None None None None
    (Some 350000%Q).

(** A context speaks of the catalog: the property it holds and the
    alternatives it lists are properties of the catalog. *)
Definition inCatalog (apartments : list Apartment) (state : ConversationState) : Prop :=
  (forall evId, apartmentId state = Some evId ->
     exists apartment, In apartment apartments /\ ev_id apartment = evId) /\
  (forall listed, alternativeApartments state = Some listed ->
     forall apartment, In apartment listed -> In apartment apartments).

(** A context at the last collection step that holds no down payment. *)
Definition withoutDownPayment : ConversationState :=
  mkConversationState (Some waiting_for_installments) (Some "GZP-H04-001")
    None (Some 2%Q) None (Some 2025) (Some 6) (Some 2025) (Some 7)
    (Some false) None None None None None.

(** A negotiation under way: 100,000 down on a flat of 761,670 in two
    installments, an installment of about 291,000 wished for. *)
Definition negotiating : ConversationState :=
  mkConversationState (Some waiting_for_lower_installment) (Some "GZP-H04-001")
    (Some 100000%Q) (Some 2%Q) (Some 2) (Some 2025) (Some 6) (Some 2025) (Some 7)
    (Some false) (Some 291000%Q) None None None None.

(** A run of zeros. *)
Fixpoint zeros (n : nat) : string :=
  match n with
  | O => EmptyString
  | S n' => String "0" (zeros n')
  end.

(** Every character of a text passes a test. *)
Fixpoint allChars (p : ascii -> bool) (s : string) : bool :=
  match s with
  | String c s' => p c && allChars p s'
  | EmptyString => true
  end.

(** What [toUpperCase] makes of one character. *)
Definition upperChar (c : ascii) : ascii :=
  if isLower c then byte (code c - 32) else c.

End ChatbotMoreTerms.

(** ** Further vocabulary: the catalog filter *)

Module CsvLoaderTerms.

Import JsString Chatbot CsvLoader.
Local Open Scope string_scope.

(** The text searched for, when one is given and is not empty. *)
Definition activeSearch (filters : Filters) : option string :=
  match searchText filters with
  | Some text => if truthyString (Some text) then Some (toLowerCase text) else None
  | None => None
  end.

(** The rooms asked for, when some are. *)
Definition activeRooms (filters : Filters) : option (list string) :=
  match odaSayisi filters with
  | Some (room :: rooms) => Some (room :: rooms)
  | Some [] | None => None
  end.

(** A property passes every criterion that is given. *)
Definition passes (filters : Filters) (apt : Apartment) : Prop :=
  (forall search, activeSearch filters = Some search ->
     includes (toLowerCase (ev_id apt)) search = true
     \/ includes (toLowerCase (mahalle apt)) search = true
     \/ includes (toLowerCase (ilce apt)) search = true
     \/ includes (toLowerCase (sehir apt)) search = true) /\
  (forall lowest, minPrice filters = Some lowest -> (lowest <= bugunku_pesin_fiyat apt)%Q) /\
  (forall highest, maxPrice filters = Some highest ->
     (bugunku_pesin_fiyat apt <= highest)%Q) /\
  (forall rooms, activeRooms filters = Some rooms -> In (oda_sayisi apt) rooms).

(** The criteria given, as one test. *)
Definition accepts (filters : Filters) (apt : Apartment) : bool :=
  match activeSearch filters with
  | Some search =>
      includes (toLowerCase (ev_id apt)) search
      || includes (toLowerCase (mahalle apt)) search
      || includes (toLowerCase (ilce apt)) search
      || includes (toLowerCase (sehir apt)) search
  | None => true
  end
  && match minPrice filters with
     | Some lowest => Qleb lowest (bugunku_pesin_fiyat apt)
     | None => true
     end
  && match maxPrice filters with
     | Some highest => Qleb (bugunku_pesin_fiyat apt) highest
     | None => true
     end
  && match activeRooms filters with
     | Some rooms => arrayIncludes rooms (oda_sayisi apt)
     | None => true
     end.

(** Flats of two or three rooms between 765,000 and 800,000 in Gaziantep. *)
Definition midPriced : Filters :=
  mkFilters (Some "GAZIANTEP") (Some 765000%Q) (Some 800000%Q) (Some ["2+1"; "3+1"]).

End CsvLoaderTerms.

(** ** Facts about the solver *)

Module NpvFacts.

Import NpvCalculator NpvTerms.
Local Open Scope Z_scope.

(** *** Calendar arithmetic *)

Lemma setMonth_getMonth (d j : Z) : setMonth d (getMonth d + j) = d + j.
Proof.
  unfold setMonth, newDate, getFullYear, getMonth.
  pose proof (Z.div_mod d 12 ltac:(lia)). lia.
Qed.

Lemma newDate_dateStr (d : Z) :
  newDate (ymYear (dateStr d)) (ymMonth (dateStr d) - 1) = d.
Proof.
  unfold dateStr, newDate, getFullYear, getMonth; cbn [ymYear ymMonth].
  pose proof (Z.div_mod d 12 ltac:(lia)). lia.
Qed.


Lemma entryMonths_entryAt (start : Z) (T : Q) (j : Z) :
  entryMonths start (entryAt start T j) = j.
Proof.
  unfold entryMonths, entryAt; cbn [date].
  rewrite newDate_dateStr. unfold getFullYear, getMonth.
  pose proof (Z.div_mod (start + j) 12 ltac:(lia)). pose proof (Z.div_mod start 12 ltac:(lia)). lia.
Qed.

(** *** The offsets the loops visit *)





Lemma zseq_length from len : List.length (zseq from len) = len.
Proof. revert from; induction len; simpl; intros; [reflexivity | now rewrite IHlen]. Qed.

Lemma in_zseq from len j : In j (zseq from len) <-> from <= j < from + Z.of_nat len.
Proof.
  revert from; induction len as [|len IH]; intros from; simpl.
  - lia.
  - rewrite IH. lia.
Qed.

Lemma skipOffsets_length rem j t : List.length (skipOffsets rem j t) = rem.
Proof.
  revert j; induction rem as [|rem IH]; intros j; simpl; [reflexivity|].
  destruct (j =? t); simpl; now rewrite IH.
Qed.

Lemma skipOffsets_avoid rem j t : ~ In t (skipOffsets rem j t).
Proof.
  revert j; induction rem as [|rem IH]; intros j; simpl; [tauto|].
  destruct (Z.eqb_spec j t) as [->|Hne]; simpl; intros [H|H];
    solve [lia | congruence | eapply IH; eauto].
Qed.

Lemma skipOffsets_past rem j t : t < j -> skipOffsets rem j t = zseq j rem.
Proof.
  revert j; induction rem as [|rem IH]; intros j Hlt; simpl; [reflexivity|].
  destruct (Z.eqb_spec j t); [lia|]. f_equal. apply IH; lia.
Qed.

Lemma skipOffsets_beyond rem j t :
  j + Z.of_nat rem <= t -> skipOffsets rem j t = zseq j rem.
Proof.
  revert j; induction rem as [|rem IH]; intros j Hle; simpl; [reflexivity|].
  destruct (Z.eqb_spec j t); [lia|]. f_equal. apply IH; lia.
Qed.

Lemma filter_keeps_past t j len :
  t < j -> filter (keeps (Some t)) (zseq j len) = zseq j len.
Proof.
  revert j; induction len as [|len IH]; intros j Hlt; simpl; [reflexivity|].
  destruct (Z.eqb_spec j t); [lia|]. simpl. f_equal. apply IH; lia.
Qed.

Lemma skipOffsets_window rem j t :
  j <= t <= j + Z.of_nat rem ->
  skipOffsets rem j t = filter (keeps (Some t)) (zseq j (S rem)).
Proof.
  revert j; induction rem as [|rem IH]; intros j Hw.
  - assert (j = t) by lia; subst. simpl. now rewrite Z.eqb_refl.
  - cbn [skipOffsets]. change (zseq j (S (S rem))) with (j :: zseq (j + 1) (S rem)).
    cbn [filter keeps].
    destruct (Z.eqb_spec j t) as [->|Hne]; cbn [negb].
    + rewrite skipOffsets_past, filter_keeps_past by lia.
      simpl. do 2 f_equal. lia.
    + f_equal. apply IH. lia.
Qed.

(** *** The loops, in closed form *)

Lemma concurrentLoop_spec iters j start T acc :
  concurrentLoop iters j start T acc = acc ++ map (entryAt start T) (zseq j iters).
Proof.
  revert j acc; induction iters as [|iters IH]; intros j acc; simpl.
  - now rewrite app_nil_r.
  - rewrite IH, <- app_assoc. simpl. now rewrite setMonth_getMonth.
Qed.

Lemma scheduleConcurrent_spec inp T :
  scheduleConcurrent inp T =
  map (entryAt (startDate inp) T) (zseq 1 (Z.to_nat (nInstallments inp))).
Proof. unfold scheduleConcurrent. now rewrite concurrentLoop_spec. Qed.

(** The [while] loop leaves through its condition, never through the fuel:
    [fuel] turns are enough as soon as they cover the payments left and
    the one turn that may be skipped. *)
Lemma skipLoop_spec fuel n t start T st :
  paid st <= n ->
  (Z.to_nat (n - paid st) + (if (k st <=? t)%Z then 1 else 0) <= fuel)%nat ->
  exists kEnd,
    skipLoop fuel n t start T st =
    Some (mkSkipState n kEnd
            (sched st ++ map (entryAt start T)
                           (skipOffsets (Z.to_nat (n - paid st)) (k st) t))).
Proof.
  revert st; induction fuel as [|fuel IH]; intros [p j s] Hle Hfuel;
    cbn [paid k sched] in *.
  - exists j. simpl. destruct (Z.ltb_spec p n) as [Hlt|Hge].
    + exfalso. destruct (j <=? t); lia.
    + assert (p = n) by lia; subst. replace (n - n) with 0 by lia.
      simpl. now rewrite app_nil_r.
  - cbn [skipLoop paid]. destruct (Z.ltb_spec p n) as [Hlt|Hge].
    + destruct (Z.to_nat (n - p)) as [|rem] eqn:Erem; [lia|].
      unfold skipBody; cbn [paid k sched skipOffsets].
      destruct (Z.eqb_spec j t) as [->|Hne].
      * destruct (IH (mkSkipState p (t + 1) s)) as [kEnd HkEnd]; cbn [paid k sched].
        { lia. }
        { rewrite Z.leb_refl in Hfuel. destruct (Z.leb_spec (t + 1) t); lia. }
        cbn [paid k sched] in HkEnd. exists kEnd. rewrite HkEnd, Erem. cbn [skipOffsets].
        destruct (Z.eqb_spec (t + 1) t); [lia|].
        replace (t + 1 + 1) with (t + 2) by lia. reflexivity.
      * destruct (IH (mkSkipState (p + 1) (j + 1)
                        (s ++ [mkScheduleEntry
                                 (dateStr (setMonth start (getMonth start + j)))
                                 T installment])))
          as [kEnd HkEnd]; cbn [paid k sched].
        { lia. }
        { replace (Z.to_nat (n - (p + 1))) with rem by lia.
          destruct (Z.leb_spec (j + 1) t), (Z.leb_spec j t); lia. }
        cbn [paid k sched] in HkEnd. exists kEnd. rewrite HkEnd.
        replace (Z.to_nat (n - (p + 1))) with rem by lia.
        rewrite <- app_assoc, setMonth_getMonth. reflexivity.
    + exists j. assert (p = n) by lia; subst. replace (n - n) with 0 by lia.
      simpl. now rewrite app_nil_r.
Qed.

Lemma scheduleSkip_loop inp T :
  exists paidEnd kEnd,
    skipLoop (skipFuel (nInstallments inp)) (nInstallments inp)
      (monthsBetween (startYear inp) (startMonth inp) (downYear inp) (downMonth inp))
      (startDate inp) T (mkSkipState 0 1 []) =
    Some (mkSkipState paidEnd kEnd
            (map (entryAt (startDate inp) T)
               (skipOffsets (Z.to_nat (nInstallments inp)) 1
                  (monthsBetween (startYear inp) (startMonth inp)
                     (downYear inp) (downMonth inp))))).
Proof.
  destruct (Z.le_gt_cases 0 (nInstallments inp)) as [Hn|Hn].
  - edestruct (skipLoop_spec (skipFuel (nInstallments inp)) (nInstallments inp))
      as [kEnd HkEnd]; [| | exists (nInstallments inp), kEnd; rewrite HkEnd];
      cbn [paid k sched]; try lia.
    + unfold skipFuel. rewrite Z.sub_0_r. destruct (1 <=? _); lia.
    + rewrite Z.sub_0_r. reflexivity.
  - exists 0, 1. unfold skipFuel.
    replace (Z.to_nat (nInstallments inp)) with O by lia.
    cbn [skipLoop paid]. destruct (Z.ltb_spec 0 (nInstallments inp)); [lia|].
    reflexivity.
Qed.

(** [scheduleSkip] always leaves its loop: the schedule it returns is the
    one the loop built. *)
Lemma skipLoop_terminates inp T :
  skipLoop (skipFuel (nInstallments inp)) (nInstallments inp)
    (monthsBetween (startYear inp) (startMonth inp) (downYear inp) (downMonth inp))
    (startDate inp) T (mkSkipState 0 1 []) <> None.
Proof. destruct (scheduleSkip_loop inp T) as (p & j & ->). discriminate. Qed.

Lemma scheduleSkip_spec inp T :
  scheduleSkip inp T =
  map (entryAt (startDate inp) T)
    (skipOffsets (Z.to_nat (nInstallments inp)) 1
       (monthsBetween (startYear inp) (startMonth inp) (downYear inp) (downMonth inp))).
Proof. unfold scheduleSkip. now destruct (scheduleSkip_loop inp T) as (p & j & ->). Qed.

(** *** Discount sums *)

Local Open Scope Q_scope.

Lemma discountSum_cons r j js :
  discountSum r (j :: js) = 1 / (1 + r) ^ j + discountSum r js.
Proof. reflexivity. Qed.

Lemma geometricSumLoop_spec iters j r skipIndex acc :
  geometricSumLoop iters j r skipIndex acc ==
  acc + discountSum r (filter (keeps skipIndex) (zseq j iters)).
Proof.
  revert j acc; induction iters as [|iters IH]; intros j acc; simpl.
  - ring.
  - rewrite IH. unfold keeps at 2.
    destruct skipIndex as [s|]; [destruct (j =? s)%Z|]; simpl; ring.
Qed.

Lemma geometricSumDiscount_spec n r startMonth skipIndex :
  geometricSumDiscount n r startMonth skipIndex ==
  discountSum r (filter (keeps skipIndex) (zseq startMonth (Z.to_nat n))).
Proof. unfold geometricSumDiscount. rewrite geometricSumLoop_spec. ring. Qed.

Lemma filter_keeps_None js : filter (keeps None) js = js.
Proof. induction js; simpl; congruence. Qed.

Lemma pvOfSchedule_fold start r T js acc :
  fold_left
    (fun pv entry => pv + presentValue (amount entry) (entryMonths start entry) r)
    (map (entryAt start T) js) acc ==
  acc + T * discountSum r js.
Proof.
  revert acc; induction js as [|j js IH]; intros acc; simpl.
  - ring.
  - rewrite IH, entryMonths_entryAt. unfold presentValue, entryAt; cbn [amount].
    unfold Qdiv. ring.
Qed.

Lemma pvOfSchedule_entries inp T js :
  pvOfSchedule (map (entryAt (startDate inp) T) js) inp ==
  T * discountSum (monthlyRate inp) js.
Proof. unfold pvOfSchedule. rewrite pvOfSchedule_fold. ring. Qed.

Lemma discount_factor_pos r j : -1 < r -> 0 < 1 / (1 + r) ^ j.
Proof.
  intros Hr. unfold Qdiv. rewrite Qmult_1_l.
  apply Qinv_lt_0_compat, Qpower_0_lt. lra.
Qed.

Lemma discountSum_nonneg r js : -1 < r -> 0 <= discountSum r js.
Proof.
  intros Hr; induction js as [|j js IH]; simpl; [lra|].
  pose proof (discount_factor_pos r j Hr). lra.
Qed.

Lemma discountSum_pos r js : -1 < r -> js <> [] -> 0 < discountSum r js.
Proof.
  intros Hr Hne. destruct js as [|j js]; [congruence|]. simpl.
  pose proof (discount_factor_pos r j Hr).
  pose proof (discountSum_nonneg r js Hr). lra.
Qed.

Lemma zseq_snoc from len : zseq from (S len) = zseq from len ++ [(from + Z.of_nat len)%Z].
Proof.
  revert from; induction len as [|len IH]; intros from.
  - simpl. now rewrite Z.add_0_r.
  - change (zseq from (S (S len))) with (from :: zseq (from + 1) (S len)).
    rewrite IH. simpl. do 3 f_equal. lia.
Qed.

Lemma discountSum_app r js ks :
  discountSum r (js ++ ks) == discountSum r js + discountSum r ks.
Proof. induction js as [|j js IH]; simpl; [ring | rewrite IH; ring]. Qed.

(** Offsets [j >= 1] lose value as the rate grows. *)
Lemma discount_factor_decreasing r1 r2 j :
  (1 <= j)%Z -> -1 < r1 -> r1 < r2 -> 1 / (1 + r2) ^ j < 1 / (1 + r1) ^ j.
Proof.
  intros Hj H1 H12. unfold Qdiv. rewrite !Qmult_1_l.
  assert (Hpow : forall p : positive, (1 + r1) ^ Zpos p < (1 + r2) ^ Zpos p).
  { induction p as [|p IH] using Pos.peano_ind.
    - change ((1 + r1) ^ 1 < (1 + r2) ^ 1). rewrite !Qpower_1_r. lra.
    - rewrite Pos2Z.inj_succ. unfold Z.succ.
      rewrite !Qpower_plus by lra. rewrite !Qpower_1_r.
      apply Qmult_lt_compat_nonneg; split; try lra.
      apply Qpower_0_le. lra. }
  destruct j as [|p|p]; try lia.
  apply -> Qinv_lt_contravar; [apply Hpow | | ]; apply Qpower_0_lt; lra.
Qed.

Lemma discountSum_decreasing r1 r2 js :
  -1 < r1 -> r1 < r2 -> js <> [] -> (forall j, In j js -> (1 <= j)%Z) ->
  discountSum r2 js < discountSum r1 js.
Proof.
  intros H1 H12 Hne Hjs. destruct js as [|j js]; [congruence|]. clear Hne.
  revert j Hjs; induction js as [|j' js IH]; intros j Hjs.
  - simpl. pose proof (discount_factor_decreasing r1 r2 j (Hjs j (or_introl eq_refl)) H1 H12).
    lra.
  - rewrite (discountSum_cons r2 j), (discountSum_cons r1 j).
    pose proof (discount_factor_decreasing r1 r2 j (Hjs j (or_introl eq_refl)) H1 H12).
    assert (discountSum r2 (j' :: js) < discountSum r1 (j' :: js)).
    { apply IH. intros x Hx. apply Hjs. now right. }
    lra.
Qed.

Lemma discountSum_zero_rate js : discountSum 0 js == inject_Z (Z.of_nat (List.length js)).
Proof.
  induction js as [|j js IH].
  - reflexivity.
  - rewrite discountSum_cons, IH. cbn [List.length].
    rewrite Nat2Z.inj_succ. unfold Z.succ. rewrite inject_Z_plus.
    setoid_replace (1 + 0) with 1 by ring. rewrite Qpower_1.
    change (inject_Z 1) with 1. field.
Qed.

(** *** The solver in target-present-value mode *)



Lemma zseq_nonempty from len : (0 < len)%nat -> zseq from len <> [].
Proof. destruct len; simpl; [lia | discriminate]. Qed.

Lemma skipOffsets_nonempty rem j t : (0 < rem)%nat -> skipOffsets rem j t <> [].
Proof. destruct rem; simpl; [lia | destruct (j =? t)%Z; discriminate]. Qed.

(** Model A: the discounted schedule and the down payment add up to the
    target, for every offset of the down payment. *)
Theorem modelA_reproduces_target inp target res :
  targetPv inp = Some target ->
  (1 <= nInstallments inp)%Z -> -1 < monthlyRate inp ->
  calculateNPV inp = Returned res ->
  modelPresentValue (modelA res) == target.
Proof.
  intros Ht Hn Hr Hres. unfold calculateNPV in Hres. rewrite Ht in Hres.
  injection Hres as <-. cbn [modelA modelPresentValue].
  rewrite scheduleConcurrent_spec, pvOfSchedule_entries.
  rewrite geometricSumDiscount_spec, filter_keeps_None.
  assert (0 < discountSum (monthlyRate inp) (zseq 1 (Z.to_nat (nInstallments inp)))).
  { apply discountSum_pos; [assumption | apply zseq_nonempty; lia]. }
  field. lra.
Qed.

(** Model B, down payment due within offsets [1 .. n+1]: the same. *)
Theorem modelB_reproduces_target_in_window inp target res :
  targetPv inp = Some target ->
  (1 <= nInstallments inp)%Z -> -1 < monthlyRate inp ->
  inWindow inp ->
  calculateNPV inp = Returned res ->
  modelPresentValue (modelB res) == target.
Proof.
  intros Ht Hn Hr Hw Hres. unfold inWindow, downOffset in Hw.
  unfold calculateNPV in Hres. rewrite Ht in Hres.
  injection Hres as <-. cbn [modelB modelPresentValue].
  rewrite scheduleSkip_spec, pvOfSchedule_entries.
  destruct (Z.leb_spec 1 (monthsBetween (startYear inp) (startMonth inp)
                            (downYear inp) (downMonth inp))); [|lia].
  destruct (Z.leb_spec (monthsBetween (startYear inp) (startMonth inp)
                            (downYear inp) (downMonth inp))
                       (nInstallments inp + 1)); [|lia].
  cbn [andb]. rewrite geometricSumDiscount_spec.
  replace (Z.to_nat (nInstallments inp + 1)) with (S (Z.to_nat (nInstallments inp))) by lia.
  rewrite <- skipOffsets_window by lia.
  assert (0 < discountSum (monthlyRate inp)
                (skipOffsets (Z.to_nat (nInstallments inp)) 1
                   (monthsBetween (startYear inp) (startMonth inp)
                      (downYear inp) (downMonth inp)))).
  { apply discountSum_pos; [assumption | apply skipOffsets_nonempty; lia]. }
  field. lra.
Qed.

(** Model B, down payment due at an offset outside [1 .. n+1]: the
    installment is solved against [n+1] payments and [n] are scheduled, so
    the discounted schedule covers only the fraction [S(n) / S(n+1)] of what
    remains after the down payment. *)
Theorem modelB_outside_window inp target res :
  targetPv inp = Some target ->
  (1 <= nInstallments inp)%Z -> -1 < monthlyRate inp ->
  ~ inWindow inp ->
  calculateNPV inp = Returned res ->
  modelPresentValue (modelB res) ==
  downPaymentPV res +
  (target - downPaymentPV res)
  * (geometricSumDiscount (nInstallments inp) (monthlyRate inp) 1 None
     / geometricSumDiscount (nInstallments inp + 1) (monthlyRate inp) 1 None).
Proof.
  intros Ht Hn Hr Hw Hres. unfold inWindow, downOffset in Hw.
  unfold calculateNPV in Hres. rewrite Ht in Hres.
  injection Hres as <-. cbn [modelB modelPresentValue downPaymentPV].
  rewrite scheduleSkip_spec, pvOfSchedule_entries.
  set (t := monthsBetween _ _ _ _) in *.
  assert (Hskip : (1 <=? t)%Z && (t <=? nInstallments inp + 1)%Z = false).
  { destruct (Z.leb_spec 1 t), (Z.leb_spec t (nInstallments inp + 1)); simpl; lia || reflexivity. }
  rewrite Hskip.
  assert (Hoff : skipOffsets (Z.to_nat (nInstallments inp)) 1 t
                 = zseq 1 (Z.to_nat (nInstallments inp))).
  { destruct (Z.lt_ge_cases t 1); [apply skipOffsets_past; lia|].
    apply skipOffsets_beyond. lia. }
  rewrite Hoff, !geometricSumDiscount_spec, !filter_keeps_None.
  assert (0 < discountSum (monthlyRate inp) (zseq 1 (Z.to_nat (nInstallments inp + 1)))).
  { apply discountSum_pos; [assumption | apply zseq_nonempty; lia]. }
  field. lra.
Qed.


(** C1 (code_bug).  Target-present-value mode is meant to return, for both
    models, a schedule whose discounted value plus the down payment is the
    target.  At [downPaymentNow] the down payment is due at offset 0, outside
    [1 .. n+1]: Model A gives the target back, Model B's present value stays
    below 952,318, far outside a relative tolerance of 1e-6 around
    1,000,000. *)
Theorem modelB_misses_target_at_offset_zero :
  exists res,
    calculateNPV downPaymentNow = Returned res /\
    downOffset downPaymentNow = 0%Z /\
    modelPresentValue (modelA res) == 1000000 /\
    modelPresentValue (modelB res) < 952318 /\
    (1 # 1000000) * Qabs 1000000 < Qabs (modelPresentValue (modelB res) - 1000000).
Proof.
  destruct (calculateNPV downPaymentNow) as [res|msg] eqn:E; [|discriminate E].
  exists res. split; [reflexivity|]. split; [reflexivity|].
  pose proof (modelA_reproduces_target downPaymentNow 1000000 res eq_refl
                ltac:(cbn; lia) ltac:(reflexivity) E) as HA.
  split; [exact HA|].
  assert (HB : modelPresentValue (modelB res) < 952318).
  { revert E. unfold calculateNPV. cbn [targetPv downPaymentNow].
    intros E; injection E as <-. cbn [modelB modelPresentValue].
    vm_compute. reflexivity. }
  split; [exact HB|].
  assert (Hneg : Qabs (modelPresentValue (modelB res) - 1000000)
                 == - (modelPresentValue (modelB res) - 1000000))
    by (apply Qabs_neg; lra).
  rewrite Hneg. change (Qabs 1000000) with 1000000. lra.
Qed.

(** C2 (as amended).  [calculateNPV] throws exactly when neither target is
    supplied.  It signals no degenerate input: with a target supplied and a
    count of installments that is not positive it returns a result, and for
    such a count the Model A discount sum it divides by is zero. *)
Theorem calculateNPV_throws_only_without_target inp :
  ((exists msg, calculateNPV inp = Thrown msg) <->
   (targetPv inp = None /\ targetNominal inp = None)) /\
  ((nInstallments inp <= 0)%Z ->
   geometricSumDiscount (nInstallments inp) (monthlyRate inp) 1 None = 0 /\
   ((targetPv inp <> None \/ targetNominal inp <> None) ->
    exists res, calculateNPV inp = Returned res)).
Proof.
  split.
  - unfold calculateNPV.
    destruct (targetPv inp) as [tp|], (targetNominal inp) as [tn|];
      (split; [intros [msg H]; discriminate H || (split; reflexivity)
              | intros [H1 H2]; discriminate H1 || discriminate H2 || eauto]).
  - intros Hn. split.
    + unfold geometricSumDiscount.
      replace (Z.to_nat (nInstallments inp)) with O by lia. reflexivity.
    + unfold calculateNPV.
      destruct (targetPv inp) as [tp|], (targetNominal inp) as [tn|];
        intros [H|H]; solve [eauto | congruence].
Qed.


Lemma calculateNPV_throws_only_without_target_witness :
  (nInstallments noInstallments <= 0)%Z /\
  (exists res, calculateNPV noInstallments = Returned res) /\
  geometricSumDiscount (nInstallments noInstallments) (monthlyRate noInstallments) 1 None = 0.
Proof.
  assert (Hn : (nInstallments noInstallments <= 0)%Z) by (cbn; lia).
  destruct (calculateNPV_throws_only_without_target noInstallments) as (_ & Hcount).
  destruct (Hcount Hn) as (Hzero & Hret).
  split; [exact Hn|]. split.
  - apply Hret. left. discriminate.
  - exact Hzero.
Defined.

(** C2, as stated, fails: no degenerate-input condition is signalled for an
    installment count of zero; the call returns. *)
Lemma calculateNPV_returns_without_installments :
  (nInstallments noInstallments <= 0)%Z /\
  geometricSumDiscount (nInstallments noInstallments) (monthlyRate noInstallments) 1 None == 0 /\
  (forall msg, calculateNPV noInstallments <> Thrown msg) /\
  exists res, calculateNPV noInstallments = Returned res.
Proof.
  split; [cbn; lia|]. split; [reflexivity|]. split.
  - intros msg. discriminate.
  - eexists. reflexivity.
Qed.

Local Open Scope Z_scope.

Lemma entryAt_month_index start T j :
  12 * ymYear (date (entryAt start T j)) + ymMonth (date (entryAt start T j))
  = start + j + 1.
Proof.
  unfold entryAt, dateStr, getFullYear, getMonth; cbn [date ymYear ymMonth].
  pose proof (Z.div_mod (start + j) 12 ltac:(lia)). lia.
Qed.

(** C3.  The schedule of Model B has [nInstallments] entries and none of
    them falls in the calendar month of the down payment, wherever that
    month lies with respect to the start date: neither as the text
    [YYYY-MM] nor as a month count. *)
Theorem scheduleSkip_avoids_down_payment_month inp T :
  1 <= nInstallments inp ->
  List.length (scheduleSkip inp T) = Z.to_nat (nInstallments inp) /\
  (forall e, In e (scheduleSkip inp T) ->
     12 * ymYear (date e) + ymMonth (date e) <> 12 * downYear inp + downMonth inp /\
     date e <> mkYearMonth (downYear inp) (downMonth inp)) /\
  (forall res, calculateNPV inp = Returned res ->
     forall e, In e (schedule (modelB res)) -> date e <> downPaymentDate res).
Proof.
  intros Hn.
  assert (Hall : forall T' e, In e (scheduleSkip inp T') ->
     12 * ymYear (date e) + ymMonth (date e) <> 12 * downYear inp + downMonth inp /\
     date e <> mkYearMonth (downYear inp) (downMonth inp)).
  { intros T' e He. rewrite scheduleSkip_spec in He.
    apply in_map_iff in He as (j & <- & Hj).
    assert (Hjt : j <> monthsBetween (startYear inp) (startMonth inp)
                         (downYear inp) (downMonth inp)).
    { intros ->. exact (skipOffsets_avoid _ _ _ Hj). }
    assert (Hidx : 12 * ymYear (date (entryAt (startDate inp) T' j))
                   + ymMonth (date (entryAt (startDate inp) T' j))
                   <> 12 * downYear inp + downMonth inp).
    { rewrite entryAt_month_index.
      unfold startDate, newDate, monthsBetween in *. lia. }
    split; [exact Hidx|].
    intros Heq. apply Hidx. rewrite Heq. reflexivity. }
  split; [|split].
  - rewrite scheduleSkip_spec, length_map, skipOffsets_length. reflexivity.
  - apply Hall.
  - intros res Hres e He. unfold calculateNPV in Hres.
    destruct (targetPv inp) as [tp|]; [|destruct (targetNominal inp) as [tn|]];
      try discriminate Hres; injection Hres as <-;
      cbn [modelB schedule downPaymentDate] in *;
      exact (proj2 (Hall _ e He)).
Qed.


Lemma scheduleSkip_avoids_down_payment_month_witness :
  1 <= nInstallments downInTwoMonths /\
  map date (scheduleSkip downInTwoMonths 1000%Q) =
    [mkYearMonth 2025 2; mkYearMonth 2025 4; mkYearMonth 2025 5; mkYearMonth 2025 6] /\
  forall e, In e (scheduleSkip downInTwoMonths 1000%Q) -> date e <> mkYearMonth 2025 3.
Proof.
  split; [cbn; lia|]. split; [reflexivity|].
  intros e He.
  exact (proj2 (proj1 (proj2 (scheduleSkip_avoids_down_payment_month
                                downInTwoMonths 1000%Q ltac:(cbn; lia))) e He)).
Defined.

Local Open Scope Q_scope.

(** C9.  Without a skip and from offset 1, the discount sum of [n >= 1]
    terms strictly decreases as the rate grows above -1, and is [n] at rate
    0. *)
Theorem geometricSumDiscount_decreasing_in_rate n :
  (1 <= n)%Z ->
  (forall r1 r2, -1 < r1 -> r1 < r2 ->
     geometricSumDiscount n r2 1 None < geometricSumDiscount n r1 1 None) /\
  geometricSumDiscount n 0 1 None == inject_Z n.
Proof.
  intros Hn. split.
  - intros r1 r2 H1 H12. rewrite !geometricSumDiscount_spec, !filter_keeps_None.
    apply discountSum_decreasing; try assumption.
    + apply zseq_nonempty. lia.
    + intros j Hj. apply in_zseq in Hj. lia.
  - rewrite geometricSumDiscount_spec, filter_keeps_None, discountSum_zero_rate.
    rewrite zseq_length, Z2Nat.id by lia. reflexivity.
Qed.

Lemma geometricSumDiscount_decreasing_in_rate_witness :
  (1 <= 3)%Z /\
  geometricSumDiscount 3 (1 # 2) 1 None < geometricSumDiscount 3 0 1 None /\
  geometricSumDiscount 3 0 1 None == 3.
Proof.
  split; [lia|].
  destruct (geometricSumDiscount_decreasing_in_rate 3 ltac:(lia)) as [Hdec Hzero].
  split; [apply Hdec; reflexivity | exact Hzero].
Defined.

End NpvFacts.

(** ** Facts about the engine *)

Module ChatbotFacts.

Import JsString Chatbot ChatbotTerms.
Local Open Scope string_scope.
Local Open Scope Z_scope.

(** *** White space *)

Lemma dropSpaces_Blank s : dropSpaces s = "" -> Blank s.
Proof.
  remember (String.length s) as n eqn:Hn.
  revert s Hn; induction n as [n IH] using lt_wf_ind; intros s Hn Hs.
  destruct s as [|c1 s1]; [constructor|].
  cbn [dropSpaces] in Hs.
  destruct (isSpace1 c1) eqn:E1.
  { apply Blank_1; [assumption|]. eapply IH; [|reflexivity|assumption].
    subst; simpl; lia. }
  destruct s1 as [|c2 s2]; [discriminate|].
  destruct (isSpace2 c1 c2) eqn:E2.
  { apply Blank_2; try assumption. eapply IH; [|reflexivity|assumption].
    subst; simpl; lia. }
  destruct s2 as [|c3 s3]; [discriminate|].
  destruct (isSpace3 c1 c2 c3) eqn:E3; [|discriminate].
  apply Blank_3; try assumption. eapply IH; [|reflexivity|assumption].
  subst; simpl; lia.
Qed.

Lemma Blank_dropSpaces s : Blank s -> dropSpaces s = "".
Proof.
  induction 1 as [|c s Hc _ IH|c1 c2 s H1 H2 _ IH|c1 c2 c3 s H1 H2 H3 _ IH];
    cbn [dropSpaces]; rewrite ?Hc, ?H1, ?H2, ?H3; auto.
Qed.

Lemma dropSpaces_idempotent s : dropSpaces (dropSpaces s) = dropSpaces s.
Proof.
  remember (String.length s) as n eqn:Hn.
  revert s Hn; induction n as [n IH] using lt_wf_ind; intros s Hn.
  destruct s as [|c1 s1]; [reflexivity|].
  cbn [dropSpaces].
  destruct (isSpace1 c1) eqn:E1.
  { eapply IH; [|reflexivity]. subst; simpl; lia. }
  destruct s1 as [|c2 s2].
  { cbn [dropSpaces]. now rewrite E1. }
  destruct (isSpace2 c1 c2) eqn:E2.
  { eapply IH; [|reflexivity]. subst; simpl; lia. }
  destruct s2 as [|c3 s3].
  { cbn [dropSpaces]. now rewrite E1, E2. }
  destruct (isSpace3 c1 c2 c3) eqn:E3.
  { eapply IH; [|reflexivity]. subst; simpl; lia. }
  cbn [dropSpaces]. now rewrite E1, E2, E3.
Qed.

Lemma trimEnd_empty s : trimEnd s = "" -> dropSpaces s = "".
Proof.
  destruct s as [|c s']; [reflexivity|].
  cbn [trimEnd]. unfold allSpaces.
  destruct (dropSpaces (String c s')) eqn:E; [reflexivity | discriminate].
Qed.

(** An utterance that trims to nothing is white space, and conversely. *)
Lemma trim_empty_Blank s : trim s = "" <-> Blank s.
Proof.
  unfold trim, trimStart. split.
  - intros H. apply dropSpaces_Blank. rewrite <- dropSpaces_idempotent.
    now apply trimEnd_empty.
  - intros H. now rewrite (Blank_dropSpaces s H).
Qed.

(** Bytes of white space are neither digits nor letters with a case. *)
Ltac byte_facts :=
  unfold isSpace1, isSpace2, isSpace3, isUpper, isLower, isDigit, inRange in *;
  repeat match goal with
    | H : (_ || _)%bool = true |- _ => apply orb_true_iff in H; destruct H as [H|H]
    | H : (_ && _)%bool = true |- _ =>
        let H' := fresh H in apply andb_true_iff in H; destruct H as [H H']
    | H : (_ <=? _)%N = true |- _ => apply N.leb_le in H
    | H : (_ =? _)%N = true |- _ => apply N.eqb_eq in H
    end.

Ltac byte_decide :=
  repeat match goal with
    | |- context [(?a <=? ?b)%N] => destruct (N.leb_spec a b)
    | |- context [(?a =? ?b)%N] => destruct (N.eqb_spec a b)
    end; simpl; try reflexivity; try lia.

Lemma toLowerCase_plain c s :
  isUpper c = false ->
  (code c =? 195)%N = false -> (code c =? 196)%N = false ->
  (code c =? 197)%N = false -> (code c =? 226)%N = false ->
  toLowerCase (String c s) = String c (toLowerCase s).
Proof.
  intros Hu H195 H196 H197 H226.
  destruct s as [|c2 [|c3 s3]]; simpl; rewrite Hu, ?H195, ?H196, ?H197, ?H226;
    simpl; reflexivity.
Qed.

Lemma toLowerCase_lead226 c1 c2 s :
  (code c1 =? 226)%N = true -> (code c2 =? 132)%N = false ->
  toLowerCase (String c1 (String c2 s)) = String c1 (toLowerCase (String c2 s)).
Proof.
  intros H226 H132. apply N.eqb_eq in H226.
  assert (Hu : isUpper c1 = false) by (unfold isUpper, inRange; rewrite H226; reflexivity).
  destruct s as [|c3 s3]; simpl; rewrite Hu, H226, ?H132; simpl; reflexivity.
Qed.

Lemma Blank_toLowerCase s : Blank s -> toLowerCase s = s.
Proof.
  induction 1 as [|c s Hc _ IH|c1 c2 s H1 H2 _ IH|c1 c2 c3 s H1 H2 H3 _ IH].
  - reflexivity.
  - rewrite toLowerCase_plain, IH; [reflexivity|..]; byte_facts; byte_decide.
  - rewrite toLowerCase_plain, toLowerCase_plain, IH; [reflexivity|..];
      byte_facts; byte_decide.
  - destruct (code c1 =? 226)%N eqn:E226.
    + rewrite toLowerCase_lead226, toLowerCase_plain, toLowerCase_plain, IH;
        [reflexivity|..]; try assumption; clear IH; byte_facts; byte_decide.
    + rewrite toLowerCase_plain, toLowerCase_plain, toLowerCase_plain, IH;
        [reflexivity|..]; try assumption; clear IH; byte_facts; byte_decide.
Qed.

Lemma Blank_matchDigits s : Blank s -> matchDigits s = None.
Proof.
  induction 1 as [|c s Hc _ IH|c1 c2 s H1 H2 _ IH|c1 c2 c3 s H1 H2 H3 _ IH];
    cbn [matchDigits]; [reflexivity|..].
  - replace (isDigit c) with false; [exact IH|]. byte_facts; byte_decide.
  - replace (isDigit c1) with false by (byte_facts; byte_decide).
    replace (isDigit c2) with false by (byte_facts; byte_decide). exact IH.
  - replace (isDigit c1) with false by (clear IH; byte_facts; byte_decide).
    replace (isDigit c2) with false by (clear IH; byte_facts; byte_decide).
    replace (isDigit c3) with false by (clear IH; byte_facts; byte_decide).
    exact IH.
Qed.

(** What the parsers and the keyword tests make of an empty utterance. *)
Lemma blank_utterance userMessage :
  trim userMessage = "" ->
  lowerOf userMessage = "" /\
  parseYear userMessage = None /\
  parseMonth userMessage = None /\
  parseInstallments userMessage = None.
Proof.
  intros Htrim. pose proof (proj1 (trim_empty_Blank _) Htrim) as Hblank.
  repeat split.
  - unfold lowerOf. now rewrite (Blank_toLowerCase _ Hblank).
  - unfold parseYear. now rewrite Htrim.
  - unfold parseMonth. now rewrite Htrim.
  - unfold parseInstallments. now rewrite (Blank_matchDigits _ Hblank).
Qed.

(** *** The turn function, block by block *)

Section Engine.

Variable twelfthRoot : Q -> Q.
Variable sort : (Candidate -> Candidate -> Q) -> list Candidate -> list Candidate.

Lemma stepIs_step state current wanted :
  step state = Some current ->
  stepIs state wanted = ConversationStep_eqb current wanted.
Proof. unfold stepIs. now intros ->. Qed.

(** A greeting, and any utterance in a context without a step, is answered
    by the welcome and returns the context with the first step and the
    date of the clock; nothing else of the context changes. *)
Lemma greeting_turn currentDate userMessage state apartments :
  step state = None \/ greets (lowerOf userMessage) = true ->
  generateBotResponse twelfthRoot sort currentDate userMessage state apartments =
  Some (mkBotResponse MsgWelcome None
          (Some (set_startMonth (Some (month currentDate))
                   (set_startYear (Some (year currentDate))
                      (set_step (Some waiting_for_apartment) state))))).
Proof.
  intros H. unfold generateBotResponse, greetingBlock. fold (lowerOf userMessage).
  replace (match step state with None => true | Some _ => false end
           || greets (lowerOf userMessage)) with true; [reflexivity|].
  destruct H as [-> | ->]; [reflexivity|]. now rewrite orb_true_r.
Qed.

(** A call for help is answered without a returned context. *)
Lemma help_turn currentDate userMessage state apartments current :
  step state = Some current ->
  greets (lowerOf userMessage) = false ->
  asksHelp (lowerOf userMessage) = true ->
  generateBotResponse twelfthRoot sort currentDate userMessage state apartments =
  Some (mkBotResponse (MsgHelp current) None None).
Proof.
  intros Hstep Hgreets Hhelp.
  unfold generateBotResponse, greetingBlock, helpBlock. fold (lowerOf userMessage).
  rewrite Hstep, Hgreets, Hhelp. reflexivity.
Qed.

(** The turn of the down-payment step, once the greeting and the help are
    out of the way. *)
Lemma downPayment_turn currentDate userMessage state apartments :
  step state = Some waiting_for_down_payment ->
  greets (lowerOf userMessage) = false ->
  asksHelp (lowerOf userMessage) = false ->
  generateBotResponse twelfthRoot sort currentDate userMessage state apartments =
  match downPaymentBlock currentDate userMessage state apartments state with
  | Return response => Some response
  | _ => None
  end.
Proof.
  intros Hstep Hgreets Hhelp.
  unfold generateBotResponse, greetingBlock, helpBlock. fold (lowerOf userMessage).
  rewrite Hstep, Hgreets, Hhelp. cbn [orb andThen].
  unfold apartmentBlock, interestRateBlock.
  rewrite !(stepIs_step _ _ _ Hstep). cbn [ConversationStep_eqb andThen].
  unfold downPaymentBlock. rewrite (stepIs_step _ _ _ Hstep).
  cbn [ConversationStep_eqb].
  destruct (truthyQ (monthlyRate state)); cbn [negb]; [|reflexivity].
  destruct (parseApartmentId userMessage); [reflexivity|].
  destruct (parseAmount userMessage) as [amount|]; [|reflexivity].
  destruct (Qltb amount 1000); [reflexivity|].
  destruct (findApartment apartments (apartmentId state)) as [apartment|];
    [destruct (Qltb (bugunku_pesin_fiyat apartment) amount)|]; reflexivity.
Qed.

Lemma Qltb_true a b : Qltb a b = true <-> (a < b)%Q.
Proof. unfold Qltb. destruct (Qlt_le_dec a b); split; intros; auto; try discriminate. lra. Qed.

Lemma Qltb_false a b : Qltb a b = false <-> (b <= a)%Q.
Proof. unfold Qltb. destruct (Qlt_le_dec a b); split; intros; auto; try discriminate. lra. Qed.

(** C10 (as amended).  In the down-payment step an utterance that parses to
    an amount below 1,000 is never accepted: the turn returns no result,
    records no down payment and does not move the conversation forward.
    Unless the utterance is a greeting or the context holds no rate, the
    context stays as it is; and an utterance that is neither greeting nor
    call for help nor names a property is answered by the re-prompt for a
    valid amount. *)
Theorem small_down_payment_rejected currentDate userMessage state apartments amount :
  step state = Some waiting_for_down_payment ->
  parseAmount userMessage = Some amount ->
  (amount < 1000)%Q ->
  exists response,
    generateBotResponse twelfthRoot sort currentDate userMessage state apartments
      = Some response /\
    npvResult response = None /\
    downAmount (nextState state response) = downAmount state /\
    (stepRank (step (nextState state response)) <= stepRank (step state))%nat /\
    (greets (lowerOf userMessage) = false -> truthyQ (monthlyRate state) = true ->
     nextState state response = state) /\
    (greets (lowerOf userMessage) = false -> asksHelp (lowerOf userMessage) = false ->
     truthyQ (monthlyRate state) = true -> parseApartmentId userMessage = None ->
     response = mkBotResponse MsgDownTooSmall None None).
Proof.
  intros Hstep Hamount Hsmall.
  destruct (greets (lowerOf userMessage)) eqn:Hgreets.
  { rewrite greeting_turn by (now right). eexists; split; [reflexivity|].
    unfold nextState; cbn. rewrite Hstep. cbn.
    repeat split; try lia; intros; discriminate. }
  destruct (asksHelp (lowerOf userMessage)) eqn:Hhelp.
  { rewrite (help_turn _ _ _ _ _ Hstep Hgreets Hhelp). eexists; split; [reflexivity|].
    unfold nextState; cbn. repeat split; try lia; intros; discriminate. }
  rewrite (downPayment_turn _ _ _ _ Hstep Hgreets Hhelp).
  unfold downPaymentBlock. rewrite (stepIs_step _ _ _ Hstep). cbn [ConversationStep_eqb].
  destruct (truthyQ (monthlyRate state)); cbn [negb].
  2:{ eexists; split; [reflexivity|]. unfold nextState; cbn. rewrite Hstep. cbn.
      repeat split; try lia; intros; discriminate. }
  destruct (parseApartmentId userMessage).
  { eexists; split; [reflexivity|]. unfold nextState; cbn.
    repeat split; try lia; intros; discriminate. }
  rewrite Hamount. rewrite (proj2 (Qltb_true _ _) Hsmall).
  eexists; split; [reflexivity|]. unfold nextState; cbn.
  repeat split; try lia; intros; reflexivity.
Qed.


(** C8 (as amended).  In the down-payment step, with the selected property
    in the catalog, an utterance that parses to an amount above its price is
    never accepted: the turn returns no result, the collected parameters stay
    as they are and the conversation does not move forward.  The context is
    returned unchanged unless the utterance is a greeting (the conversation
    restarts at the property step) or the context holds no rate (it goes back
    to the rate step); an utterance that is neither greeting nor call for
    help nor names a property is answered by a re-prompt. *)
Theorem over_price_down_payment_rejected
    currentDate userMessage state apartments apartment amount :
  step state = Some waiting_for_down_payment ->
  findApartment apartments (apartmentId state) = Some apartment ->
  parseAmount userMessage = Some amount ->
  (bugunku_pesin_fiyat apartment < amount)%Q ->
  exists response,
    generateBotResponse twelfthRoot sort currentDate userMessage state apartments
      = Some response /\
    npvResult response = None /\
    (downAmount (nextState state response) = downAmount state /\
     apartmentId (nextState state response) = apartmentId state /\
     monthlyRate (nextState state response) = monthlyRate state /\
     downYear (nextState state response) = downYear state /\
     downMonth (nextState state response) = downMonth state /\
     nInstallments (nextState state response) = nInstallments state) /\
    (stepRank (step (nextState state response)) <= stepRank (step state))%nat /\
    (greets (lowerOf userMessage) = false -> truthyQ (monthlyRate state) = true ->
     nextState state response = state) /\
    (greets (lowerOf userMessage) = false -> asksHelp (lowerOf userMessage) = false ->
     truthyQ (monthlyRate state) = true -> parseApartmentId userMessage = None ->
     newState response = None /\
     (message response = MsgDownExceedsPrice (bugunku_pesin_fiyat apartment) amount
      \/ message response = MsgDownTooSmall)).
Proof.
  intros Hstep Hfind Hamount Hover.
  destruct (greets (lowerOf userMessage)) eqn:Hgreets.
  { rewrite greeting_turn by (now right). eexists; split; [reflexivity|].
    unfold nextState; cbn. rewrite Hstep. cbn.
    repeat split; try lia; intros; discriminate. }
  destruct (asksHelp (lowerOf userMessage)) eqn:Hhelp.
  { rewrite (help_turn _ _ _ _ _ Hstep Hgreets Hhelp). eexists; split; [reflexivity|].
    unfold nextState; cbn. repeat split; try lia; intros; discriminate. }
  rewrite (downPayment_turn _ _ _ _ Hstep Hgreets Hhelp).
  unfold downPaymentBlock. rewrite (stepIs_step _ _ _ Hstep). cbn [ConversationStep_eqb].
  destruct (truthyQ (monthlyRate state)); cbn [negb].
  2:{ eexists; split; [reflexivity|]. unfold nextState; cbn. rewrite Hstep. cbn.
      repeat split; try lia; intros; discriminate. }
  destruct (parseApartmentId userMessage).
  { eexists; split; [reflexivity|]. unfold nextState; cbn.
    repeat split; try lia; intros; discriminate. }
  rewrite Hamount, Hfind.
  destruct (Qltb amount 1000).
  { eexists; split; [reflexivity|]. unfold nextState; cbn.
    repeat split; try lia; auto. }
  rewrite (proj2 (Qltb_true _ _) Hover).
  eexists; split; [reflexivity|]. unfold nextState; cbn.
  repeat split; try lia; auto.
Qed.

(** C6 (code_bug).  What the engine does with a greeting: it answers with
    the welcome and returns the context at the property step, with the date
    of the clock, and with every collected parameter as it was.  Nothing is
    cleared, whereas choosing a new property in the completed step clears
    them all. *)
Theorem greeting_keeps_parameters currentDate userMessage state apartments :
  greets (lowerOf userMessage) = true ->
  exists response updated,
    generateBotResponse twelfthRoot sort currentDate userMessage state apartments
      = Some response /\
    message response = MsgWelcome /\
    newState response = Some updated /\
    step updated = Some waiting_for_apartment /\
    startYear updated = Some (year currentDate) /\
    startMonth updated = Some (month currentDate) /\
    apartmentId updated = apartmentId state /\
    monthlyRate updated = monthlyRate state /\
    isAnnualRateSelected updated = isAnnualRateSelected state /\
    downAmount updated = downAmount state /\
    downYear updated = downYear state /\
    downMonth updated = downMonth state /\
    nInstallments updated = nInstallments state /\
    desiredInstallment updated = desiredInstallment state /\
    calculatedPv updated = calculatedPv state /\
    lastNpvResult updated = lastNpvResult state /\
    alternativeApartments updated = alternativeApartments state /\
    suggestedDownAmount updated = suggestedDownAmount state.
Proof.
  intros Hgreets. rewrite greeting_turn by (now right).
  do 2 eexists. split; [reflexivity|]. split; [reflexivity|]. split; [reflexivity|].
  cbn. repeat split.
Qed.

(** The turn of the rate step, once the greeting and the help are out of
    the way. *)
Lemma interestRate_turn currentDate userMessage state apartments :
  step state = Some waiting_for_interest_rate ->
  greets (lowerOf userMessage) = false ->
  asksHelp (lowerOf userMessage) = false ->
  generateBotResponse twelfthRoot sort currentDate userMessage state apartments =
  match interestRateBlock twelfthRoot userMessage (lowerOf userMessage) state state with
  | Return response => Some response
  | _ => None
  end.
Proof.
  intros Hstep Hgreets Hhelp.
  unfold generateBotResponse, greetingBlock, helpBlock. fold (lowerOf userMessage).
  rewrite Hstep, Hgreets, Hhelp. cbn [orb andThen].
  unfold apartmentBlock.
  rewrite !(stepIs_step _ _ _ Hstep). cbn [ConversationStep_eqb andThen].
  unfold interestRateBlock. rewrite (stepIs_step _ _ _ Hstep).
  cbn [ConversationStep_eqb].
  destruct (parseApartmentId userMessage); [reflexivity|].
  destruct (isAnnualRateSelected state) as [annual|].
  - destruct (enteredRate userMessage); [destruct annual|]; reflexivity.
  - destruct (saysAnnual (lowerOf userMessage)); [reflexivity|].
    destruct (saysMonthly (lowerOf userMessage)); [reflexivity|].
    destruct (parseInterestRate userMessage) as [info|].
    + destruct (isAnnual info); reflexivity.
    + destruct (enteredRate userMessage); reflexivity.
Qed.

(** C4 (as amended).  The rate is stored in the form it is entered in.  Once
    the unit is chosen, the number typed is stored as it stands for a monthly
    rate (2 for 2%), and as the percent figure of the equivalent monthly rate
    for an annual one.  A rate typed before the unit is chosen is stored as
    the parser reads it: the number as it stands, or divided by 100 when a
    percent sign follows it; an annual one again as a percent figure. *)
Theorem rate_stored_as_entered currentDate userMessage state apartments :
  step state = Some waiting_for_interest_rate ->
  greets (lowerOf userMessage) = false ->
  asksHelp (lowerOf userMessage) = false ->
  parseApartmentId userMessage = None ->
  (forall annual rate,
     isAnnualRateSelected state = Some annual ->
     enteredRate userMessage = Some rate ->
     exists response,
       generateBotResponse twelfthRoot sort currentDate userMessage state apartments
         = Some response /\
       newState response =
       Some (set_step (Some waiting_for_down_payment)
               (set_monthlyRate
                  (Some (if annual
                         then (annualToMonthlyRate twelfthRoot (rate / 100) * 100)%Q
                         else rate))
                  state))) /\
  (forall info,
     isAnnualRateSelected state = None ->
     saysAnnual (lowerOf userMessage) = false ->
     saysMonthly (lowerOf userMessage) = false ->
     parseInterestRate userMessage = Some info ->
     exists response,
       generateBotResponse twelfthRoot sort currentDate userMessage state apartments
         = Some response /\
       newState response =
       Some (set_step (Some waiting_for_down_payment)
               (set_isAnnualRateSelected (Some (isAnnual info))
                  (set_monthlyRate
                     (Some (if isAnnual info
                            then (annualToMonthlyRate twelfthRoot (rate info / 100) * 100)%Q
                            else rate info))
                     state)))).
Proof.
  intros Hstep Hgreets Hhelp Hid.
  rewrite (interestRate_turn _ _ _ _ Hstep Hgreets Hhelp).
  unfold interestRateBlock. rewrite (stepIs_step _ _ _ Hstep), Hid.
  cbn [ConversationStep_eqb]. split.
  - intros annual rate -> ->. destruct annual; eexists; split; reflexivity.
  - intros info -> -> -> ->. destruct (isAnnual info); eexists; split; reflexivity.
Qed.

(** With a target the solver returns: no exception leaves the blocks that
    call it. *)
Lemma solveForPrice_returns currentDate state price monthlyRateDecimal down
    downYear' downMonth' count :
  exists result,
    solveForPrice currentDate state price monthlyRateDecimal down downYear'
      downMonth' count = NpvCalculator.Returned result.
Proof.
  unfold solveForPrice, NpvCalculator.calculateNPV. cbn [NpvCalculator.targetPv].
  eexists. reflexivity.
Qed.

(** The parameters of the plan do not depend on the step or on the number
    of installments of the context. *)
Lemma planParameters_installments apartments state count :
  planParameters apartments
    (set_step (Some completed) (set_nInstallments (Some count) state))
  = planParameters apartments state.
Proof. reflexivity. Qed.

(** The turns of the year, month and installment steps on an utterance
    that is neither greeting nor call for help. *)
Lemma downYear_turn currentDate userMessage state apartments :
  step state = Some waiting_for_down_payment_year ->
  greets (lowerOf userMessage) = false ->
  asksHelp (lowerOf userMessage) = false ->
  generateBotResponse twelfthRoot sort currentDate userMessage state apartments =
  match downYearBlock currentDate userMessage state state with
  | Return response => Some response
  | _ => None
  end.
Proof.
  intros Hstep Hgreets Hhelp.
  unfold generateBotResponse, greetingBlock, helpBlock. fold (lowerOf userMessage).
  rewrite Hstep, Hgreets, Hhelp. cbn [orb andThen].
  unfold apartmentBlock, interestRateBlock, downPaymentBlock.
  rewrite !(stepIs_step _ _ _ Hstep). cbn [ConversationStep_eqb andThen].
  unfold downYearBlock. rewrite (stepIs_step _ _ _ Hstep). cbn [ConversationStep_eqb].
  destruct (parseYear userMessage); [reflexivity|].
  destruct (trim userMessage =? "")%string; reflexivity.
Qed.

Lemma downMonth_turn currentDate userMessage state apartments :
  step state = Some waiting_for_down_payment_month ->
  greets (lowerOf userMessage) = false ->
  asksHelp (lowerOf userMessage) = false ->
  generateBotResponse twelfthRoot sort currentDate userMessage state apartments =
  match downMonthBlock currentDate userMessage state state with
  | Return response => Some response
  | _ => None
  end.
Proof.
  intros Hstep Hgreets Hhelp.
  unfold generateBotResponse, greetingBlock, helpBlock. fold (lowerOf userMessage).
  rewrite Hstep, Hgreets, Hhelp. cbn [orb andThen].
  unfold apartmentBlock, interestRateBlock, downPaymentBlock, downYearBlock.
  rewrite !(stepIs_step _ _ _ Hstep). cbn [ConversationStep_eqb andThen].
  unfold downMonthBlock. rewrite (stepIs_step _ _ _ Hstep). cbn [ConversationStep_eqb].
  destruct (parseMonth userMessage) as [m|]; [|reflexivity].
  destruct (_ <? _); reflexivity.
Qed.

Lemma reportPlan_returns currentDate apartment rate down downYear downMonth count
    markCompleted updated :
  exists response,
    reportPlan currentDate apartment rate down downYear downMonth count
      markCompleted updated = Return response.
Proof.
  unfold reportPlan, solveForPrice, NpvCalculator.calculateNPV.
  cbn [NpvCalculator.targetPv].
  match goal with |- context [if ?c then _ else _] => destruct c end;
    [eexists; reflexivity|].
  match goal with |- context [if ?c then _ else _] => destruct c end;
    eexists; reflexivity.
Qed.

Lemma installments_turn_default currentDate userMessage state apartments
    apartment rate down downYear' downMonth' :
  step state = Some waiting_for_installments ->
  trim userMessage = "" ->
  planParameters apartments state = Some (apartment, rate, down, downYear', downMonth') ->
  exists response,
    reportPlan currentDate apartment rate down downYear' downMonth' 24 false
      (set_step (Some completed) (set_nInstallments (Some 24) state))
    = Return response /\
    generateBotResponse twelfthRoot sort currentDate userMessage state apartments
    = Some response.
Proof.
  intros Hstep Htrim Hplan.
  destruct (blank_utterance _ Htrim) as (Hlower & _ & _ & Hcount).
  destruct (reportPlan_returns currentDate apartment rate down downYear' downMonth' 24
              false (set_step (Some completed) (set_nInstallments (Some 24) state)))
    as [response Hresponse].
  exists response. split; [exact Hresponse|].
  unfold generateBotResponse, greetingBlock, helpBlock. fold (lowerOf userMessage).
  rewrite Hstep, Hlower. cbn [orb andThen greets asksHelp includes prefix].
  unfold apartmentBlock, interestRateBlock, downPaymentBlock, downYearBlock,
    downMonthBlock.
  rewrite !(stepIs_step _ _ _ Hstep). cbn [ConversationStep_eqb andThen].
  unfold installmentsBlock. rewrite (stepIs_step _ _ _ Hstep). cbn [ConversationStep_eqb].
  rewrite Hcount, Htrim. cbn [String.eqb].
  rewrite planParameters_installments, Hplan, Hresponse. reflexivity.
Qed.

(** C5 (as amended).  An empty utterance is taken as the default at the year
    prompt (the start year of the session, or the year of the clock) and at
    the installment prompt (24 installments, solved at once for a context
    that holds the plan's parameters; the conversation is completed when
    neither installment nor interest comes out negative).  At the month
    prompt there is no default: an empty utterance is answered by the
    re-prompt and the context stays as it is. *)
Theorem empty_utterance_defaults currentDate userMessage state apartments :
  trim userMessage = "" ->
  (step state = Some waiting_for_down_payment_year ->
   generateBotResponse twelfthRoot sort currentDate userMessage state apartments =
   Some (mkBotResponse
           (MsgYearDefaulted (orZ (startYear state) (year currentDate))) None
           (Some (set_step (Some waiting_for_down_payment_month)
                    (set_downYear (Some (orZ (startYear state) (year currentDate)))
                       state))))) /\
  (step state = Some waiting_for_down_payment_month ->
   generateBotResponse twelfthRoot sort currentDate userMessage state apartments =
   Some (mkBotResponse MsgMonthNotUnderstood None None)) /\
  (forall apartment rate down downYear' downMonth' result,
     step state = Some waiting_for_installments ->
     planParameters apartments state
       = Some (apartment, rate, down, downYear', downMonth') ->
     solveForPrice currentDate state (bugunku_pesin_fiyat apartment)
       (rateDecimal rate) down downYear' downMonth' 24
       = NpvCalculator.Returned result ->
     (0 <= NpvCalculator.monthlyInstallment (NpvCalculator.modelA result))%Q ->
     (0 <= NpvCalculator.monthlyInstallment (NpvCalculator.modelB result))%Q ->
     (bugunku_pesin_fiyat apartment
      <= NpvCalculator.nominalTotal (NpvCalculator.modelA result))%Q ->
     (bugunku_pesin_fiyat apartment
      <= NpvCalculator.nominalTotal (NpvCalculator.modelB result))%Q ->
     generateBotResponse twelfthRoot sort currentDate userMessage state apartments =
     Some (mkBotResponse (MsgCalculationDone (betterInstallment result)) (Some result)
             (Some (set_lastNpvResult (Some result)
                      (set_step (Some completed)
                         (set_nInstallments (Some 24) state)))))).
Proof.
  intros Htrim.
  destruct (blank_utterance _ Htrim) as (Hlower & Hyear & Hmonth & Hcount).
  assert (Hgreets : greets (lowerOf userMessage) = false) by (now rewrite Hlower).
  assert (Hhelp : asksHelp (lowerOf userMessage) = false) by (now rewrite Hlower).
  split; [|split].
  - intros Hstep. rewrite (downYear_turn _ _ _ _ Hstep Hgreets Hhelp).
    unfold downYearBlock. rewrite (stepIs_step _ _ _ Hstep), Hyear, Htrim. reflexivity.
  - intros Hstep. rewrite (downMonth_turn _ _ _ _ Hstep Hgreets Hhelp).
    unfold downMonthBlock. rewrite (stepIs_step _ _ _ Hstep), Hmonth. reflexivity.
  - intros apartment rate down downYear' downMonth' result Hstep Hplan Hsolve HA HB HiA HiB.
    destruct (installments_turn_default currentDate userMessage state apartments
                apartment rate down downYear' downMonth' Hstep Htrim Hplan)
      as (response & Hreport & ->).
    f_equal. revert Hreport. unfold reportPlan.
    change (solveForPrice currentDate
              (set_step (Some completed) (set_nInstallments (Some 24) state)))
      with (solveForPrice currentDate state).
    rewrite Hsolve.
    rewrite (proj2 (Qltb_false _ _) HA), (proj2 (Qltb_false _ _) HB). cbn [orb].
    replace (Qltb _ 0) with false by (symmetry; apply Qltb_false; lra).
    replace (Qltb _ 0) with false by (symmetry; apply Qltb_false; lra).
    cbn [orb]. intros [= <-]. reflexivity.
Qed.

(** *** The search for a higher down payment *)

Lemma Qfloor_step_down (x : Q) (turns : nat) :
  (0 <= x - 1)%Q -> (Z.to_nat (Qfloor x) < S turns)%nat ->
  (Z.to_nat (Qfloor (x - 1)) < turns)%nat.
Proof.
  intros Hx Hturns.
  pose proof (Qfloor_le (x - 1)) as Hlow.
  pose proof (Qlt_floor x) as Hhigh.
  assert (Hlt : (inject_Z (Qfloor (x - 1)) < inject_Z (Qfloor x))%Q).
  { rewrite inject_Z_plus in Hhigh. change (inject_Z 1) with 1%Q in Hhigh. lra. }
  rewrite <- Zlt_Qlt in Hlt.
  assert (0 <= Qfloor (x - 1)).
  { change 0 with (Qfloor 0). apply Qfloor_resp_le. exact Hx. }
  lia.
Qed.

(** The search leaves its loop through the loop condition: the turns of
    [downSearchFuel] are enough, the step being positive. *)
Lemma downSearchLoop_enough_fuel fuel solve desired maxDownAmount stepSize vars :
  (0 < stepSize)%Q ->
  foundFeasible vars = true \/
  (maxDownAmount < searchDownAmount vars)%Q \/
  (Z.to_nat (Qfloor ((maxDownAmount - searchDownAmount vars) / stepSize)) < fuel)%nat ->
  downSearchLoop fuel solve desired maxDownAmount stepSize vars <> None.
Proof.
  intros Hstep. revert vars.
  induction fuel as [|fuel IH]; intros vars Hfuel.
  - destruct vars as [down found inst]; cbn in *.
    destruct Hfuel as [-> | [Hover | Hlt]]; [| |lia].
    + rewrite andb_false_r. discriminate.
    + replace (Qleb down maxDownAmount) with false; [discriminate|].
      symmetry. apply not_true_is_false. unfold Qleb. rewrite Qle_bool_iff. lra.
  - cbn [downSearchLoop].
    destruct (Qleb (searchDownAmount vars) maxDownAmount && negb (foundFeasible vars))
      eqn:Hcond; [|discriminate].
    apply andb_true_iff in Hcond as (Hle & Hnot).
    unfold Qleb in Hle. apply Qle_bool_iff in Hle. apply negb_true_iff in Hnot.
    destruct (solve (searchDownAmount vars)) as [npvResult|msg]; [|discriminate].
    apply IH. cbn [foundFeasible searchDownAmount].
    destruct (withinFiveThousand _ desired); [now left|]. right.
    destruct (Qlt_le_dec maxDownAmount (searchDownAmount vars + stepSize)) as [Hover|Hin];
      [now left|right].
    destruct Hfuel as [Hfound | [Hover | Hlt]]; [congruence | lra |].
    assert (Heq : ((maxDownAmount - (searchDownAmount vars + stepSize)) / stepSize
                   == (maxDownAmount - searchDownAmount vars) / stepSize - 1)%Q)
      by (field; lra).
    rewrite Heq. apply Qfloor_step_down; [|exact Hlt].
    assert (Hlow : (1 <= (maxDownAmount - searchDownAmount vars) / stepSize)%Q).
    { apply Qle_shift_div_l; lra. }
    lra.
Qed.

Lemma downSearchLoop_terminates solve desired currentDownAmount maxDownAmount stepSize :
  (0 < stepSize)%Q ->
  downSearchLoop (downSearchFuel currentDownAmount maxDownAmount stepSize) solve
    desired maxDownAmount stepSize
    (mkDownSearch (currentDownAmount + stepSize) false 0) <> None.
Proof.
  intros Hstep. apply downSearchLoop_enough_fuel; [exact Hstep|].
  cbn [foundFeasible searchDownAmount]. right.
  destruct (Qlt_le_dec maxDownAmount (currentDownAmount + stepSize)) as [Hover|Hin];
    [now left|right].
  unfold downSearchFuel.
  assert (Heq : ((maxDownAmount - (currentDownAmount + stepSize)) / stepSize
                 == (maxDownAmount - currentDownAmount) / stepSize - 1)%Q)
    by (field; lra).
  rewrite Heq. apply Qfloor_step_down; [|lia].
  assert (Hlow : (1 <= (maxDownAmount - currentDownAmount) / stepSize)%Q).
  { apply Qle_shift_div_l; lra. }
  lra.
Qed.

(** *** The alternative matcher *)

Lemma in_dropNull {A : Type} (items : list (option A)) (x : A) :
  In x (dropNull items) <-> In (Some x) items.
Proof.
  induction items as [|[item|] rest IH]; simpl; [tauto| |].
  - rewrite IH. split; intros [H|H]; auto; left; congruence.
  - rewrite IH. split; [auto|]. intros [H|H]; [discriminate|auto].
Qed.

Lemma in_firstn {A : Type} (n : nat) (items : list A) (x : A) :
  In x (firstn n items) -> In x items.
Proof.
  intros H. rewrite <- (firstn_skipn n items). apply in_or_app. now left.
Qed.

(** The platform's sort returns the items it is given, in some order. *)
Hypothesis sort_permutes :
  forall compare items, Permutation (sort compare items) items.

(** C7.  The properties returned by the alternative matcher are at most
    five, each one from the catalog and other than the current one, and for
    each the Model A installment, solved again in target-present-value mode
    for its price with the same down payment, term and rate, is positive and
    within the tolerance of the desired installment. *)
Theorem findAlternativeApartments_sound
    apartments desiredInstallment downAmount' nInstallments' monthlyRate'
    downYear' downMonth' startYear' startMonth' currentApartmentId tolerance :
  let found :=
    findAlternativeApartments sort apartments desiredInstallment downAmount'
      nInstallments' monthlyRate' downYear' downMonth' startYear' startMonth'
      currentApartmentId tolerance in
  (List.length found <= 5)%nat /\
  forall apt, In apt found ->
    In apt apartments /\
    ev_id apt <> currentApartmentId /\
    exists result,
      NpvCalculator.calculateNPV
        (NpvCalculator.mkNPVInputs (Some (bugunku_pesin_fiyat apt)) None
           (rateDecimal monthlyRate') downAmount' downYear' downMonth' nInstallments'
           startYear' startMonth')
      = NpvCalculator.Returned result /\
      (0 < NpvCalculator.monthlyInstallment (NpvCalculator.modelA result))%Q /\
      (desiredInstallment - tolerance
       <= NpvCalculator.monthlyInstallment (NpvCalculator.modelA result))%Q /\
      (NpvCalculator.monthlyInstallment (NpvCalculator.modelA result)
       <= desiredInstallment + tolerance)%Q.
Proof.
  intros found. subst found. unfold findAlternativeApartments.
  destruct (find _ apartments) as [currentApartment|]; [|split; [simpl; lia | intros apt []]].
  split.
  - rewrite length_map. apply firstn_le_length.
  - intros apt Hin.
    apply in_map_iff in Hin as (candidate & <- & Hin).
    apply in_firstn in Hin.
    apply (Permutation_in _ (sort_permutes _ _)) in Hin.
    apply filter_In in Hin as (Hin & Hfits).
    apply in_dropNull, in_map_iff in Hin as (apt & Hcandidate & Hin).
    apply filter_In in Hin as (Hin & Hother).
    unfold candidateFor in Hcandidate.
    destruct (NpvCalculator.calculateNPV _) as [result|msg] eqn:Hsolve;
      [|discriminate Hcandidate].
    injection Hcandidate as <-. cbn [apartment calculatedInstallment] in *.
    split; [exact Hin|]. split.
    + apply negb_true_iff, String.eqb_neq in Hother. exact Hother.
    + exists result. split; [exact Hsolve|].
      apply andb_true_iff in Hfits as (Hfits & Hpositive).
      apply andb_true_iff in Hfits as (Hmin & Hmax).
      apply Qltb_true in Hpositive. unfold Qleb in Hmin, Hmax.
      apply Qle_bool_iff in Hmin, Hmax. auto.
Qed.

End Engine.

Lemma small_down_payment_rejected_witness :
  step atDownPayment = Some waiting_for_down_payment /\
  parseAmount "500 TL" = Some 500%Q /\
  (500 < 1000)%Q /\
  respond june2025 "500 TL" atDownPayment catalog
    = Some (mkBotResponse MsgDownTooSmall None None).
Proof.
  split; [reflexivity|]. split; [reflexivity|]. split; [reflexivity|].
  destruct (small_down_payment_rejected twelfthRoot insertionSort june2025 "500 TL"
              atDownPayment catalog 500%Q eq_refl eq_refl ltac:(reflexivity))
    as (response & Hresp & _ & _ & _ & _ & Hreply).
  unfold respond. rewrite Hresp. f_equal.
  apply Hreply; reflexivity.
Defined.

Lemma over_price_down_payment_rejected_witness :
  step atDownPayment = Some waiting_for_down_payment /\
  findApartment catalog (apartmentId atDownPayment) = Some flatA /\
  parseAmount "5.000.000 TL" = Some 5000000%Q /\
  (bugunku_pesin_fiyat flatA < 5000000)%Q /\
  exists response,
    respond june2025 "5.000.000 TL" atDownPayment catalog = Some response /\
    npvResult response = None /\
    nextState atDownPayment response = atDownPayment /\
    newState response = None /\
    (message response = MsgDownExceedsPrice (bugunku_pesin_fiyat flatA) 5000000
     \/ message response = MsgDownTooSmall).
Proof.
  repeat (split; [reflexivity|]).
  destruct (over_price_down_payment_rejected twelfthRoot insertionSort june2025
              "5.000.000 TL" atDownPayment catalog flatA 5000000%Q
              eq_refl eq_refl eq_refl ltac:(reflexivity))
    as (response & Hresp & Hnone & _ & _ & Hsame & Hreply).
  exists response. split; [exact Hresp|]. split; [exact Hnone|].
  split; [apply Hsame; reflexivity|].
  apply Hreply; reflexivity.
Defined.

(** C8, as stated, fails: an utterance that holds a greeting word and an
    amount above the price is answered by the welcome, and the context
    comes back at the property step. *)
Lemma greeting_with_amount_changes_context :
  step atDownPayment = Some waiting_for_down_payment /\
  findApartment catalog (apartmentId atDownPayment) = Some flatA /\
  parseAmount "selam 5000000" = Some 5000000%Q /\
  (bugunku_pesin_fiyat flatA < 5000000)%Q /\
  exists response,
    respond june2025 "selam 5000000" atDownPayment catalog = Some response /\
    message response = MsgWelcome /\
    step (nextState atDownPayment response) = Some waiting_for_apartment /\
    nextState atDownPayment response <> atDownPayment.
Proof.
  repeat (split; [reflexivity|]).
  eexists. split; [reflexivity|]. split; [reflexivity|]. split; [reflexivity|].
  discriminate.
Qed.

(** C10, as stated, fails: an utterance that holds a greeting word and an
    amount below 1,000 is not answered by the re-prompt for a valid amount
    but by the welcome, and the context comes back at the property step. *)
Lemma greeting_with_small_amount_restarts :
  step atDownPayment = Some waiting_for_down_payment /\
  parseAmount "selam 500" = Some 500%Q /\
  (0 < 500 < 1000)%Q /\
  exists response,
    respond june2025 "selam 500" atDownPayment catalog = Some response /\
    message response = MsgWelcome /\
    message response <> MsgDownTooSmall /\
    step (nextState atDownPayment response) = Some waiting_for_apartment /\
    nextState atDownPayment response <> atDownPayment.
Proof.
  split; [reflexivity|]. split; [reflexivity|]. split; [split; reflexivity|].
  eexists. split; [reflexivity|]. split; [reflexivity|]. split; [discriminate|].
  split; [reflexivity|]. discriminate.
Qed.

(** A conversation on the way, greeted again (C6): the property, the rate
    and the down payment are still in the context. *)
Lemma greeting_keeps_parameters_witness :
  greets (lowerOf "Merhaba") = true /\
  exists response updated,
    respond june2025 "Merhaba" atDownYear catalog = Some response /\
    newState response = Some updated /\
    step updated = Some waiting_for_apartment /\
    apartmentId updated = Some "GZP-H04-001" /\
    monthlyRate updated = Some 2%Q /\
    isAnnualRateSelected updated = Some false /\
    downAmount updated = Some 300000%Q.
Proof.
  split; [reflexivity|].
  destruct (greeting_keeps_parameters twelfthRoot insertionSort june2025 "Merhaba"
              atDownYear catalog eq_refl)
    as (response & updated & Hresp & _ & Hnew & Hstep & _ & _ & Hid & Hrate & Hkind
        & Hdown & _).
  exists response, updated. repeat split; assumption.
Defined.

Lemma rate_stored_as_entered_witness :
  step (atRate (Some false)) = Some waiting_for_interest_rate /\
  greets (lowerOf "2") = false /\ asksHelp (lowerOf "2") = false /\
  parseApartmentId "2" = None /\
  isAnnualRateSelected (atRate (Some false)) = Some false /\
  enteredRate "2" = Some 2%Q /\
  exists response,
    respond june2025 "2" (atRate (Some false)) catalog = Some response /\
    newState response =
    Some (set_step (Some waiting_for_down_payment)
            (set_monthlyRate (Some 2%Q) (atRate (Some false)))).
Proof.
  repeat (split; [reflexivity|]).
  exact (proj1 (rate_stored_as_entered twelfthRoot insertionSort june2025 "2"
                  (atRate (Some false)) catalog eq_refl eq_refl eq_refl eq_refl)
           false 2%Q eq_refl eq_refl).
Defined.

(** C4, as stated, fails: a monthly rate of 2%, typed as the bare number the
    prompt asks for, is stored as 2 and not as 0.02. *)
Lemma bare_rate_stored_as_percent :
  exists response updated,
    respond june2025 "2" (atRate (Some false)) catalog = Some response /\
    message response = MsgMonthlyRateRecorded 2 /\
    newState response = Some updated /\
    monthlyRate updated = Some 2%Q /\
    ~ (2 == 0.02)%Q.
Proof.
  do 2 eexists. split; [reflexivity|]. split; [reflexivity|]. split; [reflexivity|].
  split; [reflexivity|]. discriminate.
Qed.

Lemma empty_utterance_defaults_witness :
  trim "  " = "" /\
  respond june2025 "  " atDownYear catalog
    = Some (mkBotResponse (MsgYearDefaulted 2025) None (Some atDownMonth)) /\
  respond june2025 "  " atDownMonth catalog
    = Some (mkBotResponse MsgMonthNotUnderstood None None) /\
  exists result,
    respond june2025 "  " atInstallments catalog
    = Some (mkBotResponse (MsgCalculationDone (betterInstallment result)) (Some result)
              (Some (set_lastNpvResult (Some result)
                       (set_step (Some completed)
                          (set_nInstallments (Some 24) atInstallments))))).
Proof.
  destruct (empty_utterance_defaults twelfthRoot insertionSort june2025 "  "
              atInstallments catalog eq_refl) as (_ & _ & Hcount).
  split; [reflexivity|]. split; [|split].
  - exact (proj1 (empty_utterance_defaults twelfthRoot insertionSort june2025 "  "
                    atDownYear catalog eq_refl) eq_refl).
  - exact (proj1 (proj2 (empty_utterance_defaults twelfthRoot insertionSort june2025
                           "  " atDownMonth catalog eq_refl)) eq_refl).
  - destruct (solveForPrice june2025 atInstallments (bugunku_pesin_fiyat flatA)
                (rateDecimal 2) 300000 2025 7 24) as [result|msg] eqn:Hsolve;
      [|discriminate Hsolve].
    exists result.
    apply (Hcount flatA 2%Q 300000%Q 2025 7 result eq_refl eq_refl Hsolve);
      revert Hsolve; unfold solveForPrice, NpvCalculator.calculateNPV;
      cbn [NpvCalculator.targetPv]; intros [= <-];
      cbn [NpvCalculator.modelA NpvCalculator.modelB NpvCalculator.monthlyInstallment
           NpvCalculator.nominalTotal];
      vm_compute; discriminate.
Defined.

(** C5, as stated, fails: the scripted conversation stops at the month
    prompt.  Its sixth utterance, empty, is taken as the default year; the
    seventh, empty, and the eighth are answered by the re-prompt for a
    month, and no result is produced. *)
Lemma script_stops_at_month_prompt :
  exists answers final,
    converse june2025 catalog script newSession = (answers, final) /\
    map (option_map message) answers =
      [Some MsgMonthNotUnderstood; Some MsgMonthNotUnderstood;
       Some (MsgYearDefaulted 2025); Some (MsgDownRecorded 300000 2025);
       Some (MsgMonthlyRateRecorded 2); Some MsgAskMonthlyRate;
       Some (MsgApartmentChosen "GZP-H04-001"); Some MsgWelcome] /\
    Forall (fun answer => option_map npvResult answer = Some None) answers /\
    step final = Some waiting_for_down_payment_month /\
    lastNpvResult final = None /\
    respond june2025 "" atDownMonth catalog
      = Some (mkBotResponse MsgMonthNotUnderstood None None).
Proof.
  do 2 eexists. split; [vm_compute; reflexivity|].
  split; [reflexivity|]. split; [repeat constructor|].
  split; [reflexivity|]. split; reflexivity.
Qed.

Lemma insertBy_permutes compare x sorted :
  Permutation (insertBy compare x sorted) (x :: sorted).
Proof.
  induction sorted as [|y rest IH]; simpl; [reflexivity|].
  destruct (Qleb (compare x y) 0); [reflexivity|].
  rewrite IH. apply perm_swap.
Qed.

Lemma insertionSort_permutes compare items :
  Permutation (insertionSort compare items) items.
Proof.
  induction items as [|x rest IH]; simpl; [reflexivity|].
  rewrite insertBy_permutes. now constructor.
Qed.

(** A search from [flatA], with 300,000 down, due in July 2025, and 6
    installments at 2%: an installment near 85,000 is that of [flatB]. *)
Lemma findAlternativeApartments_sound_witness :
  findAlternativeApartments insertionSort catalog 85000 300000 6 2 2025 7 2025 6
    "GZP-H04-001" 5000 = [flatB] /\
  (List.length [flatB] <= 5)%nat /\
  ev_id flatB <> "GZP-H04-001" /\
  exists result,
    NpvCalculator.calculateNPV
      (NpvCalculator.mkNPVInputs (Some (bugunku_pesin_fiyat flatB)) None
         (rateDecimal 2) 300000 2025 7 6 2025 6)
    = NpvCalculator.Returned result /\
    (0 < NpvCalculator.monthlyInstallment (NpvCalculator.modelA result))%Q /\
    (85000 - 5000 <= NpvCalculator.monthlyInstallment (NpvCalculator.modelA result))%Q /\
    (NpvCalculator.monthlyInstallment (NpvCalculator.modelA result) <= 85000 + 5000)%Q.
Proof.
  assert (Hfound :
    findAlternativeApartments insertionSort catalog 85000 300000 6 2 2025 7 2025 6
      "GZP-H04-001" 5000 = [flatB]) by (vm_compute; reflexivity).
  split; [exact Hfound|].
  destruct (findAlternativeApartments_sound insertionSort insertionSort_permutes
              catalog 85000 300000 6 2 2025 7 2025 6 "GZP-H04-001" 5000)
    as (Hlength & Heach).
  rewrite Hfound in Hlength, Heach.
  split; [exact Hlength|].
  destruct (Heach flatB (or_introl eq_refl)) as (_ & Hother & Hresult).
  split; [exact Hother | exact Hresult].
Defined.

(** With the month typed in, the script reaches the installment prompt, in
    the context [atInstallments]: the empty utterance at the year prompt is
    taken as the session's year, and there an empty utterance completes
    the conversation with 24 installments. *)
Lemma script_with_month_reaches_installment_prompt :
  snd (converse june2025 catalog scriptWithMonth newSession) = atInstallments.
Proof. vm_compute. reflexivity. Qed.

End ChatbotFacts.

(** ** Further facts about the solver *)

Module NpvMoreFacts.

Import NpvCalculator NpvTerms NpvMoreTerms NpvFacts.
Local Open Scope Z_scope.

(** *** Discounting *)

(** X1.  Discounting over no months leaves an amount as it is, and
    discounting in two stages is discounting over the sum of the months
    (for a rate other than -1). *)
Theorem presentValue_stages (amount : Q) (m j : Z) (r : Q) :
  ~ (r == -1)%Q ->
  (presentValue amount 0 r == amount)%Q /\
  (presentValue (presentValue amount m r) j r == presentValue amount (m + j) r)%Q.
Proof.
  intros Hr. assert (Hbase : ~ (1 + r == 0)%Q) by (intros H; apply Hr; lra).
  unfold presentValue. split.
  - change ((1 + r) ^ 0)%Q with 1%Q. field.
  - rewrite Qpower_plus by exact Hbase.
    pose proof (Qpower_not_0 (1 + r) m Hbase).
    pose proof (Qpower_not_0 (1 + r) j Hbase).
    field. split; assumption.
Qed.

Lemma presentValue_stages_witness :
  ~ ((2 # 100) == -1)%Q /\
  (presentValue 1000 0 (2 # 100) == 1000)%Q /\
  (presentValue (presentValue 1000 3 (2 # 100)) 4 (2 # 100)
   == presentValue 1000 (3 + 4) (2 # 100))%Q.
Proof.
  split; [discriminate|].
  exact (presentValue_stages 1000 3 4 (2 # 100) ltac:(discriminate)).
Defined.

Local Open Scope Q_scope.

Lemma discountSum_closed_form r from len :
  -1 < r ->
  discountSum r (zseq from len) * r
  == 1 / (1 + r) ^ (from - 1) - 1 / (1 + r) ^ (from - 1 + Z.of_nat len).
Proof.
  intros Hr. assert (Hbase : ~ 1 + r == 0) by lra.
  revert from; induction len as [|len IH]; intros from.
  - simpl. rewrite Z.add_0_r. ring.
  - change (zseq from (S len)) with (from :: zseq (from + 1) len).
    rewrite discountSum_cons.
    setoid_replace ((1 / (1 + r) ^ from + discountSum r (zseq (from + 1) len)) * r)
      with (r / (1 + r) ^ from + discountSum r (zseq (from + 1) len) * r)
      by (field; apply Qpower_not_0; exact Hbase).
    rewrite IH.
    replace (from + 1 - 1)%Z with from by lia.
    replace (from - 1 + Z.of_nat (S len))%Z with (from + Z.of_nat len)%Z by lia.
    replace from with (from - 1 + 1)%Z at 1 2 by lia.
    rewrite (Qpower_plus (1 + r) (from - 1) 1) by exact Hbase.
    rewrite Qpower_1_r.
    pose proof (Qpower_not_0 (1 + r) (from - 1) Hbase).
    pose proof (Qpower_not_0 (1 + r) (from + Z.of_nat len) Hbase).
    field. repeat split; assumption.
Qed.

(** X2.  The annuity formula: from offset 1 and without a skip, the discount
    sum of [n] terms times the rate is [1 - 1/(1+r)^n]. *)
Theorem geometricSumDiscount_annuity (n : Z) (r : Q) :
  (0 <= n)%Z -> -1 < r ->
  geometricSumDiscount n r 1 None * r == 1 - 1 / (1 + r) ^ n.
Proof.
  intros Hn Hr. rewrite geometricSumDiscount_spec, filter_keeps_None.
  rewrite discountSum_closed_form by exact Hr.
  replace (1 - 1)%Z with 0%Z by lia. rewrite Z.add_0_l, Z2Nat.id by exact Hn.
  change ((1 + r) ^ 0) with 1. field.
  apply Qpower_not_0. lra.
Qed.

Lemma geometricSumDiscount_annuity_witness :
  (0 <= 3)%Z /\ -1 < (1 # 2) /\
  geometricSumDiscount 3 (1 # 2) 1 None * (1 # 2) == 1 - 1 / (1 + (1 # 2)) ^ 3.
Proof.
  split; [lia|]. split; [reflexivity|].
  exact (geometricSumDiscount_annuity 3 (1 # 2) ltac:(lia) ltac:(reflexivity)).
Defined.

(** *** The skipped term *)

Lemma discountSum_filter_skip r s from len :
  discountSum r (filter (keeps (Some s)) (zseq from len))
  + (if ((from <=? s) && (s <? from + Z.of_nat len))%Z then 1 / (1 + r) ^ s else 0)
  == discountSum r (zseq from len).
Proof.
  revert from; induction len as [|len IH]; intros from.
  - simpl. replace (from + 0)%Z with from by lia.
    destruct (Z.leb_spec from s), (Z.ltb_spec s from); simpl; try lia; ring.
  - change (zseq from (S len)) with (from :: zseq (from + 1) len).
    cbn [filter keeps]. rewrite discountSum_cons. specialize (IH (from + 1)%Z).
    destruct (Z.eqb_spec from s) as [->|Hne]; cbn [negb].
    + rewrite filter_keeps_past by lia.
      destruct (Z.leb_spec s s), (Z.ltb_spec s (s + Z.of_nat (S len))); simpl; try lia.
      ring.
    + rewrite discountSum_cons, <- IH.
      destruct (Z.leb_spec from s), (Z.ltb_spec s (from + Z.of_nat (S len))),
        (Z.leb_spec (from + 1) s), (Z.ltb_spec s (from + 1 + Z.of_nat len));
        simpl; try lia; ring.
Qed.

(** X3.  A skip index takes exactly its own term out of the discount sum
    when it is one of the offsets summed, and nothing otherwise. *)
Theorem geometricSumDiscount_skip (n : Z) (r : Q) (startMonth skipIndex : Z) :
  ((startMonth <= skipIndex < startMonth + n)%Z ->
   geometricSumDiscount n r startMonth (Some skipIndex)
   == geometricSumDiscount n r startMonth None - 1 / (1 + r) ^ skipIndex) /\
  (~ (startMonth <= skipIndex < startMonth + n)%Z ->
   geometricSumDiscount n r startMonth (Some skipIndex)
   == geometricSumDiscount n r startMonth None).
Proof.
  rewrite !geometricSumDiscount_spec, filter_keeps_None.
  pose proof (discountSum_filter_skip r skipIndex startMonth (Z.to_nat n)) as H.
  split; intros Hrange.
  - replace ((startMonth <=? skipIndex) && (skipIndex <? startMonth + Z.of_nat (Z.to_nat n)))%Z
      with true in H
      by (symmetry; apply andb_true_iff; split; [apply Z.leb_le | apply Z.ltb_lt]; lia).
    lra.
  - replace ((startMonth <=? skipIndex) && (skipIndex <? startMonth + Z.of_nat (Z.to_nat n)))%Z
      with false in H.
    + lra.
    + symmetry. apply andb_false_iff.
      destruct (Z.leb_spec startMonth skipIndex); [right|now left].
      apply Z.ltb_ge. lia.
Qed.

Lemma geometricSumDiscount_skip_witness :
  (1 <= 2 < 1 + 3)%Z /\ ~ (1 <= 7 < 1 + 3)%Z /\
  geometricSumDiscount 3 (1 # 2) 1 (Some 2%Z)
  == geometricSumDiscount 3 (1 # 2) 1 None - 1 / (1 + (1 # 2)) ^ 2 /\
  geometricSumDiscount 3 (1 # 2) 1 (Some 7%Z) == geometricSumDiscount 3 (1 # 2) 1 None.
Proof.
  split; [lia|]. split; [lia|].
  destruct (geometricSumDiscount_skip 3 (1 # 2) 1 2) as [Hin _].
  destruct (geometricSumDiscount_skip 3 (1 # 2) 1 7) as [_ Hout].
  split; [apply Hin; lia | apply Hout; lia].
Defined.

(** *** The schedules, month by month *)

Local Open Scope Z_scope.

Lemma monthCount_entryAt start T j : monthCount (entryAt start T j) = start + j.
Proof. unfold monthCount, entryAt; cbn [date]. apply newDate_dateStr. Qed.

Lemma map_shift_zseq start from len :
  map (fun j => start + j) (zseq from len) = zseq (start + from) len.
Proof.
  revert from; induction len as [|len IH]; intros from; simpl; [reflexivity|].
  rewrite IH. do 2 f_equal. lia.
Qed.

Lemma monthCount_entries start T js :
  map monthCount (map (entryAt start T) js) = map (fun j => start + j) js.
Proof.
  rewrite map_map. apply map_ext. intros j. apply monthCount_entryAt.
Qed.

(** X4.  The schedule of Model A: one installment of the amount given in
    each of the [n] months that follow the start month, in that order (and
    no entry for a count that is not positive). *)
Theorem scheduleConcurrent_months (inp : NPVInputs) (T : Q) :
  map monthCount (scheduleConcurrent inp T)
  = zseq (startDate inp + 1) (Z.to_nat (nInstallments inp)) /\
  Forall (fun entry => amount entry = T /\ type entry = installment)
    (scheduleConcurrent inp T).
Proof.
  rewrite scheduleConcurrent_spec. split.
  - rewrite monthCount_entries. apply map_shift_zseq.
  - apply Forall_forall. intros entry Hin.
    apply in_map_iff in Hin as (j & <- & _). split; reflexivity.
Qed.

Lemma skipOffsets_sorted rem j t :
  StronglySorted Z.lt (skipOffsets rem j t) /\
  Forall (fun x => j <= x <= j + Z.of_nat rem) (skipOffsets rem j t).
Proof.
  revert j; induction rem as [|rem IH]; intros j; cbn [skipOffsets].
  - split; constructor.
  - destruct (j =? t) eqn:Hjt.
    + destruct (IH (j + 2)) as [Hs _].
      assert (Hb : Forall (fun x => j + 2 <= x < j + 2 + Z.of_nat rem)
                     (skipOffsets rem (j + 2) t)).
      { apply Z.eqb_eq in Hjt.
        rewrite skipOffsets_past by lia. apply Forall_forall. intros x.
        apply in_zseq. }
      split.
      * constructor; [exact Hs|]. eapply Forall_impl; [|exact Hb]. cbn. lia.
      * constructor; [lia|]. eapply Forall_impl; [|exact Hb]. cbn. lia.
    + destruct (IH (j + 1)) as [Hs Hb]. split.
      * constructor; [exact Hs|]. eapply Forall_impl; [|exact Hb]. cbn. lia.
      * constructor; [lia|]. eapply Forall_impl; [|exact Hb]. cbn. lia.
Qed.

Lemma StronglySorted_map_shift start js :
  StronglySorted Z.lt js -> StronglySorted Z.lt (map (fun j => start + j) js).
Proof.
  induction 1 as [|j js Hs IH Hall]; cbn [map]; constructor; [exact IH|].
  apply Forall_map. eapply Forall_impl; [|exact Hall]. cbn. lia.
Qed.

(** X5.  The schedule of Model B is in strictly increasing calendar order
    (so no month is paid twice), every entry falls within the [n + 1] months
    that follow the start month, and every entry is an installment of the
    amount given. *)
Theorem scheduleSkip_increasing (inp : NPVInputs) (T : Q) :
  StronglySorted Z.lt (map monthCount (scheduleSkip inp T)) /\
  Forall (fun entry =>
            startDate inp + 1 <= monthCount entry
            <= startDate inp + Z.max 0 (nInstallments inp) + 1 /\
            amount entry = T /\ type entry = installment)
    (scheduleSkip inp T).
Proof.
  rewrite scheduleSkip_spec.
  destruct (skipOffsets_sorted (Z.to_nat (nInstallments inp)) 1
              (monthsBetween (startYear inp) (startMonth inp)
                 (downYear inp) (downMonth inp))) as [Hs Hb].
  split.
  - rewrite monthCount_entries. apply StronglySorted_map_shift. exact Hs.
  - apply Forall_forall. intros entry Hin.
    apply in_map_iff in Hin as (j & <- & Hj).
    rewrite Forall_forall in Hb. specialize (Hb j Hj). cbn beta in Hb.
    rewrite monthCount_entryAt. repeat split; lia.
Qed.

(** X6.  Where the down payment is due outside the offsets [1 .. n], Model B
    has the schedule of Model A; where it is due at an offset within
    [1 .. n], Model B pays in the [n + 1] months that follow the start month
    except the month of the down payment. *)
Theorem scheduleSkip_shape (inp : NPVInputs) (T : Q) :
  (~ 1 <= downOffset inp <= nInstallments inp ->
   scheduleSkip inp T = scheduleConcurrent inp T) /\
  (1 <= downOffset inp <= nInstallments inp ->
   map monthCount (scheduleSkip inp T)
   = filter (fun m => negb (m =? startDate inp + downOffset inp))
       (zseq (startDate inp + 1) (S (Z.to_nat (nInstallments inp))))).
Proof.
  unfold downOffset. rewrite scheduleSkip_spec, scheduleConcurrent_spec.
  set (t := monthsBetween _ _ _ _). split; intros Ht.
  - f_equal. destruct (Z.lt_ge_cases t 1); [apply skipOffsets_past; lia|].
    apply skipOffsets_beyond. lia.
  - rewrite monthCount_entries, skipOffsets_window by lia.
    rewrite <- map_shift_zseq.
    generalize (zseq 1 (S (Z.to_nat (nInstallments inp)))). intros js.
    induction js as [|j js IH]; cbn [map filter keeps]; [reflexivity|].
    replace (startDate inp + j =? startDate inp + t) with (j =? t)
      by (destruct (Z.eqb_spec j t), (Z.eqb_spec (startDate inp + j) (startDate inp + t));
          lia || reflexivity).
    destruct (j =? t); cbn [negb map]; now rewrite IH.
Qed.

Lemma scheduleSkip_shape_witness :
  1 <= downOffset sixInstallments <= nInstallments sixInstallments /\
  map date (scheduleSkip sixInstallments 1000%Q)
  = [mkYearMonth 2025 2; mkYearMonth 2025 3; mkYearMonth 2025 5; mkYearMonth 2025 6;
     mkYearMonth 2025 7; mkYearMonth 2025 8] /\
  map monthCount (scheduleSkip sixInstallments 1000%Q)
  = filter (fun m => negb (m =? startDate sixInstallments + downOffset sixInstallments))
      (zseq (startDate sixInstallments + 1) (S (Z.to_nat (nInstallments sixInstallments)))) /\
  ~ 1 <= downOffset downPaymentNow <= nInstallments downPaymentNow /\
  scheduleSkip downPaymentNow 1000%Q = scheduleConcurrent downPaymentNow 1000%Q.
Proof.
  split; [cbn; lia|]. split; [reflexivity|].
  destruct (scheduleSkip_shape sixInstallments 1000%Q) as [_ Hin].
  destruct (scheduleSkip_shape downPaymentNow 1000%Q) as [Hout _].
  split; [apply Hin; cbn; lia|].
  split; [cbn; lia|]. apply Hout. cbn; lia.
Defined.

(** *** The result of the solver *)

Local Open Scope Q_scope.

Lemma discount_factor_later r j k :
  0 < r -> (j < k)%Z -> 1 / (1 + r) ^ k < 1 / (1 + r) ^ j.
Proof.
  intros Hr Hjk.
  assert (HA : 0 < (1 + r) ^ j) by (apply Qpower_0_lt; lra).
  assert (HAB : (1 + r) ^ j < (1 + r) ^ k) by (apply Qpower_lt_compat_l; [lia | lra]).
  apply Qlt_shift_div_l; [lra|].
  assert (E : 1 / (1 + r) ^ k * (1 + r) ^ j == (1 + r) ^ j / (1 + r) ^ k) by (field; lra).
  rewrite E. apply Qlt_shift_div_r; lra.
Qed.

Lemma discount_factor_le_1 r j : 0 <= r -> (0 <= j)%Z -> 1 / (1 + r) ^ j <= 1.
Proof.
  intros Hr Hj.
  assert (H1 : 1 <= (1 + r) ^ j) by (apply Qpower_1_le; [lra | lia]).
  apply Qle_shift_div_r; lra.
Qed.

Lemma discountSum_le_length r js :
  0 <= r -> (forall j, In j js -> (0 <= j)%Z) ->
  discountSum r js <= inject_Z (Z.of_nat (List.length js)).
Proof.
  intros Hr. induction js as [|j js IH]; intros Hjs.
  - apply Qle_refl.
  - cbn [discountSum fold_right List.length]. fold (discountSum r js).
    rewrite Nat2Z.inj_succ, <- Z.add_1_r, inject_Z_plus.
    pose proof (discount_factor_le_1 r j Hr (Hjs j (or_introl eq_refl))).
    specialize (IH (fun x Hx => Hjs x (or_intror Hx))).
    change (inject_Z 1) with 1. lra.
Qed.

Lemma discountSum_skipOffsets r n t :
  (1 <= t <= 1 + Z.of_nat n)%Z ->
  discountSum r (skipOffsets n 1 t)
  == discountSum r (zseq 1 n) + 1 / (1 + r) ^ (1 + Z.of_nat n) - 1 / (1 + r) ^ t.
Proof.
  intros Ht. rewrite skipOffsets_window by lia.
  pose proof (discountSum_filter_skip r t 1 (S n)) as H.
  replace ((1 <=? t) && (t <? 1 + Z.of_nat (S n)))%Z with true in H
    by (symmetry; apply andb_true_iff; split; [apply Z.leb_le | apply Z.ltb_lt]; lia).
  assert (E : discountSum r (zseq 1 (S n))
              == discountSum r (zseq 1 n) + 1 / (1 + r) ^ (1 + Z.of_nat n)).
  { rewrite zseq_snoc, discountSum_app. cbn [discountSum fold_right]. ring. }
  lra.
Qed.

Lemma paymentsTotal_entries start T js :
  paymentsTotal (map (entryAt start T) js) == T * inject_Z (Z.of_nat (List.length js)).
Proof.
  induction js as [|j js IH].
  - simpl. ring.
  - cbn [map paymentsTotal fold_right List.length]. fold (paymentsTotal (map (entryAt start T) js)).
    rewrite IH, Nat2Z.inj_succ, <- Z.add_1_r, inject_Z_plus.
    cbn [entryAt amount]. change (inject_Z 1) with 1. ring.
Qed.

Lemma inject_Z_count n : (0 <= n)%Z -> inject_Z (Z.of_nat (Z.to_nat n)) = inject_Z n.
Proof. intros Hn. now rewrite Z2Nat.id. Qed.

(** X7.  In either mode, for a plan of at least one installment, the nominal
    total reported for a model is the down payment plus everything that
    model's schedule pays. *)
Theorem nominalTotal_is_paid (inp : NPVInputs) (res : NPVResult) :
  (1 <= nInstallments inp)%Z ->
  calculateNPV inp = Returned res ->
  nominalTotal (modelA res) == downAmount inp + paymentsTotal (schedule (modelA res)) /\
  nominalTotal (modelB res) == downAmount inp + paymentsTotal (schedule (modelB res)).
Proof.
  intros Hn Hres. unfold calculateNPV in Hres.
  assert (Hcount : ~ inject_Z (nInstallments inp) == 0).
  { unfold Qeq. cbn. lia. }
  destruct (targetPv inp) as [target|]; [|destruct (targetNominal inp) as [target|]];
    [| |discriminate];
    injection Hres as <-; cbn [modelA modelB nominalTotal schedule];
    rewrite scheduleConcurrent_spec, scheduleSkip_spec, !paymentsTotal_entries,
      zseq_length, skipOffsets_length, inject_Z_count by lia.
  - split; ring.
  - split; field; exact Hcount.
Qed.

Lemma nominalTotal_is_paid_witness :
  (1 <= nInstallments sixInstallmentsNominal)%Z /\
  exists res, calculateNPV sixInstallmentsNominal = Returned res /\
  nominalTotal (modelA res)
  == downAmount sixInstallmentsNominal + paymentsTotal (schedule (modelA res)) /\
  nominalTotal (modelB res)
  == downAmount sixInstallmentsNominal + paymentsTotal (schedule (modelB res)).
Proof.
  split; [cbn; lia|]. eexists. split; [reflexivity|].
  apply (nominalTotal_is_paid sixInstallmentsNominal); [cbn; lia | reflexivity].
Defined.

Lemma skipSum_in_window inp :
  (1 <= nInstallments inp)%Z -> inWindow inp ->
  geometricSumDiscount (nInstallments inp + 1) (monthlyRate inp) 1
    (if ((1 <=? downOffset inp) && (downOffset inp <=? nInstallments inp + 1))%Z
     then Some (downOffset inp) else None)
  == discountSum (monthlyRate inp) (skipOffsets (Z.to_nat (nInstallments inp)) 1 (downOffset inp)).
Proof.
  intros Hn Hw. unfold inWindow in Hw.
  destruct (Z.leb_spec 1 (downOffset inp)); [|lia].
  destruct (Z.leb_spec (downOffset inp) (nInstallments inp + 1)); [|lia].
  cbn [andb]. rewrite geometricSumDiscount_spec.
  replace (Z.to_nat (nInstallments inp + 1)) with (S (Z.to_nat (nInstallments inp))) by lia.
  rewrite <- skipOffsets_window by lia. reflexivity.
Qed.

Lemma skipSum_outside_window inp :
  (1 <= nInstallments inp)%Z -> ~ inWindow inp ->
  geometricSumDiscount (nInstallments inp + 1) (monthlyRate inp) 1
    (if ((1 <=? downOffset inp) && (downOffset inp <=? nInstallments inp + 1))%Z
     then Some (downOffset inp) else None)
  == discountSum (monthlyRate inp) (zseq 1 (Z.to_nat (nInstallments inp)))
     + 1 / (1 + monthlyRate inp) ^ (nInstallments inp + 1).
Proof.
  intros Hn Hw. unfold inWindow in Hw.
  replace ((1 <=? downOffset inp) && (downOffset inp <=? nInstallments inp + 1))%Z with false.
  - rewrite geometricSumDiscount_spec, filter_keeps_None.
    replace (Z.to_nat (nInstallments inp + 1)) with (S (Z.to_nat (nInstallments inp))) by lia.
    rewrite zseq_snoc, discountSum_app. cbn [discountSum fold_right].
    replace (1 + Z.of_nat (Z.to_nat (nInstallments inp)))%Z with (nInstallments inp + 1)%Z by lia.
    ring.
  - symmetry. apply andb_false_iff.
    destruct (Z.leb_spec 1 (downOffset inp)); [right|now left].
    apply Z.leb_gt. lia.
Qed.

(** X29.  The value of a schedule, recomputed from the dates written in
    it, is the amount times the discount sum of the solver: for the schedule
    of Model A the sum over [1 .. n]; for that of Model B the sum over
    [1 .. n + 1] without the offset of the down payment where that offset
    lies in [1 .. n + 1], and the sum over [1 .. n] where it lies outside
    [1 .. n]. *)
Theorem schedule_value_is_discount_sum (inp : NPVInputs) (T : Q) :
  pvOfSchedule (scheduleConcurrent inp T) inp
  == T * geometricSumDiscount (nInstallments inp) (monthlyRate inp) 1 None /\
  ((0 <= nInstallments inp)%Z -> inWindow inp ->
   pvOfSchedule (scheduleSkip inp T) inp
   == T * geometricSumDiscount (nInstallments inp + 1) (monthlyRate inp) 1
            (Some (downOffset inp))) /\
  (~ (1 <= downOffset inp <= nInstallments inp)%Z ->
   pvOfSchedule (scheduleSkip inp T) inp
   == T * geometricSumDiscount (nInstallments inp) (monthlyRate inp) 1 None).
Proof.
  rewrite scheduleConcurrent_spec, scheduleSkip_spec, !pvOfSchedule_entries.
  fold (downOffset inp). rewrite !geometricSumDiscount_spec, filter_keeps_None.
  split; [reflexivity|]. split.
  - intros Hn Hw. unfold inWindow in Hw.
    replace (Z.to_nat (nInstallments inp + 1)) with (S (Z.to_nat (nInstallments inp)))
      by lia.
    rewrite <- skipOffsets_window by lia. reflexivity.
  - intros Hout.
    replace (skipOffsets (Z.to_nat (nInstallments inp)) 1 (downOffset inp))
      with (zseq 1 (Z.to_nat (nInstallments inp))); [reflexivity|].
    symmetry. destruct (Z.lt_ge_cases (downOffset inp) 1);
      [apply skipOffsets_past; lia | apply skipOffsets_beyond; lia].
Qed.

Lemma schedule_value_is_discount_sum_witness :
  (0 <= nInstallments sixInstallments)%Z /\ inWindow sixInstallments /\
  pvOfSchedule (scheduleSkip sixInstallments 1000) sixInstallments
  == 1000 * geometricSumDiscount (nInstallments sixInstallments + 1)
              (monthlyRate sixInstallments) 1 (Some (downOffset sixInstallments)).
Proof.
  assert (Hn : (0 <= nInstallments sixInstallments)%Z) by (cbn; lia).
  assert (Hw : inWindow sixInstallments) by (unfold inWindow; cbn; lia).
  split; [exact Hn|]. split; [exact Hw|].
  exact (proj1 (proj2 (schedule_value_is_discount_sum sixInstallments 1000)) Hn Hw).
Defined.

(** X8.  With a target present value, at least one installment and a rate
    above -100%, Model A always reproduces the target; Model B reproduces it
    exactly when the down payment is due at an offset in [1 .. n + 1] or the
    discounted down payment alone already equals the target. *)
Theorem target_reproduced (inp : NPVInputs) (target : Q) (res : NPVResult) :
  targetPv inp = Some target ->
  (1 <= nInstallments inp)%Z -> -1 < monthlyRate inp ->
  calculateNPV inp = Returned res ->
  modelPresentValue (modelA res) == target /\
  (modelPresentValue (modelB res) == target <->
   inWindow inp \/ downPaymentPV res == target).
Proof.
  intros Ht Hn Hr Hres. split.
  { unfold calculateNPV in Hres. rewrite Ht in Hres.
    injection Hres as <-. cbn [modelA modelPresentValue].
    rewrite scheduleConcurrent_spec, pvOfSchedule_entries.
    rewrite geometricSumDiscount_spec, filter_keeps_None.
    assert (0 < discountSum (monthlyRate inp) (zseq 1 (Z.to_nat (nInstallments inp)))).
    { apply discountSum_pos; [assumption | apply zseq_nonempty; lia]. }
    field. lra. }
  unfold calculateNPV in Hres. rewrite Ht in Hres.
  injection Hres as <-. cbn [modelB modelPresentValue downPaymentPV].
  fold (downOffset inp).
  set (pvDown := presentValue (downAmount inp) (downOffset inp) (monthlyRate inp)).
  rewrite scheduleSkip_spec, pvOfSchedule_entries. fold (downOffset inp).
  assert (Hdec : inWindow inp \/ ~ inWindow inp) by (unfold inWindow; lia).
  destruct Hdec as [Hw|Hw].
  - rewrite skipSum_in_window by assumption.
    assert (0 < discountSum (monthlyRate inp)
                  (skipOffsets (Z.to_nat (nInstallments inp)) 1 (downOffset inp))).
    { apply discountSum_pos; [assumption | apply skipOffsets_nonempty; lia]. }
    split; [intros _; now left|]. intros _. field. lra.
  - rewrite skipSum_outside_window by assumption.
    assert (Hskip : skipOffsets (Z.to_nat (nInstallments inp)) 1 (downOffset inp)
                    = zseq 1 (Z.to_nat (nInstallments inp))).
    { unfold inWindow in Hw.
      destruct (Z.lt_ge_cases (downOffset inp) 1); [apply skipOffsets_past; lia|].
      apply skipOffsets_beyond. lia. }
    rewrite Hskip.
    set (S := discountSum (monthlyRate inp) (zseq 1 (Z.to_nat (nInstallments inp)))).
    assert (HS : 0 < S) by (apply discountSum_pos; [assumption | apply zseq_nonempty; lia]).
    pose proof (discount_factor_pos (monthlyRate inp) (nInstallments inp + 1) Hr) as Hd.
    set (d := 1 / (1 + monthlyRate inp) ^ (nInstallments inp + 1)) in *.
    assert (E : pvDown + (target - pvDown) / (S + d) * S - target
                == (pvDown - target) * (d / (S + d))) by (field; lra).
    assert (Hq : 0 < d / (S + d)) by (apply Qlt_shift_div_l; lra).
    split.
    + intros Heq. right.
      assert (Hz : (pvDown - target) * (d / (S + d)) == 0) by (rewrite <- E, Heq; ring).
      apply Qmult_integral in Hz. destruct Hz as [Hz|Hz]; lra.
    + intros [Hin|Heq]; [contradiction|].
      assert (Hz : pvDown + (target - pvDown) / (S + d) * S - target == 0)
        by (rewrite E, Heq; ring).
      lra.
Qed.

Lemma target_reproduced_witness :
  exists res, calculateNPV sixInstallments = Returned res /\
  modelPresentValue (modelA res) == 1000000 /\
  (modelPresentValue (modelB res) == 1000000 <->
   inWindow sixInstallments \/ downPaymentPV res == 1000000).
Proof.
  eexists. split; [reflexivity|].
  apply (target_reproduced sixInstallments 1000000);
    [reflexivity | cbn; lia | cbn; lra | reflexivity].
Defined.

(** X9.  With a target nominal total above the down payment, both models
    pay the same installment, [(target - down) / n]; at a positive rate and
    with the down payment due at an offset in [1 .. n], the deferral of
    Model B makes its present value strictly lower than that of Model A. *)
Theorem deferral_lowers_present_value (inp : NPVInputs) (target : Q) (res : NPVResult) :
  targetPv inp = None -> targetNominal inp = Some target ->
  0 < monthlyRate inp -> downAmount inp < target ->
  (1 <= downOffset inp <= nInstallments inp)%Z ->
  calculateNPV inp = Returned res ->
  monthlyInstallment (modelA res) = monthlyInstallment (modelB res) /\
  monthlyInstallment (modelA res) * inject_Z (nInstallments inp)
  == target - downAmount inp /\
  modelPresentValue (modelB res) < modelPresentValue (modelA res).
Proof.
  intros Hpv Hnom Hr Hdown Ht Hres. unfold calculateNPV in Hres.
  rewrite Hpv, Hnom in Hres. injection Hres as <-.
  cbn [modelA modelB monthlyInstallment modelPresentValue].
  assert (Hcount : 0 < inject_Z (nInstallments inp)) by (unfold Qlt; cbn; lia).
  split; [reflexivity|]. split; [field; lra|].
  rewrite scheduleConcurrent_spec, scheduleSkip_spec, !pvOfSchedule_entries.
  fold (downOffset inp).
  rewrite discountSum_skipOffsets by lia.
  assert (HT : 0 < (target - downAmount inp) / inject_Z (nInstallments inp))
    by (apply Qlt_shift_div_l; lra).
  pose proof (discount_factor_later (monthlyRate inp) (downOffset inp)
                (1 + Z.of_nat (Z.to_nat (nInstallments inp))) Hr ltac:(lia)) as Hlater.
  set (T := (target - downAmount inp) / inject_Z (nInstallments inp)) in *.
  nra.
Qed.

Lemma deferral_lowers_present_value_witness :
  exists res, calculateNPV sixInstallmentsNominal = Returned res /\
  monthlyInstallment (modelA res) = monthlyInstallment (modelB res) /\
  monthlyInstallment (modelA res) * inject_Z (nInstallments sixInstallmentsNominal)
  == 1200000 - downAmount sixInstallmentsNominal /\
  modelPresentValue (modelB res) < modelPresentValue (modelA res).
Proof.
  eexists. split; [reflexivity|].
  apply (deferral_lowers_present_value sixInstallmentsNominal 1200000);
    [reflexivity | reflexivity | cbn; lra | cbn; lra | cbn; lia | reflexivity].
Defined.

Lemma presentValue_le_amount amount months r :
  0 <= r -> (0 <= months)%Z -> 0 <= amount -> presentValue amount months r <= amount.
Proof.
  intros Hr Hm Ha. unfold presentValue.
  assert (H1 : 1 <= (1 + r) ^ months) by (apply Qpower_1_le; [lra | lia]).
  apply Qle_shift_div_r; [lra | nra].
Qed.

(** X10.  With a target price, a rate that is not negative, a down payment
    between zero and the price that is not due before the start, and at
    least one installment, no model asks for a negative installment, the
    nominal total of Model A is at least the price, and so is that of
    Model B when the down payment is due at an offset in [1 .. n + 1]. *)
Theorem plan_costs_at_least_target (inp : NPVInputs) (target : Q) (res : NPVResult) :
  targetPv inp = Some target ->
  (1 <= nInstallments inp)%Z -> 0 <= monthlyRate inp ->
  (0 <= downOffset inp)%Z -> 0 <= downAmount inp <= target ->
  calculateNPV inp = Returned res ->
  0 <= monthlyInstallment (modelA res) /\
  target <= nominalTotal (modelA res) /\
  0 <= monthlyInstallment (modelB res) /\
  (inWindow inp -> target <= nominalTotal (modelB res)).
Proof.
  intros Hpv Hn Hr Ht Hdown Hres. unfold calculateNPV in Hres.
  rewrite Hpv in Hres. injection Hres as <-.
  cbn [modelA modelB monthlyInstallment nominalTotal]. fold (downOffset inp).
  pose proof (presentValue_le_amount (downAmount inp) (downOffset inp) (monthlyRate inp)
                Hr Ht ltac:(lra)) as Hpvd.
  set (pvDown := presentValue (downAmount inp) (downOffset inp) (monthlyRate inp)) in *.
  assert (Hr' : -1 < monthlyRate inp) by lra.
  assert (Hcount : inject_Z (Z.of_nat (Z.to_nat (nInstallments inp)))
                   = inject_Z (nInstallments inp)) by (apply inject_Z_count; lia).
  assert (Hratio : forall js,
             js <> [] -> (forall j, In j js -> (0 <= j)%Z) ->
             List.length js = Z.to_nat (nInstallments inp) ->
             0 <= (target - pvDown) / discountSum (monthlyRate inp) js /\
             target <= downAmount inp
                       + (target - pvDown) / discountSum (monthlyRate inp) js
                         * inject_Z (nInstallments inp)).
  { intros js Hne Hjs Hlen.
    pose proof (discountSum_pos (monthlyRate inp) js Hr' Hne) as Hpos.
    pose proof (discountSum_le_length (monthlyRate inp) js Hr Hjs) as Hle.
    rewrite Hlen, Hcount in Hle.
    set (S := discountSum (monthlyRate inp) js) in *.
    assert (HT : 0 <= (target - pvDown) / S) by (apply Qle_shift_div_l; lra).
    split; [exact HT|].
    assert (E : (target - pvDown) / S * S == target - pvDown) by (field; lra).
    nra. }
  destruct (Hratio (zseq 1 (Z.to_nat (nInstallments inp)))) as [HA1 HA2].
  { apply zseq_nonempty; lia. }
  { intros j Hj. apply in_zseq in Hj. lia. }
  { apply zseq_length. }
  rewrite geometricSumDiscount_spec, filter_keeps_None.
  split; [exact HA1|]. split; [exact HA2|].
  assert (Hdec : inWindow inp \/ ~ inWindow inp) by (unfold inWindow; lia).
  destruct Hdec as [Hw|Hw].
  - rewrite skipSum_in_window by assumption.
    destruct (Hratio (skipOffsets (Z.to_nat (nInstallments inp)) 1 (downOffset inp)))
      as [HB1 HB2].
    { apply skipOffsets_nonempty; lia. }
    { intros j Hj.
      destruct (skipOffsets_sorted (Z.to_nat (nInstallments inp)) 1 (downOffset inp))
        as [_ Hb].
      rewrite Forall_forall in Hb. specialize (Hb j Hj). cbn beta in Hb. lia. }
    { apply skipOffsets_length. }
    split; [exact HB1 | intros _; exact HB2].
  - rewrite skipSum_outside_window by assumption.
    split; [|intros Hin; contradiction].
    pose proof (discountSum_pos (monthlyRate inp) (zseq 1 (Z.to_nat (nInstallments inp)))
                  Hr' ltac:(apply zseq_nonempty; lia)) as Hpos.
    pose proof (discount_factor_pos (monthlyRate inp) (nInstallments inp + 1) Hr').
    apply Qle_shift_div_l; lra.
Qed.

Lemma plan_costs_at_least_target_witness :
  exists res, calculateNPV sixInstallments = Returned res /\
  0 <= monthlyInstallment (modelA res) /\
  1000000 <= nominalTotal (modelA res) /\
  0 <= monthlyInstallment (modelB res) /\
  (inWindow sixInstallments -> 1000000 <= nominalTotal (modelB res)).
Proof.
  eexists. split; [reflexivity|].
  apply (plan_costs_at_least_target sixInstallments 1000000);
    [reflexivity | cbn; lia | cbn; lra | cbn; lia | cbn; lra | reflexivity].
Defined.

(** The two installments of target-present-value mode, as the solver
    computes them, compared. *)
Lemma deferred_installment (inp : NPVInputs) (target : Q) :
  0 < monthlyRate inp ->
  presentValue (downAmount inp) (downOffset inp) (monthlyRate inp) < target ->
  (1 <= downOffset inp <= nInstallments inp + 1)%Z ->
  let remainingPv :=
    target - presentValue (downAmount inp) (downOffset inp) (monthlyRate inp) in
  let tCon :=
    remainingPv / geometricSumDiscount (nInstallments inp) (monthlyRate inp) 1 None in
  let tSkip :=
    remainingPv
    / geometricSumDiscount (nInstallments inp + 1) (monthlyRate inp) 1
        (if ((1 <=? downOffset inp) && (downOffset inp <=? nInstallments inp + 1))%Z
         then Some (downOffset inp) else None) in
  ((downOffset inp <= nInstallments inp)%Z -> tCon < tSkip) /\
  (downOffset inp = (nInstallments inp + 1)%Z -> (1 <= nInstallments inp)%Z ->
   tCon == tSkip).
Proof.
  intros Hr Hrem Ht. cbv zeta.
  set (pvDown := presentValue (downAmount inp) (downOffset inp) (monthlyRate inp)) in *.
  assert (Hr' : -1 < monthlyRate inp) by lra.
  rewrite (geometricSumDiscount_spec (nInstallments inp)), filter_keeps_None.
  split.
  - intros Hle.
    assert (Hn : (1 <= nInstallments inp)%Z) by lia.
    rewrite skipSum_in_window by (assumption || (unfold inWindow; lia)).
    rewrite discountSum_skipOffsets by lia.
    pose proof (discountSum_pos (monthlyRate inp)
                  (skipOffsets (Z.to_nat (nInstallments inp)) 1 (downOffset inp))
                  Hr' ltac:(apply skipOffsets_nonempty; lia)) as HposB.
    rewrite discountSum_skipOffsets in HposB by lia.
    pose proof (discount_factor_later (monthlyRate inp) (downOffset inp)
                  (1 + Z.of_nat (Z.to_nat (nInstallments inp))) Hr ltac:(lia)) as Hlater.
    set (S := discountSum (monthlyRate inp) (zseq 1 (Z.to_nat (nInstallments inp)))) in *.
    set (dn := 1 / (1 + monthlyRate inp) ^ (1 + Z.of_nat (Z.to_nat (nInstallments inp)))) in *.
    set (dt := 1 / (1 + monthlyRate inp) ^ downOffset inp) in *.
    assert (E : (target - pvDown) / (S + dn - dt) - (target - pvDown) / S
                == (target - pvDown) * (dt - dn) * (1 / (S * (S + dn - dt))))
      by (field; lra).
    assert (0 < 1 / (S * (S + dn - dt))) by (apply Qlt_shift_div_l; nra).
    assert (0 < (target - pvDown) * (dt - dn)) by nra.
    nra.
  - intros Heq Hn.
    rewrite skipSum_in_window by (assumption || (unfold inWindow; lia)).
    rewrite skipOffsets_beyond by lia. reflexivity.
Qed.

(** X11.  With a target price above the discounted down payment and a
    positive rate, deferring the schedule past the down payment costs: for a
    down payment due at an offset in [1 .. n] the installment and the
    nominal total of Model B are strictly above those of Model A; at offset
    [n + 1] the two models ask for the same installment and the same total. *)
Theorem deferral_raises_installment (inp : NPVInputs) (target : Q) (res : NPVResult) :
  targetPv inp = Some target ->
  0 < monthlyRate inp ->
  presentValue (downAmount inp) (downOffset inp) (monthlyRate inp) < target ->
  (1 <= downOffset inp <= nInstallments inp + 1)%Z ->
  calculateNPV inp = Returned res ->
  ((downOffset inp <= nInstallments inp)%Z ->
   monthlyInstallment (modelA res) < monthlyInstallment (modelB res) /\
   nominalTotal (modelA res) < nominalTotal (modelB res)) /\
  (downOffset inp = (nInstallments inp + 1)%Z ->
   (1 <= nInstallments inp)%Z ->
   monthlyInstallment (modelA res) == monthlyInstallment (modelB res) /\
   nominalTotal (modelA res) == nominalTotal (modelB res)).
Proof.
  intros Hpv Hr Hrem Ht Hres.
  destruct (deferred_installment inp target Hr Hrem Ht) as [Hin Hedge].
  unfold calculateNPV in Hres. rewrite Hpv in Hres. injection Hres as <-.
  cbn [modelA modelB monthlyInstallment nominalTotal]. fold (downOffset inp).
  split.
  - intros Hle. specialize (Hin Hle). split; [exact Hin|].
    assert (Hcount : 0 < inject_Z (nInstallments inp)) by (unfold Qlt; cbn; lia).
    nra.
  - intros Heq Hn. specialize (Hedge Heq Hn). split; [exact Hedge|].
    now rewrite Hedge.
Qed.

Lemma deferral_raises_installment_witness :
  exists res, calculateNPV sixInstallments = Returned res /\
  monthlyInstallment (modelA res) < monthlyInstallment (modelB res) /\
  nominalTotal (modelA res) < nominalTotal (modelB res).
Proof.
  eexists. split; [reflexivity|].
  apply (deferral_raises_installment sixInstallments 1000000);
    [reflexivity | cbn; lra | vm_compute; reflexivity | cbn; lia | reflexivity | cbn; lia].
Defined.

End NpvMoreFacts.

(** ** Further facts about the engine *)

Module ChatbotMoreFacts.

Import JsString Chatbot ChatbotTerms ChatbotMoreTerms ChatbotFacts.
Local Open Scope string_scope.
Local Open Scope Z_scope.

(** The response a reply carries. *)
Ltac shape :=
  cbn [returns remembered reply replyWithState replyWithResult
       npvResult newState message].

Lemma returns_andThen P flow next :
  returns P flow -> (forall newState, returns P (next newState)) ->
  returns P (andThen flow next).
Proof. destruct flow; cbn; auto. Qed.

Lemma returns_need {A} P (field : option A) use :
  (forall value, field = Some value -> returns P (use value)) ->
  returns P (need field use).
Proof. destruct field; cbn; auto. Qed.

(** Case analysis along the branches of a block. *)
Ltac branches :=
  repeat match goal with
         | |- returns _ (andThen _ _) => apply returns_andThen; [|intros ?]
         | |- returns _ (need _ _) => apply returns_need; intros ? ?
         | |- returns _ (if ?c then _ else _) => destruct c eqn:?
         | |- returns _ (match ?x with _ => _ end) => destruct x eqn:?
         | |- returns _ (let (_, _) := ?x in _) => destruct x eqn:?
         | |- returns _ _ => progress cbv beta zeta
         end.

Lemma continuesWith_andThen given flow next :
  continuesWith given flow -> continuesWith given (next given) ->
  continuesWith given (andThen flow next).
Proof. destruct flow; cbn; intros; subst; auto. Qed.

Lemma continuesWith_need {A} given (field : option A) use :
  (forall value, continuesWith given (use value)) ->
  continuesWith given (need field use).
Proof. destruct field; cbn; auto. Qed.

(** Case analysis along the branches of a block that goes on. *)
Ltac goes_on :=
  repeat match goal with
         | |- continuesWith _ (andThen _ _) => apply continuesWith_andThen
         | |- continuesWith _ (need _ _) => apply continuesWith_need; intros ?
         | |- continuesWith _ (if ?c then _ else _) => destruct c
         | |- continuesWith _ (match ?x with _ => _ end) => destruct x
         end;
  try exact I; try reflexivity.

Lemma firstReturn_Forall P flows response :
  Forall (returns P) flows -> firstReturn flows = Some response -> P response.
Proof.
  induction 1 as [|flow flows Hflow _ IH]; cbn; [discriminate|].
  destruct flow; try discriminate; [|exact IH].
  intros [= <-]. exact Hflow.
Qed.

(** *** The search for a higher down payment *)

Lemma downSearchLoop_found fuel solve desired ceiling step' vars found :
  downSearchLoop fuel solve desired ceiling step' vars
  = Some (NpvCalculator.Returned found) ->
  foundFeasible vars = false ->
  foundFeasible found = true ->
  (searchDownAmount found <= ceiling)%Q /\
  (exists turns : nat,
     (searchDownAmount found
      == searchDownAmount vars + inject_Z (Z.of_nat turns) * step')%Q) /\
  exists result,
    solve (searchDownAmount found) = NpvCalculator.Returned result /\
    suggestedInstallment found
    = NpvCalculator.monthlyInstallment (NpvCalculator.modelA result) /\
    withinFiveThousand (suggestedInstallment found) desired = true.
Proof.
  revert vars. induction fuel as [|fuel IH]; intros vars; cbn [downSearchLoop];
    intros Hloop Hvars Hfound; rewrite Hvars in Hloop; cbn [negb] in Hloop;
    rewrite andb_true_r in Hloop;
    destruct (Qleb (searchDownAmount vars) ceiling) eqn:Hroom;
    try discriminate Hloop;
    try (injection Hloop as <-; congruence).
  destruct (solve (searchDownAmount vars)) as [result|msg] eqn:Hsolve;
    [|discriminate Hloop].
  destruct (withinFiveThousand
              (NpvCalculator.monthlyInstallment (NpvCalculator.modelA result)) desired)
    eqn:Hwithin.
  - destruct fuel as [|fuel']; cbn [downSearchLoop foundFeasible negb andb] in Hloop;
      rewrite ?andb_false_r in Hloop; injection Hloop as <-;
      cbn [searchDownAmount suggestedInstallment];
      (split; [now apply Qle_bool_iff|]); (split; [exists O; cbn; ring|]); eauto.
  - destruct (IH _ Hloop eq_refl Hfound) as (Hceiling & (turns & Hturns) & Hresult).
    split; [exact Hceiling|]. split; [|exact Hresult].
    exists (S turns). rewrite Hturns. cbn [searchDownAmount].
    rewrite Nat2Z.inj_succ, <- Z.add_1_r, inject_Z_plus. change (inject_Z 1) with 1%Q. ring.
Qed.

(** *** What the parsers let through *)

Lemma parseYear_range input year' :
  parseYear input = Some year' -> 2000 < year' < 2100.
Proof.
  unfold parseYear. destruct (matchFourDigits (trim input)) as [digits|]; [|discriminate].
  destruct (Z.ltb_spec 2000 (parseInt digits)), (Z.ltb_spec (parseInt digits) 2100);
    cbn [andb]; intros [= <-]; lia.
Qed.

Lemma parseMonth_range input month' :
  parseMonth input = Some month' -> 1 <= month' <= 12.
Proof.
  unfold parseMonth.
  set (lowered := toLowerCase (trim input)).
  assert (Hname : option_map snd
                    (find (fun entry => includes lowered (fst entry)) monthNames)
                  = Some month' -> 1 <= month' <= 12).
  { destruct (find _ monthNames) as [entry|] eqn:Hfind; [|discriminate].
    apply find_some in Hfind. destruct Hfind as [Hin _]. intros [= <-].
    unfold monthNames in Hin. cbn [In] in Hin.
    repeat (destruct Hin as [<-|Hin]; [cbn; lia|]). contradiction. }
  destruct (matchOneOrTwoDigits lowered) as [digits|]; [|exact Hname].
  destruct (Z.leb_spec 1 (parseInt digits)), (Z.leb_spec (parseInt digits) 12);
    cbn [andb]; try exact Hname.
  intros [= <-]. lia.
Qed.

Lemma parseInstallments_range input count :
  parseInstallments input = Some count -> 0 < count.
Proof.
  unfold parseInstallments. destruct (matchDigits input) as [digits|]; [|discriminate].
  destruct (Z.ltb_spec 0 (parseInt digits)); intros [= <-]. lia.
Qed.

Lemma parseAmount_range input amount :
  parseAmount input = Some amount -> (0 < amount)%Q.
Proof.
  unfold parseAmount. destruct (evIdPattern (trim input)); [discriminate|].
  destruct (filterChars isDigit (trim input)); [discriminate|].
  destruct (isFinite _); [|discriminate].
  destruct (Qlt_le_dec 0 _); intros [= <-]. assumption.
Qed.

Lemma positiveRate_range value annual info :
  positiveRate value annual = Some info ->
  (0 < rate info)%Q /\ isAnnual info = annual.
Proof.
  unfold positiveRate. destruct (Qlt_le_dec 0 value); intros [= <-]. now split.
Qed.

Lemma parseMonthlyRate_range input info :
  parseMonthlyRate input = Some info -> (0 < rate info)%Q.
Proof.
  unfold parseMonthlyRate.
  destruct (matchPercent input) as [[lead number]|].
  - intros H. now apply positiveRate_range in H.
  - destruct (matchNumber input); [|discriminate].
    intros H. now apply positiveRate_range in H.
Qed.

Lemma parseInterestRate_range input info :
  parseInterestRate input = Some info -> (0 < rate info)%Q.
Proof.
  unfold parseInterestRate.
  destruct (_ || _)%bool; [|apply parseMonthlyRate_range].
  destruct (matchPercent input) as [[lead number]|].
  - intros H. now apply positiveRate_range in H.
  - destruct (matchNumber input); [|apply parseMonthlyRate_range].
    intros H. now apply positiveRate_range in H.
Qed.

(** *** The identifier of a property *)

Lemma upperChar_classes c :
  isLetter (upperChar c) = isLetter c /\
  isAlnum (upperChar c) = isAlnum c /\
  isDigit (upperChar c) = isDigit c /\
  isLower (upperChar c) = false.
Proof.
  destruct c as [[] [] [] [] [] [] [] []]; vm_compute; repeat split; reflexivity.
Qed.

Lemma toUpperCase_app s t : toUpperCase (s ++ t) = toUpperCase s ++ toUpperCase t.
Proof. induction s as [|c s IH]; [reflexivity|]. cbn. now rewrite IH. Qed.

Lemma toUpperCase_idempotent s : toUpperCase (toUpperCase s) = toUpperCase s.
Proof.
  induction s as [|c s IH]; [reflexivity|]. cbn [toUpperCase]. rewrite IH. f_equal.
  change (if isLower c then byte (code c - 32) else c) with (upperChar c).
  now rewrite (proj2 (proj2 (proj2 (upperChar_classes c)))).
Qed.

Lemma allChars_toUpperCase p s :
  (forall c, p (upperChar c) = p c) ->
  allChars p s = true -> allChars p (toUpperCase s) = true.
Proof.
  intros Hp. induction s as [|c s IH]; [reflexivity|]. cbn [allChars toUpperCase].
  change (if isLower c then byte (code c - 32) else c) with (upperChar c).
  rewrite Hp. intros H. apply andb_true_iff in H. destruct H as [-> H]. now apply IH.
Qed.

Lemma allChars_takeWhile p s : allChars p (takeWhile p s) = true.
Proof.
  induction s as [|c s IH]; [reflexivity|]. cbn [takeWhile].
  destruct (p c) eqn:E; [|reflexivity]. cbn [allChars]. now rewrite E.
Qed.

Lemma takeWhile_dropWhile p s : s = takeWhile p s ++ dropWhile p s.
Proof.
  induction s as [|c s IH]; [reflexivity|]. cbn [takeWhile dropWhile].
  destruct (p c); [|reflexivity]. cbn. now rewrite <- IH.
Qed.

(** A run of characters that pass, up to one that does not or to the end. *)
Lemma takeWhile_run p run rest :
  allChars p run = true ->
  match rest with String c _ => p c = false | EmptyString => True end ->
  takeWhile p (run ++ rest) = run /\ dropWhile p (run ++ rest) = rest.
Proof.
  intros Hrun Hrest. induction run as [|c run IH].
  - destruct rest as [|c rest]; [now split|]. cbn. now rewrite Hrest.
  - cbn [allChars] in Hrun. apply andb_true_iff in Hrun. destruct Hrun as [Hc Hrun].
    cbn. rewrite Hc. destruct (IH Hrun) as [-> ->]. now split.
Qed.

Lemma append_empty s : s ++ "" = s.
Proof. induction s as [|c s IH]; [reflexivity|]. cbn. now rewrite IH. Qed.

Lemma matchEvIdHere_parts s matched rest :
  matchEvIdHere s = Some (matched, rest) ->
  exists letters alnums digits,
    matched = letters ++ "-" ++ alnums ++ "-" ++ digits /\
    letters <> "" /\ alnums <> "" /\ digits <> "" /\
    allChars isLetter letters = true /\ allChars isAlnum alnums = true /\
    allChars isDigit digits = true.
Proof.
  unfold matchEvIdHere.
  destruct (takeWhile isLetter s) as [|l letters] eqn:Hletters; [discriminate|].
  destruct (dropWhile isLetter s) as [|c1 s1]; [discriminate|].
  destruct (Ascii.eqb_spec c1 "-") as [->|Hc1];
    [|destruct c1 as [[] [] [] [] [] [] [] []]; try discriminate; now elim Hc1].
  destruct (takeWhile isAlnum s1) as [|a alnums] eqn:Halnums; [discriminate|].
  destruct (dropWhile isAlnum s1) as [|c2 s2]; [discriminate|].
  destruct (Ascii.eqb_spec c2 "-") as [->|Hc2];
    [|destruct c2 as [[] [] [] [] [] [] [] []]; try discriminate; now elim Hc2].
  destruct (takeWhile isDigit s2) as [|d digits] eqn:Hdigits; [discriminate|].
  intros [= <- <-].
  exists (String l letters), (String a alnums), (String d digits).
  repeat split; try discriminate.
  - rewrite <- Hletters. apply allChars_takeWhile.
  - rewrite <- Halnums. apply allChars_takeWhile.
  - rewrite <- Hdigits. apply allChars_takeWhile.
Qed.

Lemma matchEvIdHere_whole letters alnums digits :
  letters <> "" -> alnums <> "" -> digits <> "" ->
  allChars isLetter letters = true -> allChars isAlnum alnums = true ->
  allChars isDigit digits = true ->
  matchEvIdHere (letters ++ "-" ++ alnums ++ "-" ++ digits)
  = Some (letters ++ "-" ++ alnums ++ "-" ++ digits, "").
Proof.
  intros Hl Ha Hd Hletters Halnums Hdigits. unfold matchEvIdHere.
  destruct (takeWhile_run isLetter letters ("-" ++ alnums ++ "-" ++ digits) Hletters)
    as [-> ->]; [reflexivity|].
  destruct letters as [|l letters]; [congruence|].
  cbn -[takeWhile dropWhile].
  destruct (takeWhile_run isAlnum alnums (String "-" digits) Halnums) as [-> ->];
    [reflexivity|].
  destruct alnums as [|a alnums]; [congruence|].
  cbn -[takeWhile dropWhile].
  pose proof (takeWhile_run isDigit digits "" Hdigits I) as [Htake Hdrop].
  rewrite append_empty in Htake, Hdrop. rewrite Htake, Hdrop.
  destruct digits as [|d digits]; [congruence|]. reflexivity.
Qed.

Lemma matchEvId_parts s matched :
  matchEvId s = Some matched -> exists rest, exists tail, matchEvIdHere tail = Some (matched, rest).
Proof.
  induction s as [|c s IH]; cbn [matchEvId].
  - destruct (matchEvIdHere "") as [[m r]|] eqn:E; [|discriminate].
    intros [= <-]. eauto.
  - destruct (matchEvIdHere (String c s)) as [[m r]|] eqn:E.
    + intros [= <-]. eauto.
    + exact IH.
Qed.

Lemma toUpperCase_nonempty s : s <> "" -> toUpperCase s <> "".
Proof. destruct s; [congruence | discriminate]. Qed.

(** X28.  The identifier read from an utterance is in canonical form: it is
    in upper case, it is, as a whole, of the form of an identifier, and read
    again it is itself; so an identifier typed in any case, alone or inside
    a sentence, is looked up in the catalog in the one spelling of the
    catalog. *)
Theorem parseApartmentId_canonical (input evId : string) :
  parseApartmentId input = Some evId ->
  toUpperCase evId = evId /\
  evIdPattern evId = true /\
  parseApartmentId evId = Some evId.
Proof.
  unfold parseApartmentId.
  destruct (matchEvId input) as [matched|] eqn:Hmatch; [|discriminate].
  intros [= <-].
  apply matchEvId_parts in Hmatch. destruct Hmatch as (rest & tail & Hhere).
  apply matchEvIdHere_parts in Hhere.
  destruct Hhere as (letters & alnums & digits & -> & Hl & Ha & Hd & Hls & Has & Hds).
  assert (Hwhole : matchEvIdHere (toUpperCase (letters ++ "-" ++ alnums ++ "-" ++ digits))
                   = Some (toUpperCase (letters ++ "-" ++ alnums ++ "-" ++ digits), "")).
  { rewrite !toUpperCase_app. change (toUpperCase "-") with "-".
    apply matchEvIdHere_whole; try now apply toUpperCase_nonempty.
    - apply allChars_toUpperCase; [apply upperChar_classes | exact Hls].
    - apply allChars_toUpperCase; [apply upperChar_classes | exact Has].
    - apply allChars_toUpperCase; [apply upperChar_classes | exact Hds]. }
  split; [apply toUpperCase_idempotent|]. split.
  - unfold evIdPattern. now rewrite Hwhole.
  - assert (Hagain : matchEvId (toUpperCase (letters ++ "-" ++ alnums ++ "-" ++ digits))
                     = Some (toUpperCase (letters ++ "-" ++ alnums ++ "-" ++ digits))).
    { destruct (toUpperCase (letters ++ "-" ++ alnums ++ "-" ++ digits));
        cbn [matchEvId]; now rewrite Hwhole. }
    rewrite Hagain. cbn [option_map]. now rewrite toUpperCase_idempotent.
Qed.

Lemma parseApartmentId_canonical_witness :
  parseApartmentId "gzp-h04-002 olsun" = Some "GZP-H04-002" /\
  toUpperCase "GZP-H04-002" = "GZP-H04-002" /\
  evIdPattern "GZP-H04-002" = true /\
  parseApartmentId "GZP-H04-002" = Some "GZP-H04-002".
Proof.
  split; [reflexivity|].
  exact (parseApartmentId_canonical "gzp-h04-002 olsun" "GZP-H04-002" eq_refl).
Defined.

(** *** The digits of an amount *)

Lemma Blank_no_digits s : Blank s -> filterChars isDigit s = "".
Proof.
  induction 1 as [|c s Hc _ IH|c1 c2 s H1 H2 _ IH|c1 c2 c3 s H1 H2 H3 _ IH];
    cbn [filterChars]; [reflexivity|..].
  - replace (isDigit c) with false; [exact IH|]. byte_facts; byte_decide.
  - replace (isDigit c1) with false by (byte_facts; byte_decide).
    replace (isDigit c2) with false by (byte_facts; byte_decide). exact IH.
  - replace (isDigit c1) with false by (clear IH; byte_facts; byte_decide).
    replace (isDigit c2) with false by (clear IH; byte_facts; byte_decide).
    replace (isDigit c3) with false by (clear IH; byte_facts; byte_decide).
    exact IH.
Qed.

Lemma digits_dropSpaces s :
  filterChars isDigit (dropSpaces s) = filterChars isDigit s.
Proof.
  remember (String.length s) as n eqn:Hn.
  revert s Hn; induction n as [n IH] using lt_wf_ind; intros s Hn.
  destruct s as [|c1 s1]; [reflexivity|].
  cbn [dropSpaces].
  destruct (isSpace1 c1) eqn:E1.
  { cbn [filterChars].
    replace (isDigit c1) with false by (byte_facts; byte_decide).
    eapply IH; [|reflexivity]. subst; simpl; lia. }
  destruct s1 as [|c2 s2]; [reflexivity|].
  destruct (isSpace2 c1 c2) eqn:E2.
  { cbn [filterChars].
    replace (isDigit c1) with false by (byte_facts; byte_decide).
    replace (isDigit c2) with false by (byte_facts; byte_decide).
    eapply IH; [|reflexivity]. subst; simpl; lia. }
  destruct s2 as [|c3 s3]; [reflexivity|].
  destruct (isSpace3 c1 c2 c3) eqn:E3; [|reflexivity].
  cbn [filterChars].
  replace (isDigit c1) with false by (clear IH; byte_facts; byte_decide).
  replace (isDigit c2) with false by (clear IH; byte_facts; byte_decide).
  replace (isDigit c3) with false by (clear IH; byte_facts; byte_decide).
  eapply IH; [|reflexivity]. subst; simpl; lia.
Qed.

Lemma digits_trimEnd s : filterChars isDigit (trimEnd s) = filterChars isDigit s.
Proof.
  induction s as [|c s IH]; [reflexivity|].
  cbn [trimEnd]. unfold allSpaces.
  destruct (dropSpaces (String c s)) eqn:E.
  - symmetry. apply Blank_no_digits, dropSpaces_Blank, E.
  - cbn [filterChars]. now rewrite IH.
Qed.

Lemma digits_trim s : filterChars isDigit (trim s) = filterChars isDigit s.
Proof. unfold trim, trimStart. now rewrite digits_trimEnd, digits_dropSpaces. Qed.

Lemma takeWhile_digits s :
  takeWhile isDigit (filterChars isDigit s) = filterChars isDigit s.
Proof.
  induction s as [|c s IH]; [reflexivity|]. cbn [filterChars].
  destruct (isDigit c) eqn:E; [|exact IH]. cbn [takeWhile]. now rewrite E, IH.
Qed.

Lemma dropWhile_digits s : dropWhile isDigit (filterChars isDigit s) = "".
Proof.
  induction s as [|c s IH]; [reflexivity|]. cbn [filterChars].
  destruct (isDigit c) eqn:E; [|exact IH]. cbn [dropWhile]. now rewrite E.
Qed.

(** X21.  An amount is read from the digits of the utterance alone: what
    stands between them (separators, a decimal point or comma, a currency,
    words) is passed over, and the digits are read as one whole number,
    which is the amount if it is positive and finite, that is below the
    least number that is read as [Infinity] ([2^1024 - 2^970], a number of
    309 digits); a longer run of digits with a value beyond that is no
    amount.  An utterance that is a property identifier and nothing else is
    no amount. *)
Theorem parseAmount_reads_digits (input : string) :
  (evIdPattern (trim input) = true -> parseAmount input = None) /\
  (evIdPattern (trim input) = false ->
   parseAmount input
   = if (0 <? parseInt (filterChars isDigit input))
        && (parseInt (filterChars isDigit input) <? overflowBound)
     then Some (inject_Z (parseInt (filterChars isDigit input)))
     else None).
Proof.
  unfold parseAmount. split; intros ->; [reflexivity|].
  rewrite digits_trim.
  destruct (filterChars isDigit input) as [|c digits] eqn:Hdigits; [reflexivity|].
  unfold parseFloat. rewrite <- Hdigits, dropWhile_digits, takeWhile_digits.
  set (value := parseInt (filterChars isDigit input)).
  assert (Hpositive : (if Qlt_le_dec 0 (inject_Z value) then true else false)
                      = (0 <? value)).
  { destruct (Qlt_le_dec 0 (inject_Z value)) as [H|H], (Z.ltb_spec 0 value);
      try reflexivity; exfalso; unfold Qlt, Qle in H; cbn in H; lia. }
  assert (Hfinite : 0 < value -> isFinite (inject_Z value) = (value <? overflowBound)).
  { intros Hvalue. unfold isFinite.
    assert (Habs : (Qabs (inject_Z value) == inject_Z value)%Q)
      by (apply Qabs_pos; unfold Qle; cbn; lia).
    destruct (Qlt_le_dec (Qabs (inject_Z value)) (inject_Z overflowBound)) as [H|H],
      (Z.ltb_spec value overflowBound); try reflexivity; exfalso;
      rewrite Habs in H; unfold Qlt, Qle in H; cbn [inject_Z Qnum Qden] in H; lia. }
  rewrite Hpositive. destruct (Z.ltb_spec 0 value) as [Hvalue|Hvalue].
  - rewrite (Hfinite Hvalue), andb_true_r, andb_true_l. reflexivity.
  - rewrite andb_false_r. reflexivity.
Qed.

Lemma parseAmount_reads_digits_witness :
  evIdPattern (trim " 1.500,50 TL ") = false /\
  parseAmount " 1.500,50 TL " = Some 150050%Q /\
  evIdPattern (trim (String "1" (zeros 309))) = false /\
  parseAmount (String "1" (zeros 309)) = None /\
  parseAmount (String "1" (zeros 308)) <> None /\
  evIdPattern (trim "GZP-H04-001") = true /\
  parseAmount "GZP-H04-001" = None.
Proof.
  destruct (parseAmount_reads_digits " 1.500,50 TL ") as [_ Hdigits].
  destruct (parseAmount_reads_digits (String "1" (zeros 309))) as [_ Hbeyond].
  destruct (parseAmount_reads_digits (String "1" (zeros 308))) as [_ Hbelow].
  destruct (parseAmount_reads_digits "GZP-H04-001") as [Hid _].
  split; [reflexivity|]. split; [exact (Hdigits eq_refl)|].
  assert (Hplain : evIdPattern (trim (String "1" (zeros 309))) = false)
    by (vm_compute; reflexivity).
  split; [exact Hplain|]. split.
  { rewrite (Hbeyond Hplain). vm_compute. reflexivity. }
  split.
  { rewrite Hbelow by (vm_compute; reflexivity). vm_compute. discriminate. }
  split; [reflexivity|]. exact (Hid eq_refl).
Defined.

(** X16.  Whatever a parser returns is a value of its kind: a year strictly
    between 2000 and 2100, a month from 1 to 12, a positive count of
    installments, a positive amount, a positive rate. *)
Theorem parsers_validate (input : string) :
  (forall year', parseYear input = Some year' -> 2000 < year' < 2100) /\
  (forall month', parseMonth input = Some month' -> 1 <= month' <= 12) /\
  (forall count, parseInstallments input = Some count -> 0 < count) /\
  (forall amount, parseAmount input = Some amount -> (0 < amount)%Q) /\
  (forall info, parseInterestRate input = Some info -> (0 < rate info)%Q).
Proof.
  split; [apply parseYear_range|]. split; [apply parseMonth_range|].
  split; [apply parseInstallments_range|]. split; [apply parseAmount_range|].
  apply parseInterestRate_range.
Qed.

Lemma parsers_validate_witness :
  parseYear "2026" = Some 2026 /\ 2000 < 2026 < 2100 /\
  parseMonth "mart" = Some 3 /\ 1 <= 3 <= 12 /\
  parseInstallments "36 ay" = Some 36 /\ 0 < 36.
Proof.
  destruct (parsers_validate "2026") as (Hyear & _).
  destruct (parsers_validate "mart") as (_ & Hmonth & _).
  destruct (parsers_validate "36 ay") as (_ & _ & Hcount & _).
  split; [reflexivity|]. split; [exact (Hyear 2026 eq_refl)|].
  split; [reflexivity|]. split; [exact (Hmonth 3 eq_refl)|].
  split; [reflexivity|]. exact (Hcount 36 eq_refl).
Defined.

Section Turns.

Variable twelfthRoot : Q -> Q.
Variable sort : (Candidate -> Candidate -> Q) -> list Candidate -> list Candidate.

Lemma reportPlan_remembered currentDate apartment rate down downYear downMonth n
    markCompleted newState :
  markCompleted = true \/ step newState = Some completed ->
  returns remembered
    (reportPlan currentDate apartment rate down downYear downMonth n markCompleted newState).
Proof.
  intros Hdone. unfold reportPlan. branches; shape; auto.
  destruct markCompleted; (split; [reflexivity|]); [reflexivity|].
  destruct Hdone as [Hmark|Hstep]; [discriminate Hmark | exact Hstep].
Qed.

Lemma installmentsBlock_remembered currentDate userMessage state apartments newState :
  returns remembered (installmentsBlock currentDate userMessage state apartments newState).
Proof.
  unfold installmentsBlock.
  pose proof (fun n ns H apartment rate down downYear downMonth =>
                reportPlan_remembered currentDate apartment rate down downYear downMonth
                  n false ns (or_intror H)) as Hplan.
  generalize dependent reportPlan. intros report Hplan.
  branches; try (apply Hplan; reflexivity); shape; auto.
Qed.

(** *** Every handler sees the context of the caller *)

Lemma greetingBlock_continues currentDate lowerMessage state newState :
  continuesWith newState (greetingBlock currentDate lowerMessage state newState).
Proof. unfold greetingBlock. goes_on. Qed.

Lemma helpBlock_continues lowerMessage state newState :
  continuesWith newState (helpBlock lowerMessage state newState).
Proof. unfold helpBlock. goes_on. Qed.

Lemma apartmentBlock_continues userMessage state apartments newState :
  continuesWith newState (apartmentBlock userMessage state apartments newState).
Proof. unfold apartmentBlock. goes_on. Qed.

Lemma interestRateBlock_continues userMessage lowerMessage state newState :
  continuesWith newState
    (interestRateBlock twelfthRoot userMessage lowerMessage state newState).
Proof. unfold interestRateBlock. goes_on. Qed.

Lemma downPaymentBlock_continues currentDate userMessage state apartments newState :
  continuesWith newState
    (downPaymentBlock currentDate userMessage state apartments newState).
Proof. unfold downPaymentBlock. goes_on. Qed.

Lemma downYearBlock_continues currentDate userMessage state newState :
  continuesWith newState (downYearBlock currentDate userMessage state newState).
Proof. unfold downYearBlock. goes_on. Qed.

Lemma downMonthBlock_continues currentDate userMessage state newState :
  continuesWith newState (downMonthBlock currentDate userMessage state newState).
Proof. unfold downMonthBlock. goes_on. Qed.

Lemma lowerRequestBlock_continues lowerMessage state newState :
  continuesWith newState (lowerRequestBlock lowerMessage state newState).
Proof. unfold lowerRequestBlock. goes_on. Qed.

Lemma lowerInstallmentBlock_continues currentDate userMessage lowerMessage state
    apartments newState :
  continuesWith newState
    (lowerInstallmentBlock sort currentDate userMessage lowerMessage state apartments
       newState).
Proof.
  unfold lowerInstallmentBlock. destruct (stepIs state waiting_for_lower_installment);
    [|reflexivity].
  generalize (acceptSuggestionBlock currentDate lowerMessage state apartments newState).
  intros flow. destruct flow; cbn [andThen continuesWith]; auto.
  match goal with |- context [andThen ?f _] => destruct f end;
    cbn [andThen continuesWith]; auto.
  match goal with |- context [andThen ?f _] => destruct f end;
    cbn [andThen continuesWith]; auto.
  match goal with |- context [andThen ?f _] => destruct f end;
    cbn [andThen continuesWith reply]; auto.
Qed.

Lemma chooseAlternativeBlock_continues given currentDate userMessage state apartments
    newState :
  continuesWith given
    (chooseAlternativeBlock currentDate userMessage state apartments newState).
Proof.
  unfold chooseAlternativeBlock.
  repeat match goal with
         | |- continuesWith _ (need _ _) => apply continuesWith_need; intros ?
         | |- continuesWith _ (if ?c then _ else _) => destruct c
         | |- continuesWith _ (match ?x with _ => _ end) => destruct x
         end; exact I.
Qed.

Lemma alternativesBlock_continues currentDate userMessage lowerMessage state
    apartments newState :
  continuesWith newState
    (alternativesBlock currentDate userMessage lowerMessage state apartments newState).
Proof.
  unfold alternativesBlock. destruct (stepIs state showing_alternatives); [|reflexivity].
  repeat (match goal with |- context [andThen ?f _] => destruct f end;
          cbn [andThen continuesWith]; auto).
  apply chooseAlternativeBlock_continues.
Qed.

Lemma completedBlock_continues userMessage state apartments newState :
  continuesWith newState (completedBlock userMessage state apartments newState).
Proof. unfold completedBlock. goes_on. Qed.

Lemma planParameters_installments_set apartments count newState :
  planParameters apartments (set_step (Some completed) (set_nInstallments count newState))
  = planParameters apartments newState.
Proof. reflexivity. Qed.

(** The installment step goes on only where it is not the step of the
    context, or where the context lacks a parameter of the plan; the count
    it has read is then in a context that no later handler answers. *)
Lemma installmentsBlock_continues currentDate userMessage state apartments newState :
  installmentsBlock currentDate userMessage state apartments state = Continue newState ->
  (stepIs state waiting_for_installments = false /\ newState = state) \/
  (stepIs state waiting_for_installments = true /\
   planParameters apartments state = None /\
   exists count,
     newState = set_step (Some completed) (set_nInstallments (Some count) state) /\
     (parseInstallments userMessage = Some count \/
      (parseInstallments userMessage = None /\ trim userMessage = "" /\ count = 24))).
Proof.
  unfold installmentsBlock.
  destruct (stepIs state waiting_for_installments); [|intros [= <-]; now left].
  assert (Hreport : forall apartment rate down downYear downMonth n ns ns',
             reportPlan currentDate apartment rate down downYear downMonth n false ns
             <> Continue ns').
  { intros. unfold reportPlan.
    repeat match goal with
           | |- (if ?c then _ else _) <> _ => destruct c
           | |- match ?x with _ => _ end <> _ => destruct x
           end; discriminate. }
  generalize dependent reportPlan. intros report Hreport. cbv zeta.
  destruct (parseInstallments userMessage) as [count|] eqn:Hcount.
  - rewrite planParameters_installments_set.
    destruct (planParameters apartments state) as [[[[[apartment rate] down] downYear] downMonth]|].
    + intros H. now apply Hreport in H.
    + intros [= <-]. right. repeat split; auto. exists count. auto.
  - destruct (trim userMessage =? "")%string eqn:Hblank; [|discriminate].
    rewrite planParameters_installments_set.
    destruct (planParameters apartments state) as [[[[[apartment rate] down] downYear] downMonth]|].
    + intros H. now apply Hreport in H.
    + intros [= <-]. right. repeat split; auto. exists 24. split; [reflexivity|].
      right. repeat split; auto. now apply String.eqb_eq.
Qed.

Lemma stepIs_other state current other :
  stepIs state current = true -> ConversationStep_eqb current other = false ->
  stepIs state other = false.
Proof.
  unfold stepIs. destruct (step state) as [s|]; [|reflexivity].
  destruct s, current; try discriminate; intros _; destruct other; auto.
Qed.

(** *** The handler of the step of the context always answers *)

(** Case analysis along the branches of a block that does not go on. *)
Ltac answers :=
  repeat match goal with
         | |- need ?x _ <> _ => destruct x; cbn [need]
         | |- (if ?c then _ else _) <> _ => destruct c
         | |- match ?x with _ => _ end <> _ => destruct x
         | |- andThen ?f _ <> _ => destruct f; cbn [andThen]
         end;
  try discriminate.

Lemma greetingBlock_answers currentDate lowerMessage state newState newState' :
  step state = None ->
  greetingBlock currentDate lowerMessage state newState <> Continue newState'.
Proof. intros Hstep. unfold greetingBlock. rewrite Hstep. discriminate. Qed.

Lemma apartmentBlock_answers userMessage state apartments newState newState' :
  stepIs state waiting_for_apartment = true ->
  apartmentBlock userMessage state apartments newState <> Continue newState'.
Proof. intros Hstep. unfold apartmentBlock. rewrite Hstep. answers. Qed.

Lemma interestRateBlock_answers userMessage lowerMessage state newState newState' :
  stepIs state waiting_for_interest_rate = true ->
  interestRateBlock twelfthRoot userMessage lowerMessage state newState
  <> Continue newState'.
Proof. intros Hstep. unfold interestRateBlock. rewrite Hstep. answers. Qed.

Lemma downPaymentBlock_answers currentDate userMessage state apartments newState newState' :
  stepIs state waiting_for_down_payment = true ->
  downPaymentBlock currentDate userMessage state apartments newState
  <> Continue newState'.
Proof. intros Hstep. unfold downPaymentBlock. rewrite Hstep. answers. Qed.

Lemma downYearBlock_answers currentDate userMessage state newState newState' :
  stepIs state waiting_for_down_payment_year = true ->
  downYearBlock currentDate userMessage state newState <> Continue newState'.
Proof. intros Hstep. unfold downYearBlock. rewrite Hstep. answers. Qed.

Lemma downMonthBlock_answers currentDate userMessage state newState newState' :
  stepIs state waiting_for_down_payment_month = true ->
  downMonthBlock currentDate userMessage state newState <> Continue newState'.
Proof. intros Hstep. unfold downMonthBlock. rewrite Hstep. answers. Qed.

Lemma chooseAlternativeBlock_answers currentDate userMessage state apartments newState
    newState' :
  chooseAlternativeBlock currentDate userMessage state apartments newState
  <> Continue newState'.
Proof. unfold chooseAlternativeBlock. answers. Qed.

Lemma lowerInstallmentBlock_answers currentDate userMessage lowerMessage state apartments
    newState newState' :
  stepIs state waiting_for_lower_installment = true ->
  lowerInstallmentBlock sort currentDate userMessage lowerMessage state apartments newState
  <> Continue newState'.
Proof. intros Hstep. unfold lowerInstallmentBlock. rewrite Hstep. answers. Qed.

Lemma alternativesBlock_answers currentDate userMessage lowerMessage state apartments
    newState newState' :
  stepIs state showing_alternatives = true ->
  alternativesBlock currentDate userMessage lowerMessage state apartments newState
  <> Continue newState'.
Proof.
  intros Hstep. unfold alternativesBlock. rewrite Hstep.
  pose proof (chooseAlternativeBlock_answers currentDate userMessage state apartments)
    as Hchoose.
  generalize dependent chooseAlternativeBlock. intros choose Hchoose.
  repeat match goal with
         | |- andThen ?f _ <> _ => destruct f; cbn [andThen]; try discriminate
         end.
  apply Hchoose.
Qed.

Lemma completedBlock_answers userMessage state apartments newState newState' :
  stepIs state completed = true ->
  completedBlock userMessage state apartments newState <> Continue newState'.
Proof. intros Hstep. unfold completedBlock. rewrite Hstep. answers. Qed.

Create HintDb continues.

#[local] Hint Resolve greetingBlock_continues helpBlock_continues apartmentBlock_continues
  interestRateBlock_continues downPaymentBlock_continues downYearBlock_continues
  downMonthBlock_continues lowerRequestBlock_continues lowerInstallmentBlock_continues
  alternativesBlock_continues completedBlock_continues : continues.

(** The next handler of the chain: it returns, or goes on with the context
    it was given. *)
Ltac next_handler state :=
  match goal with
  | |- context [andThen ?flow _] =>
      let H := fresh "Hon" in
      let E := fresh "Hflow" in
      assert (H : continuesWith state flow) by auto with continues;
      destruct flow eqn:E;
      cbn [andThen firstReturn continuesWith] in *; try reflexivity; subst
  end.

(** A turn is answered by the first handler that replies, and every handler
    works on the context of the caller: what a handler that goes on has
    changed is not seen by the handlers after it, nor returned.  The
    statements that close the function never answer: when control reaches
    them the context is one they pass over. *)
Lemma turn_is_first_reply currentDate userMessage state apartments :
  generateBotResponse twelfthRoot sort currentDate userMessage state apartments
  = firstReturn (turnBlocks twelfthRoot sort currentDate userMessage state apartments).
Proof.
  unfold generateBotResponse, turnBlocks.
  set (lowerMessage := trim (toLowerCase userMessage)).
  do 7 next_handler state.
  destruct (installmentsBlock currentDate userMessage state apartments state)
    as [response|newState| |msg] eqn:Hcount; cbn [andThen firstReturn]; try reflexivity.
  apply installmentsBlock_continues in Hcount
    as [[Hstep ->]|(Hstep & Hplan & count & -> & _)].
  - do 4 next_handler state. exfalso.
    destruct (step state) as [current|] eqn:Hcurrent;
      [|now apply greetingBlock_answers in Hflow].
    assert (Hcase : stepIs state current = true)
      by (unfold stepIs; rewrite Hcurrent; now destruct current).
    destruct current;
      [ now apply apartmentBlock_answers in Hflow1
      | now apply interestRateBlock_answers in Hflow2
      | now apply downPaymentBlock_answers in Hflow3
      | now apply downYearBlock_answers in Hflow4
      | now apply downMonthBlock_answers in Hflow5
      | congruence
      | now apply completedBlock_answers in Hflow9
      | now apply lowerInstallmentBlock_answers in Hflow7
      | now apply alternativesBlock_answers in Hflow8 ].
  - unfold lowerRequestBlock, lowerInstallmentBlock, alternativesBlock, completedBlock.
    rewrite !(stepIs_other state _ _ Hstep) by reflexivity.
    cbn [andThen firstReturn].
    unfold lastBlock. cbn [stepIs step set_step ConversationStep_eqb negb andb].
    reflexivity.
Qed.

Lemma acceptSuggestionBlock_continues currentDate lowerMessage state apartments newState :
  continuesWith newState
    (acceptSuggestionBlock currentDate lowerMessage state apartments newState).
Proof. unfold acceptSuggestionBlock. goes_on. Qed.

Lemma longerTermBlock_continues currentDate userMessage lowerMessage state apartments
    newState :
  continuesWith newState
    (longerTermBlock currentDate userMessage lowerMessage state apartments newState).
Proof. unfold longerTermBlock. goes_on. Qed.

Lemma higherDownBlock_continues currentDate lowerMessage state apartments newState :
  continuesWith newState
    (higherDownBlock currentDate lowerMessage state apartments newState).
Proof. unfold higherDownBlock. cbv beta zeta. goes_on. Qed.

Lemma returns_andThen_given P given flow next :
  continuesWith given flow -> returns P flow -> returns P (next given) ->
  returns P (andThen flow next).
Proof. destruct flow; cbn; intros; subst; auto. Qed.

(** The two negotiation steps answer by their handlers in turn, each one
    given the context of the caller. *)
Lemma lowerInstallmentBlock_returns P currentDate userMessage lowerMessage state
    apartments :
  (stepIs state waiting_for_lower_installment = true ->
   returns P (acceptSuggestionBlock currentDate lowerMessage state apartments state) /\
   returns P (longerTermBlock currentDate userMessage lowerMessage state apartments state) /\
   returns P (higherDownBlock currentDate lowerMessage state apartments state) /\
   returns P (desiredInstallmentBlock sort currentDate userMessage state apartments state) /\
   P (mkBotResponse MsgInvalidInstallmentAmount None None)) ->
  returns P
    (lowerInstallmentBlock sort currentDate userMessage lowerMessage state apartments state).
Proof.
  unfold lowerInstallmentBlock. destruct (stepIs state waiting_for_lower_installment);
    [|intros _; exact I].
  intros H. destruct (H eq_refl) as (Haccept & Hlonger & Hhigher & Hdesired & Hinvalid).
  apply (returns_andThen_given P state);
    [apply acceptSuggestionBlock_continues | exact Haccept |].
  apply (returns_andThen_given P state);
    [apply longerTermBlock_continues | exact Hlonger |].
  apply (returns_andThen_given P state);
    [apply higherDownBlock_continues | exact Hhigher |].
  apply returns_andThen; [exact Hdesired | intros _; exact Hinvalid].
Qed.

Lemma alternativesBlock_returns P currentDate userMessage lowerMessage state apartments :
  (stepIs state showing_alternatives = true ->
   returns P (acceptSuggestionBlock currentDate lowerMessage state apartments state) /\
   returns P (longerTermBlock currentDate userMessage lowerMessage state apartments state) /\
   returns P (higherDownBlock currentDate lowerMessage state apartments state) /\
   returns P (chooseAlternativeBlock currentDate userMessage state apartments state)) ->
  returns P
    (alternativesBlock currentDate userMessage lowerMessage state apartments state).
Proof.
  unfold alternativesBlock. destruct (stepIs state showing_alternatives);
    [|intros _; exact I].
  intros H. destruct (H eq_refl) as (Haccept & Hlonger & Hhigher & Hchoose).
  apply (returns_andThen_given P state);
    [apply acceptSuggestionBlock_continues | exact Haccept |].
  apply (returns_andThen_given P state);
    [apply longerTermBlock_continues | exact Hlonger |].
  apply (returns_andThen_given P state);
    [apply higherDownBlock_continues | exact Hhigher |].
  exact Hchoose.
Qed.

(** *** What every answer satisfies *)

(** A property of every handler is a property of every answer. *)
Lemma answer_of_handler P currentDate userMessage state apartments response :
  Forall (returns P) (turnBlocks twelfthRoot sort currentDate userMessage state apartments) ->
  generateBotResponse twelfthRoot sort currentDate userMessage state apartments
  = Some response ->
  P response.
Proof. rewrite turn_is_first_reply. apply firstReturn_Forall. Qed.

(** A property of every handler, handler by handler. *)
Ltac by_handlers :=
  unfold turnBlocks;
  repeat apply Forall_cons; try apply Forall_nil;
  try (apply lowerInstallmentBlock_returns; intros ?; split; [|split; [|split; [|split]]]);
  try (apply alternativesBlock_returns; intros ?; split; [|split; [|split]]).

Ltac handlers :=
  unfold greetingBlock, helpBlock, apartmentBlock, interestRateBlock, downPaymentBlock,
    downYearBlock, downMonthBlock, lowerRequestBlock, completedBlock,
    acceptSuggestionBlock, longerTermBlock, higherDownBlock, desiredInstallmentBlock,
    chooseAlternativeBlock.

(** X12.  A turn hands a result to the caller exactly when it hands back a
    context in the completed step, and that context holds that same result
    as its last one. *)
Theorem result_is_remembered currentDate userMessage state apartments response :
  generateBotResponse twelfthRoot sort currentDate userMessage state apartments
  = Some response ->
  (forall result,
     npvResult response = Some result ->
     exists updated,
       newState response = Some updated /\
       lastNpvResult updated = Some result /\
       step updated = Some completed) /\
  (forall updated,
     newState response = Some updated -> step updated = Some completed ->
     exists result,
       npvResult response = Some result /\ lastNpvResult updated = Some result).
Proof.
  intros Hturn.
  assert (Hkept : remembered response).
  { revert Hturn. apply answer_of_handler.
    destruct state as [current ? ? ? ? ? ? ? ? ? ? ? ? ? ?].
    by_handlers; try apply installmentsBlock_remembered; handlers;
      branches; shape; try exact I; try (split; reflexivity); try discriminate;
      destruct current as [[]|]; discriminate. }
  unfold remembered in Hkept.
  destruct (npvResult response) as [result|], (newState response) as [updated|];
    try contradiction.
  - destruct Hkept as [Hlast Hstep]. split.
    + intros ? [= <-]. eauto.
    + intros ? [= <-] _. eauto.
  - split; [discriminate|]. intros ? [= <-] Hstep. contradiction.
  - split; discriminate.
Qed.

(** X13.  The steps of a conversation follow one another as in the table
    [mayFollow]: a turn moves the context one step on, leaves it where it
    is, restarts it, or (from the down payment, where the rate is missing)
    takes it back to the rate; a collection step is never passed over. *)
Theorem steps_follow_the_flow currentDate userMessage state apartments current
    response updated :
  step state = Some current ->
  generateBotResponse twelfthRoot sort currentDate userMessage state apartments
  = Some response ->
  newState response = Some updated ->
  exists next, step updated = Some next /\ mayFollow current next = true.
Proof.
  intros Hstep Hturn Hupdated.
  assert (Hflow : follows current response).
  { revert Hturn. apply answer_of_handler.
    destruct state as [st ? ? ? ? ? ? ? ? ? ? ? ? ? ?]. cbn [step] in Hstep. subst st.
    destruct current; by_handlers;
      try match goal with
          | H : stepIs _ _ = true |- _ => discriminate H
          end;
      handlers; unfold installmentsBlock, reportPlan;
      cbn [stepIs step ConversationStep_eqb];
      branches; first [exact I | exact eq_refl]. }
  unfold follows in Hflow. rewrite Hupdated in Hflow.
  destruct (step updated) as [next|]; [eauto | contradiction].
Qed.

(** X14.  The reply that a new property is chosen is given only in the
    completed step, for a property of the catalog, and the context handed
    back with it holds the property, the rate step and the start date, and
    none of the parameters and results of the plan before; the suggested
    down payment alone is carried over. *)
Theorem new_property_restarts currentDate userMessage state apartments response evId :
  generateBotResponse twelfthRoot sort currentDate userMessage state apartments
  = Some response ->
  message response = MsgNewApartmentChosen evId ->
  step state = Some completed /\
  parseApartmentId userMessage = Some evId /\
  (exists apartment, In apartment apartments /\ ev_id apartment = evId) /\
  npvResult response = None /\
  newState response = Some (restartedWith evId state).
Proof.
  intros Hturn Hmessage.
  enough (Hall : message response = MsgNewApartmentChosen evId ->
                 step state = Some completed /\
                 parseApartmentId userMessage = Some evId /\
                 (exists apartment, In apartment apartments /\ ev_id apartment = evId) /\
                 npvResult response = None /\
                 newState response = Some (restartedWith evId state))
    by exact (Hall Hmessage).
  clear Hmessage. revert Hturn.
  apply (answer_of_handler
           (fun response =>
              message response = MsgNewApartmentChosen evId ->
              step state = Some completed /\
              parseApartmentId userMessage = Some evId /\
              (exists apartment, In apartment apartments /\ ev_id apartment = evId) /\
              npvResult response = None /\
              newState response = Some (restartedWith evId state))).
  by_handlers; handlers; unfold installmentsBlock, reportPlan;
    branches; try exact I; try (intros Hm; discriminate Hm).
  intros [= <-].
  match goal with
  | H : stepIs state completed = true |- _ =>
      unfold stepIs in H; destruct (step state) as [[]|] eqn:Hstep; try discriminate H
  end.
  match goal with
  | H : match parseApartmentId userMessage with _ => _ end = Some _ |- _ =>
      destruct (parseApartmentId userMessage) as [id|] eqn:Hid; [|discriminate H];
      destruct (findApartment apartments (Some id)) as [apartment|] eqn:Hfound;
      [|discriminate H]; injection H as ->
  end.
  apply find_some in Hfound. destruct Hfound as [Hin Hsame].
  apply String.eqb_eq in Hsame.
  repeat split; eauto.
Qed.

(** X15.  A context enters the step that asks for the year of the down
    payment only by a down payment that is accepted: the amount read from
    the utterance, at least 1,000 and at most the price of the property of
    the context, stored in the context of the caller, of which nothing else
    changes but the step. *)
Theorem down_payment_accepted currentDate userMessage state apartments response updated :
  generateBotResponse twelfthRoot sort currentDate userMessage state apartments
  = Some response ->
  newState response = Some updated ->
  step updated = Some waiting_for_down_payment_year ->
  step state = Some waiting_for_down_payment /\
  exists amount,
    parseAmount userMessage = Some amount /\
    (1000 <= amount)%Q /\
    (forall apartment,
       findApartment apartments (apartmentId state) = Some apartment ->
       (amount <= bugunku_pesin_fiyat apartment)%Q) /\
    updated = set_step (Some waiting_for_down_payment_year)
                (set_downAmount (Some amount) state).
Proof.
  intros Hturn Hupdated Hstep. revert Hturn updated Hupdated Hstep.
  apply (answer_of_handler
           (fun response =>
              forall updated,
                newState response = Some updated ->
                step updated = Some waiting_for_down_payment_year ->
                step state = Some waiting_for_down_payment /\
                exists amount,
                  parseAmount userMessage = Some amount /\
                  (1000 <= amount)%Q /\
                  (forall apartment,
                     findApartment apartments (apartmentId state) = Some apartment ->
                     (amount <= bugunku_pesin_fiyat apartment)%Q) /\
                  updated = set_step (Some waiting_for_down_payment_year)
                              (set_downAmount (Some amount) state))).
  by_handlers; handlers; unfold installmentsBlock, reportPlan;
    branches; try exact I; shape; intros updated Hupdated Hstep;
    try discriminate Hupdated; injection Hupdated as <-;
    try discriminate Hstep;
    repeat match goal with
           | H : stepIs state _ = true |- _ =>
               unfold stepIs in H; destruct (step state) as [[]|] eqn:?;
               try discriminate H; clear H
           end;
    cbn in Hstep; try congruence.
  all: split; [reflexivity|]; eexists; split; [reflexivity|];
    repeat match goal with
           | H : Qltb _ _ = false |- _ => apply Qltb_false in H
           end;
    split; [assumption|]; split; [|reflexivity];
    intros apartment' Hfound;
    match goal with
    | H : match findApartment _ _ with _ => _ end = None |- _ =>
        rewrite Hfound in H;
        destruct (Qltb (bugunku_pesin_fiyat apartment') _) eqn:Hover;
        [discriminate H | now apply Qltb_false in Hover]
    end.
Qed.

(** X17.  A context enters the step that asks for the number of
    installments only by a month that is accepted: the month read from the
    utterance, from 1 to 12 and, in the year of the down payment (the year
    of the clock where the context has none), not before the month of the
    clock; it is stored in the context of the caller, of which nothing else
    changes but the step. *)
Theorem down_month_accepted currentDate userMessage state apartments response updated :
  generateBotResponse twelfthRoot sort currentDate userMessage state apartments
  = Some response ->
  newState response = Some updated ->
  step updated = Some waiting_for_installments ->
  step state = Some waiting_for_down_payment_month /\
  exists month',
    parseMonth userMessage = Some month' /\
    1 <= month' <= 12 /\
    NpvCalculator.newDate (year currentDate) (month currentDate - 1)
    <= NpvCalculator.newDate (orZ (downYear state) (year currentDate)) (month' - 1) /\
    updated = set_step (Some waiting_for_installments)
                (set_downMonth (Some month') state).
Proof.
  intros Hturn Hupdated Hstep. revert Hturn updated Hupdated Hstep.
  apply (answer_of_handler
           (fun response =>
              forall updated,
                newState response = Some updated ->
                step updated = Some waiting_for_installments ->
                step state = Some waiting_for_down_payment_month /\
                exists month',
                  parseMonth userMessage = Some month' /\
                  1 <= month' <= 12 /\
                  NpvCalculator.newDate (year currentDate) (month currentDate - 1)
                  <= NpvCalculator.newDate (orZ (downYear state) (year currentDate))
                       (month' - 1) /\
                  updated = set_step (Some waiting_for_installments)
                              (set_downMonth (Some month') state))).
  by_handlers; handlers; unfold installmentsBlock, reportPlan;
    branches; try exact I; shape; intros updated Hupdated Hstep;
    try discriminate Hupdated; injection Hupdated as <-;
    try discriminate Hstep;
    repeat match goal with
           | H : stepIs state _ = true |- _ =>
               unfold stepIs in H; destruct (step state) as [[]|] eqn:?;
               try discriminate H; clear H
           end;
    cbn in Hstep; try congruence.
  split; [reflexivity|]. eexists. split; [reflexivity|].
  split; [eapply parseMonth_range; eassumption|]. split; [|reflexivity].
  match goal with H : (_ <? _) = false |- _ => apply Z.ltb_ge in H; exact H end.
Qed.

(** X18.  The reply that the calculation is done is given only in the step
    that asks for the number of installments, for a context that holds the
    property, rate, down payment and date of the plan; the result handed
    over is the one the solver returns for the price of that property, these
    parameters and the count read (24 for an empty utterance); the
    installment quoted is that of the model of lower nominal total; and in
    that result no installment is negative and no nominal total is below
    the price. *)
Theorem reported_plan_is_solved currentDate userMessage state apartments response quoted :
  generateBotResponse twelfthRoot sort currentDate userMessage state apartments
  = Some response ->
  message response = MsgCalculationDone quoted ->
  step state = Some waiting_for_installments /\
  exists apartment monthlyRate' down downYear' downMonth' count result,
    planParameters apartments state
    = Some (apartment, monthlyRate', down, downYear', downMonth') /\
    (parseInstallments userMessage = Some count \/
     (parseInstallments userMessage = None /\ trim userMessage = "" /\ count = 24)) /\
    solveForPrice currentDate state (bugunku_pesin_fiyat apartment)
      (rateDecimal monthlyRate') down downYear' downMonth' count
    = NpvCalculator.Returned result /\
    npvResult response = Some result /\
    quoted = betterInstallment result /\
    (0 <= NpvCalculator.monthlyInstallment (NpvCalculator.modelA result))%Q /\
    (0 <= NpvCalculator.monthlyInstallment (NpvCalculator.modelB result))%Q /\
    (bugunku_pesin_fiyat apartment
     <= NpvCalculator.nominalTotal (NpvCalculator.modelA result))%Q /\
    (bugunku_pesin_fiyat apartment
     <= NpvCalculator.nominalTotal (NpvCalculator.modelB result))%Q.
Proof.
  intros Hturn Hmessage. revert Hturn Hmessage.
  apply (answer_of_handler
           (fun response =>
              message response = MsgCalculationDone quoted ->
              step state = Some waiting_for_installments /\
              exists apartment monthlyRate' down downYear' downMonth' count result,
                planParameters apartments state
                = Some (apartment, monthlyRate', down, downYear', downMonth') /\
                (parseInstallments userMessage = Some count \/
                 (parseInstallments userMessage = None /\ trim userMessage = ""
                  /\ count = 24)) /\
                solveForPrice currentDate state (bugunku_pesin_fiyat apartment)
                  (rateDecimal monthlyRate') down downYear' downMonth' count
                = NpvCalculator.Returned result /\
                npvResult response = Some result /\
                quoted = betterInstallment result /\
                (0 <= NpvCalculator.monthlyInstallment (NpvCalculator.modelA result))%Q /\
                (0 <= NpvCalculator.monthlyInstallment (NpvCalculator.modelB result))%Q /\
                (bugunku_pesin_fiyat apartment
                 <= NpvCalculator.nominalTotal (NpvCalculator.modelA result))%Q /\
                (bugunku_pesin_fiyat apartment
                 <= NpvCalculator.nominalTotal (NpvCalculator.modelB result))%Q)).
  by_handlers; handlers; unfold installmentsBlock, reportPlan;
    branches; try exact I; try (intros Hm; discriminate Hm).
  all: intros [= <-].
  all: match goal with
       | H : stepIs ?st _ = true |- _ =>
           unfold stepIs in H; destruct (step st) as [[]|] eqn:?;
           try discriminate H; clear H
       end.
  all: split; [reflexivity|].
  all: repeat match goal with
         | H : (_ || _)%bool = false |- _ => apply orb_false_iff in H; destruct H
         | H : Qltb _ 0 = false |- _ => apply Qltb_false in H
         | H : (_, _) = (_, _) |- _ => injection H as ? ?
         | H : ?x = (_, _) |- _ => is_var x; subst x
         end.
  all: do 7 eexists; split; [eassumption|]; split;
    [first [left; reflexivity | right; repeat split; try reflexivity;
            now apply String.eqb_eq] |];
    split; [eassumption|]; split; [reflexivity|]; split; [reflexivity|];
    repeat split; lra.
Qed.

Lemma firstReturn_last P flows last response :
  Forall (returns P) flows ->
  firstReturn (flows ++ [Return last])%list = Some response ->
  P response \/
  (response = last /\ Forall (fun flow => exists newState, flow = Continue newState) flows).
Proof.
  induction 1 as [|flow flows Hflow _ IH]; cbn [app firstReturn].
  - intros [= <-]. right. split; [reflexivity | constructor].
  - destruct flow; try discriminate.
    + intros [= <-]. now left.
    + intros Hrest. destruct (IH Hrest) as [HP|[-> Hall]]; [now left|].
      right. split; [reflexivity|]. constructor; eauto.
Qed.

(** X19.  The reply that the utterance is not understood is given in one
    situation only: in the step that asks for the number of installments,
    for an utterance that gives a count or is empty, when the context lacks
    a parameter of the plan (or its property is not in the catalog); the
    count is then not kept, since no context is handed back.  In that
    situation, unless the utterance greets or calls for help, this is the
    reply. *)
Theorem fallback_reply currentDate userMessage state apartments :
  (forall response,
     generateBotResponse twelfthRoot sort currentDate userMessage state apartments
     = Some response ->
     message response = MsgNotUnderstood ->
     step state = Some waiting_for_installments /\
     planParameters apartments state = None /\
     (parseInstallments userMessage <> None \/ trim userMessage = "") /\
     response = mkBotResponse MsgNotUnderstood None None) /\
  (step state = Some waiting_for_installments ->
   planParameters apartments state = None ->
   parseInstallments userMessage <> None \/ trim userMessage = "" ->
   greets (lowerOf userMessage) = false -> asksHelp (lowerOf userMessage) = false ->
   generateBotResponse twelfthRoot sort currentDate userMessage state apartments
   = Some (mkBotResponse MsgNotUnderstood None None)).
Proof.
  split.
  - intros response Hturn Hmessage. rewrite turn_is_first_reply in Hturn.
    change (turnBlocks twelfthRoot sort currentDate userMessage state apartments)
      with (firstn 12 (turnBlocks twelfthRoot sort currentDate userMessage state apartments)
            ++ [Return (mkBotResponse MsgNotUnderstood None None)])%list in Hturn.
    apply (firstReturn_last (fun response => message response <> MsgNotUnderstood))
      in Hturn.
    + destruct Hturn as [Hother|[-> Hall]]; [contradiction|].
      unfold turnBlocks in Hall. cbn [firstn] in Hall.
      repeat match goal with
             | H : Forall _ (_ :: _) |- _ =>
                 let Hflow := fresh "Hflow" in
                 apply Forall_cons_iff in H; destruct H as [[? Hflow] H]
             end.
      apply installmentsBlock_continues in Hflow6.
      destruct Hflow6 as [[Hstep _]|(Hstep & Hplan & count & _ & Hcount)].
      * exfalso.
        destruct (step state) as [current|] eqn:Hcurrent;
          [|now apply greetingBlock_answers in Hflow].
        assert (Hcase : stepIs state current = true)
          by (unfold stepIs; rewrite Hcurrent; now destruct current).
        destruct current;
          [ now apply apartmentBlock_answers in Hflow1
          | now apply interestRateBlock_answers in Hflow2
          | now apply downPaymentBlock_answers in Hflow3
          | now apply downYearBlock_answers in Hflow4
          | now apply downMonthBlock_answers in Hflow5
          | congruence
          | now apply completedBlock_answers in Hflow10
          | now apply lowerInstallmentBlock_answers in Hflow8
          | now apply alternativesBlock_answers in Hflow9 ].
      * split.
        { unfold stepIs in Hstep. destruct (step state) as [[]|]; try discriminate Hstep.
          reflexivity. }
        split; [exact Hplan|]. split; [|reflexivity].
        destruct Hcount as [Hcount|(_ & Hblank & _)]; [left; congruence | now right].
    + unfold turnBlocks. cbn [firstn]. by_handlers; handlers;
        unfold installmentsBlock, reportPlan; branches; try exact I; shape; discriminate.
  - intros Hstep Hplan Hcount Hgreets Hhelp. rewrite turn_is_first_reply.
    unfold turnBlocks. fold (lowerOf userMessage).
    unfold greetingBlock, helpBlock, apartmentBlock, interestRateBlock, downPaymentBlock,
      downYearBlock, downMonthBlock, installmentsBlock, lowerRequestBlock,
      lowerInstallmentBlock, alternativesBlock, completedBlock, stepIs.
    rewrite Hstep, Hgreets, Hhelp. cbn [ConversationStep_eqb orb firstReturn].
    cbv zeta.
    destruct (parseInstallments userMessage) as [count|].
    + rewrite planParameters_installments_set, Hplan. reflexivity.
    + destruct Hcount as [Hcount|Hblank]; [congruence|].
      rewrite Hblank, planParameters_installments_set, Hplan. reflexivity.
Qed.

(** X27.  A higher down payment is suggested only in a negotiation step,
    for a context that holds the property, the desired installment and the
    date of the down payment.  The amount suggested is the down payment of
    the context raised by a whole number of steps of 50,000, at least one,
    and is at most half the price; the installment quoted with it is the
    Model A installment the solver returns for that amount, and it lies
    within 5,000 of the desired one.  The suggestion is kept in the context
    handed back, of which nothing else changes. *)
Theorem suggested_down_payment_is_feasible currentDate userMessage state apartments
    response suggested quoted :
  generateBotResponse twelfthRoot sort currentDate userMessage state apartments
  = Some response ->
  message response = MsgDownSuggested suggested quoted ->
  (step state = Some waiting_for_lower_installment
   \/ step state = Some showing_alternatives) /\
  exists apartment desired downYear' downMonth' result,
    findApartment apartments (apartmentId state) = Some apartment /\
    desiredInstallment state = Some desired /\
    downYear state = Some downYear' /\ downMonth state = Some downMonth' /\
    (suggested <= bugunku_pesin_fiyat apartment * 0.5)%Q /\
    (exists turns : nat,
       (suggested == orQ (downAmount state) 0
                     + inject_Z (Z.of_nat (S turns)) * 50000)%Q) /\
    solveForPrice currentDate state (bugunku_pesin_fiyat apartment)
      (stateRateDecimal state) suggested downYear' downMonth'
      (orZ (nInstallments state) 24)
    = NpvCalculator.Returned result /\
    quoted = NpvCalculator.monthlyInstallment (NpvCalculator.modelA result) /\
    (desired - 5000 <= quoted <= desired + 5000)%Q /\
    npvResult response = None /\
    newState response = Some (set_suggestedDownAmount (Some suggested) state).
Proof.
  intros Hturn Hmessage. revert Hturn Hmessage.
  apply (answer_of_handler
           (fun response =>
              message response = MsgDownSuggested suggested quoted ->
              (step state = Some waiting_for_lower_installment
               \/ step state = Some showing_alternatives) /\
              exists apartment desired downYear' downMonth' result,
                findApartment apartments (apartmentId state) = Some apartment /\
                desiredInstallment state = Some desired /\
                downYear state = Some downYear' /\ downMonth state = Some downMonth' /\
                (suggested <= bugunku_pesin_fiyat apartment * 0.5)%Q /\
                (exists turns : nat,
                   (suggested == orQ (downAmount state) 0
                                 + inject_Z (Z.of_nat (S turns)) * 50000)%Q) /\
                solveForPrice currentDate state (bugunku_pesin_fiyat apartment)
                  (stateRateDecimal state) suggested downYear' downMonth'
                  (orZ (nInstallments state) 24)
                = NpvCalculator.Returned result /\
                quoted = NpvCalculator.monthlyInstallment (NpvCalculator.modelA result) /\
                (desired - 5000 <= quoted <= desired + 5000)%Q /\
                npvResult response = None /\
                newState response
                = Some (set_suggestedDownAmount (Some suggested) state))).
  by_handlers; handlers; unfold installmentsBlock, reportPlan;
    branches; try exact I; try (intros Hm; discriminate Hm).
  all: intros [= <- <-].
  all: try match goal with
           | H : foundFeasible (mkDownSearch _ false _) = true |- _ => discriminate H
           end.
  all: match goal with
       | Hloop : downSearchLoop _ _ _ _ _ _ = Some _, Hfound : foundFeasible _ = true |- _ =>
           match type of Hloop with
           | _ = Some ?o =>
               match goal with
               | E : o = NpvCalculator.Returned _ |- _ => rewrite E in Hloop
               | _ => idtac
               end
           end;
           apply downSearchLoop_found in Hloop; [|reflexivity | exact Hfound];
           destruct Hloop as (Hceiling & (turns & Hturns) & result & Hsolve & Hquoted
                              & Hwithin)
       end.
  all: split;
    [ match goal with
      | H : stepIs ?st _ = true |- _ =>
          unfold stepIs in H; destruct (step st) as [[]|]; try discriminate H; auto
      end |].
  all: do 5 eexists; do 2 (split; [reflexivity|]); do 2 (split; [eassumption|]).
  all: split; [exact Hceiling|]; split;
    [ exists turns; rewrite Hturns; cbn [searchDownAmount];
      rewrite Nat2Z.inj_succ, <- Z.add_1_r, inject_Z_plus; change (inject_Z 1) with 1%Q;
      ring |];
    split; [exact Hsolve|]; split; [exact Hquoted|]; split; [|split; reflexivity];
    unfold withinFiveThousand, Qleb in Hwithin;
    rewrite andb_true_iff, !Qle_bool_iff in Hwithin; exact Hwithin.
Qed.

(** The platform's sort returns the items it is given, in some order. *)
Hypothesis sort_permutes :
  forall compare items, Permutation (sort compare items) items.

Lemma findAlternativeApartments_in_catalog apartments desired down count rate'
    downYear' downMonth' startYear' startMonth' currentId tolerance apartment :
  In apartment
    (findAlternativeApartments sort apartments desired down count rate' downYear'
       downMonth' startYear' startMonth' currentId tolerance) ->
  In apartment apartments.
Proof.
  unfold findAlternativeApartments.
  destruct (find _ apartments); [|intros []].
  intros Hin. apply in_map_iff in Hin as (candidate & <- & Hin).
  apply in_firstn in Hin.
  apply (Permutation_in _ (sort_permutes _ _)) in Hin.
  apply filter_In in Hin as (Hin & _).
  apply in_dropNull, in_map_iff in Hin as (found & Hcandidate & Hin).
  apply filter_In in Hin as (Hin & _).
  unfold candidateFor in Hcandidate.
  destruct (NpvCalculator.calculateNPV _); [|discriminate Hcandidate].
  injection Hcandidate as <-. exact Hin.
Qed.

Lemma selectApartment_in_catalog userMessage state apartments selected :
  inCatalog apartments state ->
  selectApartment userMessage state apartments = Some selected ->
  In selected apartments.
Proof.
  intros [_ Hlisted]. unfold selectApartment.
  destruct (matchListNumber userMessage) as [digits|],
    (alternativeApartments state) as [listed|] eqn:Hstate;
    try destruct (_ && _)%bool;
    try destruct (nth_error listed _) as [byNumber|] eqn:Hnth;
    try (intros [= <-]; eapply Hlisted; [reflexivity | eapply nth_error_In; eassumption]);
    destruct (parseApartmentId userMessage); try discriminate;
    intros Hfound; apply find_some in Hfound; tauto.
Qed.

(** X20.  A context that speaks of the catalog still does after a turn:
    the property of the context and the alternatives it lists are always
    properties of the catalog the turn was given. *)
Theorem catalog_kept currentDate userMessage state apartments response :
  inCatalog apartments state ->
  generateBotResponse twelfthRoot sort currentDate userMessage state apartments
  = Some response ->
  inCatalog apartments (nextState state response).
Proof.
  intros Hstate Hturn.
  enough (Hnew : match newState response with
                 | Some updated => inCatalog apartments updated
                 | None => True
                 end).
  { unfold nextState. destruct (newState response); assumption. }
  revert Hturn.
  apply (answer_of_handler
           (fun response =>
              match newState response with
              | Some updated => inCatalog apartments updated
              | None => True
              end)).
  pose proof (selectApartment_in_catalog userMessage state apartments) as Hselect.
  by_handlers; handlers; unfold installmentsBlock, reportPlan;
    branches; try exact I; shape; try exact Hstate;
    destruct Hstate as [Hid Hlisted]; (split; cbn);
    try assumption; try discriminate.
  - intros evId [= <-].
    match goal with
    | H : findApartment apartments (Some _) = Some ?found |- _ =>
        apply find_some in H; destruct H as [Hin Hsame]; apply String.eqb_eq in Hsame;
        exists found; now split
    end.
  - intros listed [= <-] apartment Hin.
    match goal with
    | H : findAlternativeApartments _ _ _ _ _ _ _ _ _ _ _ _ = _ |- _ =>
        rewrite <- H in Hin
    end.
    eapply findAlternativeApartments_in_catalog; eassumption.
  - intros evId [= <-]. eexists. split; [|reflexivity].
    apply Hselect; [now split | reflexivity].
  - intros evId [= <-].
    match goal with
    | H : match parseApartmentId userMessage with _ => _ end = Some _ |- _ =>
        destruct (parseApartmentId userMessage) as [id|]; [|discriminate H];
        destruct (findApartment apartments (Some id)) as [found|] eqn:Hfound;
        [|discriminate H]; injection H as ->
    end.
    apply find_some in Hfound. destruct Hfound as [Hin Hsame].
    apply String.eqb_eq in Hsame. exists found. now split.
Qed.

(** X22.  Where the matcher returns fewer than five properties, it has left
    none out: every other property of the catalog whose Model A installment,
    solved for its price with the same down payment, term and rate, is
    positive and within the tolerance of the desired one, is returned
    (provided the current property is in the catalog; with a current
    property that is not, nothing is returned). *)
Theorem findAlternativeApartments_complete
    apartments desiredInstallment' downAmount' nInstallments' monthlyRate'
    downYear' downMonth' startYear' startMonth' currentApartmentId tolerance :
  let found :=
    findAlternativeApartments sort apartments desiredInstallment' downAmount'
      nInstallments' monthlyRate' downYear' downMonth' startYear' startMonth'
      currentApartmentId tolerance in
  ((forall current, In current apartments -> ev_id current <> currentApartmentId) ->
   found = []) /\
  ((List.length found < 5)%nat ->
   (exists current, In current apartments /\ ev_id current = currentApartmentId) ->
   forall apartment result,
     In apartment apartments ->
     ev_id apartment <> currentApartmentId ->
     NpvCalculator.calculateNPV
       (NpvCalculator.mkNPVInputs (Some (bugunku_pesin_fiyat apartment)) None
          (rateDecimal monthlyRate') downAmount' downYear' downMonth' nInstallments'
          startYear' startMonth')
     = NpvCalculator.Returned result ->
     (0 < NpvCalculator.monthlyInstallment (NpvCalculator.modelA result))%Q ->
     (desiredInstallment' - tolerance
      <= NpvCalculator.monthlyInstallment (NpvCalculator.modelA result))%Q ->
     (NpvCalculator.monthlyInstallment (NpvCalculator.modelA result)
      <= desiredInstallment' + tolerance)%Q ->
     In apartment found).
Proof.
  intros found. subst found. unfold findAlternativeApartments.
  destruct (find (fun apt => (ev_id apt =? currentApartmentId)%string) apartments)
    as [currentApartment|] eqn:Hcurrent.
  - split.
    { intros Hnone. apply find_some in Hcurrent. destruct Hcurrent as [Hin Hsame].
      apply String.eqb_eq in Hsame. now apply Hnone in Hin. }
    intros Hfew _ apartment result Hin Hother Hsolve Hpositive Hlow Hhigh.
    rewrite length_map in Hfew.
    match goal with
    | |- In _ (map _ (firstn 5 ?sorted)) =>
        assert (Hall : firstn 5 sorted = sorted)
    end.
    { apply firstn_all2. rewrite length_firstn in Hfew. lia. }
    rewrite Hall.
    apply in_map_iff.
    exists (mkCandidate apartment
              (NpvCalculator.monthlyInstallment (NpvCalculator.modelA result))
              (parseDeliveryTime (teslim_suresi apartment))
              (bugunku_pesin_fiyat apartment)).
    split; [reflexivity|].
    apply (Permutation_in _ (Permutation_sym (sort_permutes _ _))).
    apply filter_In. split.
    + apply in_dropNull, in_map_iff. exists apartment. split.
      * unfold candidateFor. now rewrite Hsolve.
      * apply filter_In. split; [exact Hin|].
        apply negb_true_iff, String.eqb_neq. exact Hother.
    + cbn [calculatedInstallment]. unfold Qleb.
      rewrite !andb_true_iff, !Qle_bool_iff, Qltb_true. auto.
  - split; [reflexivity|].
    intros _ (current & Hin & Hsame). exfalso.
    apply (find_none _ _ Hcurrent) in Hin. apply String.eqb_neq in Hin. contradiction.
Qed.

End Turns.

Lemma result_is_remembered_witness :
  exists response result,
    respond june2025 "2" atInstallments catalog = Some response /\
    npvResult response = Some result /\
    exists updated,
      newState response = Some updated /\
      lastNpvResult updated = Some result /\
      step updated = Some completed.
Proof.
  assert (Hturn : exists response result,
             respond june2025 "2" atInstallments catalog = Some response /\
             npvResult response = Some result)
    by (vm_compute; eexists; eexists; split; reflexivity).
  destruct Hturn as (response & result & Hturn & Hresult).
  exists response, result. split; [exact Hturn|]. split; [exact Hresult|].
  exact (proj1 (result_is_remembered twelfthRoot insertionSort june2025 "2"
                  atInstallments catalog response Hturn) result Hresult).
Defined.

Lemma steps_follow_the_flow_witness :
  exists response updated,
    step atDownMonth = Some waiting_for_down_payment_month /\
    respond june2025 "7" atDownMonth catalog = Some response /\
    newState response = Some updated /\
    exists next,
      step updated = Some next /\ mayFollow waiting_for_down_payment_month next = true.
Proof.
  assert (Hturn : exists response updated,
             respond june2025 "7" atDownMonth catalog = Some response /\
             newState response = Some updated)
    by (vm_compute; eexists; eexists; split; reflexivity).
  destruct Hturn as (response & updated & Hturn & Hupdated).
  exists response, updated. split; [reflexivity|]. split; [exact Hturn|].
  split; [exact Hupdated|].
  exact (steps_follow_the_flow twelfthRoot insertionSort june2025 "7" atDownMonth catalog
           waiting_for_down_payment_month response updated eq_refl Hturn Hupdated).
Defined.

Lemma new_property_restarts_witness :
  exists response,
    respond june2025 "gzp-h04-002" planDone catalog = Some response /\
    message response = MsgNewApartmentChosen "GZP-H04-002" /\
    newState response = Some (restartedWith "GZP-H04-002" planDone) /\
    suggestedDownAmount (restartedWith "GZP-H04-002" planDone) = Some 350000%Q.
Proof.
  assert (Hturn : exists response,
             respond june2025 "gzp-h04-002" planDone catalog = Some response /\
             message response = MsgNewApartmentChosen "GZP-H04-002")
    by (vm_compute; eexists; split; reflexivity).
  destruct Hturn as (response & Hturn & Hmessage).
  exists response. split; [exact Hturn|]. split; [exact Hmessage|].
  split; [|reflexivity].
  apply (new_property_restarts twelfthRoot insertionSort june2025 "gzp-h04-002" planDone
           catalog response "GZP-H04-002" Hturn Hmessage).
Defined.

Lemma down_payment_accepted_witness :
  exists response updated,
    respond june2025 "300.000 TL" atDownPayment catalog = Some response /\
    newState response = Some updated /\
    step updated = Some waiting_for_down_payment_year /\
    exists amount,
      parseAmount "300.000 TL" = Some amount /\
      (1000 <= amount)%Q /\
      (forall apartment,
         findApartment catalog (apartmentId atDownPayment) = Some apartment ->
         (amount <= bugunku_pesin_fiyat apartment)%Q) /\
      updated = set_step (Some waiting_for_down_payment_year)
                  (set_downAmount (Some amount) atDownPayment).
Proof.
  assert (Hturn : exists response updated,
             respond june2025 "300.000 TL" atDownPayment catalog = Some response /\
             newState response = Some updated /\
             step updated = Some waiting_for_down_payment_year)
    by (vm_compute; eexists; eexists; repeat split; reflexivity).
  destruct Hturn as (response & updated & Hturn & Hupdated & Hstep).
  exists response, updated. split; [exact Hturn|]. split; [exact Hupdated|].
  split; [exact Hstep|].
  apply (down_payment_accepted twelfthRoot insertionSort june2025 "300.000 TL"
           atDownPayment catalog response updated Hturn Hupdated Hstep).
Defined.

Lemma down_month_accepted_witness :
  exists response updated,
    respond june2025 "temmuz" atDownMonth catalog = Some response /\
    newState response = Some updated /\
    step updated = Some waiting_for_installments /\
    exists month',
      parseMonth "temmuz" = Some month' /\
      1 <= month' <= 12 /\
      NpvCalculator.newDate (year june2025) (month june2025 - 1)
      <= NpvCalculator.newDate (orZ (downYear atDownMonth) (year june2025)) (month' - 1) /\
      updated = set_step (Some waiting_for_installments)
                  (set_downMonth (Some month') atDownMonth).
Proof.
  assert (Hturn : exists response updated,
             respond june2025 "temmuz" atDownMonth catalog = Some response /\
             newState response = Some updated /\
             step updated = Some waiting_for_installments)
    by (vm_compute; eexists; eexists; repeat split; reflexivity).
  destruct Hturn as (response & updated & Hturn & Hupdated & Hstep).
  exists response, updated. split; [exact Hturn|]. split; [exact Hupdated|].
  split; [exact Hstep|].
  apply (down_month_accepted twelfthRoot insertionSort june2025 "temmuz"
           atDownMonth catalog response updated Hturn Hupdated Hstep).
Defined.

Lemma reported_plan_is_solved_witness :
  exists response quoted,
    respond june2025 "2" atInstallments catalog = Some response /\
    message response = MsgCalculationDone quoted /\
    step atInstallments = Some waiting_for_installments /\
    exists result,
      solveForPrice june2025 atInstallments (bugunku_pesin_fiyat flatA)
        (rateDecimal 2) 300000 2025 7 2
      = NpvCalculator.Returned result /\
      npvResult response = Some result /\
      quoted = betterInstallment result.
Proof.
  assert (Hturn : exists response quoted,
             respond june2025 "2" atInstallments catalog = Some response /\
             message response = MsgCalculationDone quoted)
    by (vm_compute; eexists; eexists; split; reflexivity).
  destruct Hturn as (response & quoted & Hturn & Hmessage).
  exists response, quoted. split; [exact Hturn|]. split; [exact Hmessage|].
  destruct (reported_plan_is_solved twelfthRoot insertionSort june2025 "2" atInstallments
              catalog response quoted Hturn Hmessage)
    as (Hstep & apartment & rate' & down & downYear' & downMonth' & count & result
        & Hplan & Hcount & Hsolve & Hresult & Hquoted & _).
  split; [exact Hstep|]. exists result.
  injection Hplan as <- <- <- <- <-.
  destruct Hcount as [Hcount|(Hcount & _)]; [|discriminate Hcount].
  injection Hcount as <-. repeat split; assumption.
Defined.

Lemma fallback_reply_witness :
  step withoutDownPayment = Some waiting_for_installments /\
  planParameters catalog withoutDownPayment = None /\
  parseInstallments "24" = Some 24 /\
  respond june2025 "24" withoutDownPayment catalog
  = Some (mkBotResponse MsgNotUnderstood None None).
Proof.
  split; [reflexivity|]. split; [reflexivity|]. split; [reflexivity|].
  apply (proj2 (fallback_reply twelfthRoot insertionSort june2025 "24" withoutDownPayment
                  catalog));
    [reflexivity | reflexivity | left; discriminate | reflexivity | reflexivity].
Defined.

Lemma catalog_kept_witness :
  exists response,
    respond june2025 "7" atDownMonth catalog = Some response /\
    inCatalog catalog atDownMonth /\
    inCatalog catalog (nextState atDownMonth response).
Proof.
  assert (Hturn : exists response,
             respond june2025 "7" atDownMonth catalog = Some response)
    by (vm_compute; eexists; reflexivity).
  destruct Hturn as (response & Hturn).
  assert (Hstate : inCatalog catalog atDownMonth).
  { split.
    - intros evId [= <-]. exists flatA. split; [left; reflexivity | reflexivity].
    - intros listed Hlisted. discriminate Hlisted. }
  exists response. split; [exact Hturn|]. split; [exact Hstate|].
  exact (catalog_kept twelfthRoot insertionSort insertionSort_permutes june2025 "7"
           atDownMonth catalog response Hstate Hturn).
Defined.

Lemma findAlternativeApartments_complete_witness :
  (List.length
     (findAlternativeApartments insertionSort catalog 85000 300000 6 2 2025 7 2025 6
        "GZP-H04-001" 5000) < 5)%nat /\
  In flatB
    (findAlternativeApartments insertionSort catalog 85000 300000 6 2 2025 7 2025 6
       "GZP-H04-001" 5000).
Proof.
  assert (Hfew : (List.length
                    (findAlternativeApartments insertionSort catalog 85000 300000 6 2
                       2025 7 2025 6 "GZP-H04-001" 5000) < 5)%nat)
    by (vm_compute; lia).
  split; [exact Hfew|].
  destruct (findAlternativeApartments_complete insertionSort insertionSort_permutes
              catalog 85000 300000 6 2 2025 7 2025 6 "GZP-H04-001" 5000)
    as [_ Hcomplete].
  destruct (NpvCalculator.calculateNPV
              (NpvCalculator.mkNPVInputs (Some (bugunku_pesin_fiyat flatB)) None
                 (rateDecimal 2) 300000 2025 7 6 2025 6)) as [result|msg] eqn:Hsolve;
    [|discriminate Hsolve].
  apply (Hcomplete Hfew) with (result := result).
  - exists flatA. split; [left; reflexivity | reflexivity].
  - right. left. reflexivity.
  - discriminate.
  - exact Hsolve.
  - revert Hsolve. unfold NpvCalculator.calculateNPV. cbn [NpvCalculator.targetPv].
    intros [= <-]. cbn [NpvCalculator.modelA NpvCalculator.monthlyInstallment].
    vm_compute. reflexivity.
  - revert Hsolve. unfold NpvCalculator.calculateNPV. cbn [NpvCalculator.targetPv].
    intros [= <-]. cbn [NpvCalculator.modelA NpvCalculator.monthlyInstallment].
    vm_compute. discriminate.
  - revert Hsolve. unfold NpvCalculator.calculateNPV. cbn [NpvCalculator.targetPv].
    intros [= <-]. cbn [NpvCalculator.modelA NpvCalculator.monthlyInstallment].
    vm_compute. discriminate.
Defined.

Lemma suggested_down_payment_is_feasible_witness :
  exists response suggested quoted,
    respond june2025 "peşinat ne kadar artır" negotiating catalog = Some response /\
    message response = MsgDownSuggested suggested quoted /\
    (suggested <= bugunku_pesin_fiyat flatA * 0.5)%Q /\
    (291000 - 5000 <= quoted <= 291000 + 5000)%Q /\
    newState response = Some (set_suggestedDownAmount (Some suggested) negotiating).
Proof.
  assert (Hturn : exists response suggested quoted,
             respond june2025 "peşinat ne kadar artır" negotiating catalog
             = Some response /\
             message response = MsgDownSuggested suggested quoted)
    by (vm_compute; do 3 eexists; split; reflexivity).
  destruct Hturn as (response & suggested & quoted & Hturn & Hmessage).
  exists response, suggested, quoted. split; [exact Hturn|]. split; [exact Hmessage|].
  destruct (suggested_down_payment_is_feasible twelfthRoot insertionSort june2025
              "peşinat ne kadar artır" negotiating catalog response suggested quoted
              Hturn Hmessage)
    as (_ & apartment & desired & downYear' & downMonth' & result & Hfound & Hdesired
        & _ & _ & Hceiling & _ & _ & _ & Hwithin & _ & Hnew).
  injection Hfound as <-. injection Hdesired as <-.
  repeat split; try exact Hceiling; try exact Hnew; apply Hwithin.
Defined.

End ChatbotMoreFacts.

(** ** Facts about the catalog filter *)

Module CsvLoaderFacts.

Import JsString Chatbot CsvLoader ChatbotTerms CsvLoaderTerms.
Local Open Scope string_scope.
Local Open Scope Q_scope.

Lemma filter_twice {T : Type} (p q : T -> bool) (items : list T) :
  filter p (filter q items) = filter (fun item => q item && p item) items.
Proof.
  induction items as [|item items IH]; [reflexivity|]. cbn [filter].
  destruct (q item); cbn [filter andb]; [destruct (p item)|]; now rewrite IH.
Qed.

Lemma filter_all {T : Type} (items : list T) : filter (fun _ => true) items = items.
Proof. induction items as [|item items IH]; [reflexivity|]. cbn [filter]. now rewrite IH. Qed.

(** The passes of the filter amount to one pass with the criteria given. *)
Lemma filterApartments_one_pass apartments filters :
  filterApartments apartments filters = filter (accepts filters) apartments.
Proof.
  unfold filterApartments, accepts, activeSearch, activeRooms.
  destruct (searchText filters) as [text|];
    [destruct (truthyString (Some text))|];
    destruct (minPrice filters) as [lowest|], (maxPrice filters) as [highest|],
      (odaSayisi filters) as [[|room rooms]|];
    cbn [List.length Nat.ltb Nat.leb];
    rewrite ?filter_twice;
    try (apply filter_ext; intros apt; cbn [andb];
         rewrite <- ?andb_assoc, ?andb_true_r, ?andb_true_l; reflexivity);
    symmetry; apply filter_all.
Qed.

Lemma arrayIncludes_In rooms value : arrayIncludes rooms value = true <-> In value rooms.
Proof.
  unfold arrayIncludes. rewrite existsb_exists. split.
  - intros (room & Hin & Hsame). apply String.eqb_eq in Hsame. now subst.
  - intros Hin. exists value. split; [exact Hin | apply String.eqb_refl].
Qed.

(** X23.  The filter returns the properties of the list that pass every
    criterion given (a search text that is not empty, found in the
    identifier, quarter, district or city without regard to case; a lowest
    and a highest price, both inclusive; a list of room counts that is not
    empty), and no others. *)
Theorem filterApartments_member apartments filters apt :
  In apt (filterApartments apartments filters)
  <-> In apt apartments /\ passes filters apt.
Proof.
  rewrite filterApartments_one_pass, filter_In.
  enough (Hsame : accepts filters apt = true <-> passes filters apt) by tauto.
  unfold accepts, passes. rewrite !andb_true_iff.
  destruct (activeSearch filters) as [search|], (minPrice filters) as [lowest|],
    (maxPrice filters) as [highest|], (activeRooms filters) as [rooms|];
    unfold Qleb; rewrite ?Qle_bool_iff, ?arrayIncludes_In, ?orb_true_iff; split;
    try (intros (((Hs & Hl) & Hh) & Hr); repeat split;
         try (intros ? [= <-]); try discriminate; tauto);
    intros (Hs & Hl & Hh & Hr); repeat split; auto;
    specialize (Hs _ eq_refl); tauto.
Qed.

Lemma filterApartments_member_witness :
  In flatB (filterApartments catalog midPriced) /\
  ~ In flatA (filterApartments catalog midPriced).
Proof.
  split.
  - apply (proj2 (filterApartments_member catalog midPriced flatB)).
    split; [right; left; reflexivity|]. repeat split.
    + intros search [= <-]. right. right. right. vm_compute. reflexivity.
    + intros lowest [= <-]. cbn. lra.
    + intros highest [= <-]. cbn. lra.
    + intros rooms [= <-]. left. reflexivity.
  - intros Hin. apply (proj1 (filterApartments_member catalog midPriced flatA)) in Hin.
    destruct Hin as (_ & _ & Hlowest & _).
    specialize (Hlowest _ eq_refl). cbn in Hlowest. lra.
Defined.

(** X24.  The filter keeps the order of the list, filtering again with the
    same criteria changes nothing, and two filters can be applied in either
    order. *)
Theorem filterApartments_composes apartments filters others :
  filterApartments apartments filters = filter (accepts filters) apartments /\
  filterApartments (filterApartments apartments filters) filters
  = filterApartments apartments filters /\
  filterApartments (filterApartments apartments filters) others
  = filterApartments (filterApartments apartments others) filters.
Proof.
  rewrite !filterApartments_one_pass, !filter_twice. repeat split.
  - apply filter_ext. intros apt. now destruct (accepts filters apt).
  - apply filter_ext. intros apt. apply andb_comm.
Qed.

End CsvLoaderFacts.

(** ** Facts about the result card *)

Module NPVResultCardFacts.

Import NpvCalculator NpvTerms NpvMoreTerms NpvFacts NpvMoreFacts NPVResultCard.
Local Open Scope Q_scope.

Lemma betterModel_by_total result apartmentPrice :
  betterModel result apartmentPrice
  = if Chatbot.Qltb (nominalTotal (modelA result)) (nominalTotal (modelB result))
    then A else B.
Proof.
  unfold betterModel, modelAInterest, modelBInterest, Chatbot.Qltb.
  destruct (Qlt_le_dec (nominalTotal (modelA result) - apartmentPrice)
              (nominalTotal (modelB result) - apartmentPrice)),
    (Qlt_le_dec (nominalTotal (modelA result)) (nominalTotal (modelB result)));
    try reflexivity; lra.
Qed.

Lemma advantage_by_total result apartmentPrice :
  advantage result apartmentPrice
  == Qabs (nominalTotal (modelA result) - nominalTotal (modelB result)).
Proof.
  unfold advantage, modelAInterest, modelBInterest.
  apply Qabs_wd. ring.
Qed.

(** X25.  The card and the chat agree: whatever price the card is given,
    the model it recommends is the one of strictly lower nominal total
    (Model B on a tie), the installment of that model is the one the engine
    quotes in its reply, and the advantage shown is the distance between the
    two nominal totals. *)
Theorem card_agrees_with_chat (result : NPVResult) (apartmentPrice : Q) :
  (betterModel result apartmentPrice = A
   <-> nominalTotal (modelA result) < nominalTotal (modelB result)) /\
  monthlyInstallment (recommended result apartmentPrice)
  = Chatbot.betterInstallment result /\
  advantage result apartmentPrice
  == Qabs (nominalTotal (modelA result) - nominalTotal (modelB result)).
Proof.
  split; [|split; [|apply advantage_by_total]].
  - rewrite betterModel_by_total.
    destruct (Chatbot.Qltb _ _) eqn:E.
    + apply ChatbotFacts.Qltb_true in E. tauto.
    + apply ChatbotFacts.Qltb_false in E. split; [discriminate | lra].
  - unfold recommended, Chatbot.betterInstallment. rewrite betterModel_by_total.
    now destruct (Chatbot.Qltb _ _).
Qed.

Lemma firstn_zseq k from len : firstn k (zseq from len) = zseq from (Nat.min k len).
Proof.
  revert from len; induction k as [|k IH]; intros from len; [reflexivity|].
  destruct len as [|len]; [reflexivity|]. cbn [firstn zseq Nat.min]. now rewrite IH.
Qed.

(** X26.  The card of a solved plan.  For a plan solved for a target price
    above the discounted down payment at a positive rate, with the down
    payment due at an offset in [1 .. n], the card recommends Model A, shows
    as advantage what Model B costs more in nominal terms, which is
    positive, and lists the installments of the first months after the
    start: six of them, or all [n] if there are fewer.  With the down
    payment due at offset [n + 1] the totals are equal, the card recommends
    Model B and the advantage shown is zero. *)
Theorem card_of_solved_plan (inp : NPVInputs) (target shownPrice : Q) (result : NPVResult) :
  targetPv inp = Some target ->
  0 < monthlyRate inp ->
  presentValue (downAmount inp) (downOffset inp) (monthlyRate inp) < target ->
  (1 <= downOffset inp <= nInstallments inp + 1)%Z ->
  calculateNPV inp = Returned result ->
  ((downOffset inp <= nInstallments inp)%Z ->
   betterModel result shownPrice = A /\
   0 < advantage result shownPrice /\
   advantage result shownPrice
   == nominalTotal (modelB result) - nominalTotal (modelA result) /\
   map monthCount (shownSchedule result shownPrice)
   = zseq (startDate inp + 1) (Nat.min 6 (Z.to_nat (nInstallments inp)))) /\
  (downOffset inp = (nInstallments inp + 1)%Z -> (1 <= nInstallments inp)%Z ->
   betterModel result shownPrice = B /\ advantage result shownPrice == 0).
Proof.
  intros Hpv Hr Hrem Ht Hres.
  destruct (deferred_installment inp target Hr Hrem Ht) as [Hin Hedge].
  assert (Htotals :
            nominalTotal (modelA result) - nominalTotal (modelB result)
            == ((target - presentValue (downAmount inp) (downOffset inp) (monthlyRate inp))
                / geometricSumDiscount (nInstallments inp) (monthlyRate inp) 1 None
                - (target - presentValue (downAmount inp) (downOffset inp)
                              (monthlyRate inp))
                  / geometricSumDiscount (nInstallments inp + 1) (monthlyRate inp) 1
                      (if ((1 <=? downOffset inp)
                           && (downOffset inp <=? nInstallments inp + 1))%Z
                       then Some (downOffset inp) else None))
               * inject_Z (nInstallments inp)).
  { pose proof Hres as Hres'. unfold calculateNPV in Hres'. rewrite Hpv in Hres'.
    injection Hres' as <-. cbn [modelA modelB nominalTotal]. fold (downOffset inp).
    ring. }
  split.
  - intros Hle. specialize (Hin Hle).
    assert (Hcount : 0 < inject_Z (nInstallments inp)) by (unfold Qlt; cbn; lia).
    assert (Htotal : nominalTotal (modelA result) < nominalTotal (modelB result)) by nra.
    assert (Hbetter : betterModel result shownPrice = A).
    { rewrite betterModel_by_total.
      destruct (Chatbot.Qltb _ _) eqn:E; [reflexivity|].
      apply ChatbotFacts.Qltb_false in E. lra. }
    assert (Hadv : advantage result shownPrice
                   == nominalTotal (modelB result) - nominalTotal (modelA result)).
    { rewrite advantage_by_total, Qabs_neg by lra. ring. }
    split; [exact Hbetter|]. split; [rewrite Hadv; lra|]. split; [exact Hadv|].
    unfold shownSchedule, recommended. rewrite Hbetter.
    unfold calculateNPV in Hres. rewrite Hpv in Hres. injection Hres as <-.
    cbn [modelA schedule].
    rewrite scheduleConcurrent_spec, firstn_map, monthCount_entries, firstn_zseq.
    apply map_shift_zseq.
  - intros Heq Hn. specialize (Hedge Heq Hn).
    assert (Htotal : nominalTotal (modelA result) == nominalTotal (modelB result))
      by (rewrite Hedge in Htotals; lra).
    split.
    + rewrite betterModel_by_total.
      destruct (Chatbot.Qltb _ _) eqn:E; [|reflexivity].
      apply ChatbotFacts.Qltb_true in E. lra.
    + rewrite advantage_by_total, Qabs_pos by lra. lra.
Qed.

Lemma card_of_solved_plan_witness :
  exists result,
    calculateNPV sixInstallments = Returned result /\
    betterModel result 1000000 = A /\
    0 < advantage result 1000000 /\
    map date (shownSchedule result 1000000)
    = [mkYearMonth 2025 2; mkYearMonth 2025 3; mkYearMonth 2025 4; mkYearMonth 2025 5;
       mkYearMonth 2025 6; mkYearMonth 2025 7].
Proof.
  eexists. split; [reflexivity|].
  destruct (card_of_solved_plan sixInstallments 1000000 1000000 _ eq_refl
              ltac:(cbn; lra) ltac:(vm_compute; reflexivity) ltac:(cbn; lia) eq_refl)
    as [Hin _].
  destruct (Hin ltac:(cbn; lia)) as (Hbetter & Hadv & _ & _).
  split; [exact Hbetter|]. split; [exact Hadv|].
  unfold shownSchedule, recommended. rewrite Hbetter. reflexivity.
Defined.

End NPVResultCardFacts.
